(** * ArchFlow layout pipeline

    A shallow embedding of the three services of the repository
    - [src/services/performanceService.js]   (class PerformanceMetricsCalculator),
    - [src/services/buildingCodesService.js] (class BuildingCodesService),
    - [src/services/exportService.js]        (class ExportService),
    with the fallback layout and the quick compliance check of
    [src/services/aiService.js], the properties of them that the
    specification states, and further properties read off the code.

    Conventions of the embedding.
    - A JavaScript number is an exact rational ([Q]): [+ - * /] and the
      comparisons are the real-number ones, [Math.round x] is
      [floor (x + 1/2)].  Rounding to binary64, NaN and the infinities are
      not modelled; a theorem about a quotient states the hypotheses under
      which the divisor is not zero, and the ranges of the metrics are
      stated for the magnitudes ([Layout_moderate]) at which binary64
      rounds no side of the bounding box to zero and nothing overflows.
      The IBC corridor minimum, 44 inches tested on the product
      [width * 12], is stated with the margin of the rounding of that
      product (11/3 ft is no binary64 number; the 3 ft of the ADA is one).
      [Math.sqrt] and the conversion of a number to a string are section
      variables.
    - A JavaScript string is a [string]; one [ascii] stands for one code
      unit, so the strings covered are those with code units below 256.
    - An object with a fixed set of properties is a record; a property that
      may be missing is an [option], [undefined] being [None].  An object
      used as a table is the list of its own properties; what depends on
      a key not being one that every object inherits
      ([JS.inheritedNames]) says so ([BuildingCodesService.ownNames]).
    - A thrown exception is the [Throw] case of [completion]; a method that
      cannot throw returns its value directly.
    - [new Date()] is a section variable holding what the clock read; the
      shape of an ISO timestamp is a hypothesis where it matters.
    - [JSON.stringify] and [JSON.parse] are modelled in the module [JSON].

    Where each claim of the specification is settled:
    - C1  [PerformanceMetricsCalculator.calculateAllMetrics_never_returns]
    - C2  [BuildingCodesService.checkCompliance_status]
    - C3  [BuildingCodesService.narrow_path_fails_ADA]
    - C4  [PerformanceMetricsCalculator.metrics_ranges]
    - C5  [ExportService.missing_property_throws]
    - C6  [ExportService.dangling_path_skipped]
    - C7  [BuildingCodesService.checkCompliance_config_error]
    - C8  [ExportService.exportToJSON_round_trip]
    - C9  [ExportService.batch_file_names]
    - C10 [BuildingCodesService.checkCompliance_never_warning]

    Further properties of the code:
    - X1  [PerformanceMetricsCalculator.calculateBuildingBounds_smallest_enclosing]
    - X2  [PerformanceMetricsCalculator.calculateAdjacencyScore_order]
    - X3  [PerformanceMetricsCalculator.circulation_lowers_efficiency]
    - X4  [PerformanceMetricsCalculator.accessibilityScore_extremes]
    - X5  [PerformanceMetricsCalculator.daylightHours_at_least_four]
    - X6  [PerformanceMetricsCalculator.energyEfficiency_at_most_64]
    - X7  [PerformanceMetricsCalculator.generateRecommendations_never_returns]
    - X8  [BuildingCodesService.checkCompliance_summary]
    - X9  [BuildingCodesService.issues_report_shortfall]
    - X10 [BuildingCodesService.checkCompliance_codes_append]
    - X11 [BuildingCodesService.ADA_compliant_iff]
    - X12 [BuildingCodesService.IBC_compliant_when]
    - X13 [BuildingCodesService.NBC_rejects_every_path]
    - X14 [BuildingCodesService.IRC_checks_nothing]
    - X15 [BuildingCodesService.recommendations_by_type]
    - X16 [BuildingCodesService.report_of_config_error]
    - X17 [BuildingCodesService.report_of_checked_layout]
    - X18 [BuildingCodesService.requiresTurningSpace_iff_typed]
    - X19 [BuildingCodesService.getApplicableCodes_available]
    - X20 [ExportService.exportToJSON_envelope]
    - X21 [ExportService.exportMultipleFormats_entries]
    - X22 [ExportService.supported_formats_export]
    - X23 [ExportService.incomplete_layout_exports]
    - X24 [ExportService.calculateBounds_agrees]
    - X25 [ExportService.csv_one_line_per_room]
    - X26 [ExportService.batch_json_reads_back]
    - X27 [AIService.generateFallbackLayout_well_formed]
    - X28 [AIService.generateFallbackLayout_compliant]
    - X29 [AIService.checkComplianceStatus_counts]
    - X30 [BuildingCodesService.supported_countries_resolve] *)

From Stdlib Require Import ZArith QArith Qminmax Qround.
From Stdlib Require Import List String Ascii DecimalString Bool Arith Lia Lqa.
From Stdlib Require Import Permutation.
Import ListNotations.

(** ** The JavaScript fragment the services use *)

Module JS.

Inductive exn : Type :=
| TypeError            (* reading a property of undefined *)
| RangeError           (* maximum call stack size exceeded *)
| Error (message : string).

Inductive completion (A : Type) : Type :=
| Return (a : A)
| Throw (e : exn).

Arguments Return {A} a.
Arguments Throw {A} e.

Definition bind {A B : Type} (c : completion A) (k : A -> completion B)
  : completion B :=
  match c with
  | Return a => k a
  | Throw e => Throw e
  end.

Definition number : Type := Q.

Definition ltb (a b : number) : bool := negb (Qle_bool b a).
Definition leb (a b : number) : bool := Qle_bool a b.
Definition geb (a b : number) : bool := Qle_bool b a.
Definition strict_eq (a b : number) : bool := Qeq_bool a b.

(** [x || d] on an optional number: [undefined] and [0] are falsy. *)
Definition truthy (x : number) : bool := negb (Qeq_bool x 0).

Definition or_default (x : option number) (d : number) : number :=
  match x with
  | Some v => if truthy v then v else d
  | None => d
  end.

Definition Math_max : number -> number -> number := Qmax.
Definition Math_min : number -> number -> number := Qmin.
Definition Math_round (x : number) : number := inject_Z (Qfloor (x + (1 # 2))).
(** [Math.pow(x, 2)] *)
Definition Math_pow2 (x : number) : number := x * x.

Definition of_nat (n : nat) : number := inject_Z (Z.of_nat n).

(** *** Strings *)

Definition lowerChar (c : ascii) : ascii :=
  let n := nat_of_ascii c in
  if ((65 <=? n) && (n <=? 90))%nat then ascii_of_nat (n + 32)
  else if ((192 <=? n) && (n <=? 222) && negb (n =? 215))%nat
       then ascii_of_nat (n + 32)
       else c.

Fixpoint toLowerCase (s : string) : string :=
  match s with
  | EmptyString => EmptyString
  | String c s' => String (lowerChar c) (toLowerCase s')
  end.

Fixpoint includes (s sub : string) : bool :=
  if String.prefix sub s then true
  else match s with
       | EmptyString => false
       | String _ s' => includes s' sub
       end.

Definition endsWith (s suffix : string) : bool :=
  let n := String.length s in
  let m := String.length suffix in
  if (m <=? n)%nat then String.eqb (String.substring (n - m) m s) suffix
  else false.

(** [||] on an optional string: [undefined] and the empty string are falsy. *)
Definition or_string (x : option string) (d : string) : string :=
  match x with
  | Some EmptyString | None => d
  | Some s => s
  end.

(** The property names that every object inherits from
    [Object.prototype].  Reading one of them on an object literal gives
    the inherited value, not [undefined]; the tables below are read by own
    properties, and the properties that depend on the difference are
    stated for keys other than these. *)
Definition inheritedNames : list string :=
  [ "constructor"; "hasOwnProperty"; "isPrototypeOf"; "propertyIsEnumerable";
    "toLocaleString"; "toString"; "valueOf"; "__proto__";
    "__defineGetter__"; "__defineSetter__"; "__lookupGetter__";
    "__lookupSetter__" ]%string.

Definition newline : string := String (ascii_of_nat 10) EmptyString.
Definition dquote : string := String (ascii_of_nat 34) EmptyString.

(** The lines of a template literal, each ended by a line feed. *)
Fixpoint unlines (ls : list string) : string :=
  match ls with
  | [] => EmptyString
  | l :: ls' => (l ++ newline ++ unlines ls')%string
  end.

(** [array.join(separator)] *)
Fixpoint join (separator : string) (items : list string) : string :=
  match items with
  | [] => EmptyString
  | [item] => item
  | item :: items' => (item ++ separator ++ join separator items')%string
  end.

End JS.

Notation "x <- c ;; k" := (JS.bind c (fun x => k))
  (at level 61, c at next level, right associativity).

(** ** Data model *)

Record Room : Type := mkRoom {
  id : string;
  name : string;
  area : Q;
  x : Q;
  y : Q;
  width : Q;
  height : Q
}.

(** The path's [width] property is [pwidth] here: a record field name is
    global in Rocq and [width] is the room's. *)
Record CirculationPath : Type := mkPath {
  from : string;
  to : string;
  pwidth : Q
}.

Record LayoutData : Type := mkLayout {
  rooms : option (list Room);
  circulation : option (list CirculationPath)
}.

(** [rooms.find(r => r.id === key)] *)
Definition findRoom (rs : list Room) (key : string) : option Room :=
  find (fun r => String.eqb (id r) key) rs.

(** The invariants the data model states for a room. *)
Definition Room_ok (r : Room) : Prop :=
  0 < area r /\ 0 < width r /\ 0 < height r.

Definition Layout_ok (l : LayoutData) : Prop :=
  forall rs, rooms l = Some rs -> Forall Room_ok rs.

(** The magnitudes of an ordinary drawing: sizes between 10^-6 and 10^9,
    positions and path widths within 10^9 of zero.  At these magnitudes the
    binary64 arithmetic of the metrics stays finite, and a sum [x + width],
    once rounded, is still above [x] (the spacing of the binary64 numbers
    below 10^9 is under 10^-6): no side of the bounding box is rounded to
    zero, so no quotient of the metrics is 0/0 or Infinity/Infinity.  The
    range properties of the metrics are stated for such layouts. *)
Definition moderate (q : Q) : Prop :=
  ((1 # 1000000) <= q /\ q <= 1000000000)%Q.

Definition within (q : Q) : Prop :=
  (- (1000000000) <= q /\ q <= 1000000000)%Q.

Definition Room_moderate (r : Room) : Prop :=
  moderate (area r) /\ moderate (width r) /\ moderate (height r)
  /\ within (x r) /\ within (y r).

Definition Layout_moderate (l : LayoutData) : Prop :=
  (forall rs, rooms l = Some rs -> Forall Room_moderate rs)
  /\ (forall paths, circulation l = Some paths ->
        Forall (fun path => within (pwidth path)) paths).

Lemma Room_moderate_ok (r : Room) : Room_moderate r -> Room_ok r.
Proof.
  unfold Room_moderate, Room_ok, moderate.
  intros ((Ha & _) & (Hw & _) & (Hh & _) & _).
  repeat split; (eapply Qlt_le_trans; [|eassumption]); reflexivity.
Qed.

Lemma Layout_moderate_ok (l : LayoutData) : Layout_moderate l -> Layout_ok l.
Proof.
  intros [H _] rs Hrs. specialize (H rs Hrs).
  eapply Forall_impl; [|exact H]. exact Room_moderate_ok.
Qed.

(** ** Sample inputs, and instances of the section variables that compute *)

Module Samples.

Local Open Scope Q_scope.
Local Open Scope string_scope.

(** A square root that computes: the root of [v], cut after six decimals. *)
Definition decimalSqrt (v : Q) : Q :=
  Z.sqrt (Qnum v * Zpos (Qden v) * 10 ^ 12) # (Qden v * 10 ^ 6).

Lemma decimalSqrt_pos (v : Q) : 0 < v -> 0 < decimalSqrt v.
Proof.
  destruct v as [n d]. unfold Qlt, decimalSqrt; simpl.
  intro H. rewrite Z.mul_1_r in *.
  apply Z.sqrt_pos. nia.
Qed.

Lemma decimalSqrt_nonneg (v : Q) : 0 <= v -> 0 <= decimalSqrt v.
Proof.
  intros _. unfold Qle, decimalSqrt; simpl.
  rewrite Z.mul_1_r. apply Z.sqrt_nonneg.
Qed.

Lemma decimalSqrt_close (v : Q) :
  0 <= v -> decimalSqrt v * decimalSqrt v <= v * (101 # 100).
Proof.
  destruct v as [n d]. unfold Qle, decimalSqrt; simpl.
  rewrite Z.mul_1_r. intro Hn.
  change (Z.pow_pos 10 12) with 1000000000000%Z.
  change (10 ^ 6)%positive with 1000000%positive.
  assert (Hp : (0 <= n * Z.pos d * 1000000000000)%Z) by nia.
  pose proof (Z.sqrt_spec _ Hp) as [Hs _].
  set (s := Z.sqrt (n * Z.pos d * 1000000000000)) in *. clearbody s.
  rewrite !Pos2Z.inj_mul.
  assert (Hd : (0 < Z.pos d)%Z) by lia.
  set (D := Z.pos d) in *. clearbody D.
  assert (H1 : (s * s * (D * 100) <= n * D * 1000000000000 * (D * 100))%Z)
    by (apply Z.mul_le_mono_nonneg_r; lia).
  assert (H2 : (0 <= n * D * D)%Z) by nia.
  nia.
Qed.

(** A number-to-string conversion that computes: the decimal expansion,
    without exponent, cut after 17 fractional digits.  On the integers and
    the short decimals of the samples it is what a template literal
    prints. *)
Definition digitsOf (z : Z) : string := NilZero.string_of_int (Z.to_int z).

Fixpoint fractionDigits (places : nat) (r d : Z) : string :=
  match places with
  | O => EmptyString
  | S places' =>
      if (r =? 0)%Z then EmptyString
      else digitsOf (r * 10 / d) ++ fractionDigits places' (r * 10 mod d) d
  end.

Definition decimalString (v : Q) : string :=
  let n := Z.abs (Qnum v) in
  let d := Zpos (Qden v) in
  (if (Qnum v <? 0)%Z then "-" else "")
  ++ digitsOf (n / d)
  ++ (if (n mod d =? 0)%Z then "" else "." ++ fractionDigits 17 (n mod d) d).

Definition emptyLayout : LayoutData :=
  {| rooms := Some []; circulation := Some [] |}.

Definition officeRoom : Room :=
  {| id := "r1"; name := "office"; area := 50;
     x := 0; y := 0; width := 100; height := 100 |}.

Definition meetingRoom : Room :=
  {| id := "r2"; name := "meeting"; area := 150;
     x := 100; y := 0; width := 100; height := 100 |}.

(** The two-room scenario of the specification: one path of 2 ft. *)
Definition twoRooms : LayoutData :=
  {| rooms := Some [officeRoom; meetingRoom];
     circulation := Some [{| from := "r1"; to := "r2"; pwidth := 2 |}] |}.

Lemma twoRooms_ok : Layout_ok twoRooms.
Proof.
  intros rs H. injection H as <-.
  repeat constructor; reflexivity.
Qed.

Lemma twoRooms_moderate : Layout_moderate twoRooms.
Proof.
  split.
  - intros rs H. injection H as <-.
    repeat constructor; simpl; unfold Qle; simpl; lia.
  - intros paths H. injection H as <-.
    repeat constructor; simpl; unfold Qle; simpl; lia.
Qed.

End Samples.

(** ** performanceService.js: class PerformanceMetricsCalculator *)

Module PerformanceMetricsCalculator.

Import JS Samples.
Local Open Scope Q_scope.

Record Bounds : Type := mkBounds {
  minX : Q;
  maxX : Q;
  minY : Q;
  maxY : Q
}.

Record Orientation : Type := { facing : string }.

Record AccessibilitySettings : Type := {
  minCorridorWidth : option Q;
  minDoorWidth : option Q
}.

Record MetricsOptions : Type := {
  buildingOrientation : option Orientation;
  accessibility : option AccessibilitySettings
}.

Record Recommendation : Type := mkRecommendation {
  rec_type : string;
  rec_priority : string;
  rec_message : string;
  rec_impact : string
}.

Record PerformanceMetrics : Type := mkMetrics {
  circulationEfficiency : Q;
  daylightHours : Q;
  energyEfficiency : Q;
  spaceUtilization : Q;
  accessibilityScore : Q;
  overallScore : Q;
  recommendations : list Recommendation
}.

(** *** Helper methods *)

Definition boundsStep (bounds : Bounds) (room : Room) : Bounds :=
  {| minX := Math_min (minX bounds) (x room);
     maxX := Math_max (maxX bounds) (x room + width room);
     minY := Math_min (minY bounds) (y room);
     maxY := Math_max (maxY bounds) (y room + height room) |}.

Definition calculateBuildingBounds (rooms : option (list Room)) : Bounds :=
  match rooms with
  | None | Some [] => {| minX := 0; maxX := 0; minY := 0; maxY := 0 |}
  | Some ((r0 :: _) as rs) =>
      fold_left boundsStep rs
        {| minX := x r0; maxX := x r0 + width r0;
           minY := y r0; maxY := y r0 + height r0 |}
  end.

Definition horizontallyAdjacent (room1 room2 : Room) : bool :=
  (strict_eq (x room1 + width room1) (x room2)
   || strict_eq (x room2 + width room2) (x room1))
  && negb (leb (y room1 + height room1) (y room2)
           || leb (y room2 + height room2) (y room1)).

Definition verticallyAdjacent (room1 room2 : Room) : bool :=
  (strict_eq (y room1 + height room1) (y room2)
   || strict_eq (y room2 + height room2) (y room1))
  && negb (leb (x room1 + width room1) (x room2)
           || leb (x room2 + width room2) (x room1)).

(** The two counters of the double loop: (adjacentPairs, totalPossiblePairs). *)
Definition pairStep (room1 : Room) (acc : Z * Z) (room2 : Room) : Z * Z :=
  let '(adjacentPairs, totalPossiblePairs) := acc in
  (if horizontallyAdjacent room1 room2 || verticallyAdjacent room1 room2
   then (adjacentPairs + 1)%Z else adjacentPairs,
   (totalPossiblePairs + 1)%Z).

Fixpoint pairLoop (rooms : list Room) (acc : Z * Z) : Z * Z :=
  match rooms with
  | [] => acc
  | room1 :: rest => pairLoop rest (fold_left (pairStep room1) rest acc)
  end.

Definition calculateAdjacencyScore (rooms : list Room) : Q :=
  let '(adjacentPairs, totalPossiblePairs) := pairLoop rooms (0, 0)%Z in
  if (0 <? totalPossiblePairs)%Z
  then inject_Z adjacentPairs / inject_Z totalPossiblePairs
  else 0.

Definition totalArea (rooms : list Room) : Q :=
  fold_left (fun total room => total + area room) rooms 0.

Section Metrics.

(** [Math.sqrt] *)
Variable Math_sqrt : Q -> Q.

Definition calculateCirculationEfficiency (layoutData : LayoutData) : Q :=
  match rooms layoutData, circulation layoutData with
  | Some rooms, Some circulation =>
      if (List.length rooms =? 0)%nat then 0
      else
        let totalCirculationArea :=
          fold_left
            (fun total path =>
               match findRoom rooms (from path), findRoom rooms (to path) with
               | Some fromRoom, Some toRoom =>
                   let distance :=
                     Math_sqrt (Math_pow2 (x toRoom - x fromRoom)
                                + Math_pow2 (y toRoom - y fromRoom)) in
                   total + distance * pwidth path
               | _, _ => total
               end)
            circulation 0 in
        let totalUsableArea := totalArea rooms in
        let circulationRatio := totalCirculationArea / totalUsableArea in
        let efficiency :=
          Math_max 0 (Math_min 100 (100 - circulationRatio * 50)) in
        Math_round efficiency
  | _, _ => 0
  end.

Definition roomDaylightScore (bounds : Bounds) (room : Room) : Q :=
  let buildingWidth := maxX bounds - minX bounds in
  let buildingHeight := maxY bounds - minY bounds in
  let distanceFromNorth := y room - minY bounds in
  let distanceFromSouth := maxY bounds - (y room + height room) in
  let distanceFromEast := maxX bounds - (x room + width room) in
  let distanceFromWest := x room - minX bounds in
  let north := Math_max 0 (1 - distanceFromNorth / buildingHeight) in
  let south := Math_max 0 (1 - distanceFromSouth / buildingHeight) in
  let east := Math_max 0 (1 - distanceFromEast / buildingWidth) in
  let west := Math_max 0 (1 - distanceFromWest / buildingWidth) in
  0 + north * 0.3 + south * 1.0 + east * 0.7 + west * 0.7.

Definition calculateDaylightHours (layoutData : LayoutData)
    (buildingOrientation : option Orientation) : Q :=
  match rooms layoutData with
  | None | Some [] => 0
  | Some rs =>
      let bounds := calculateBuildingBounds (Some rs) in
      let totalDaylightScore :=
        fold_left
          (fun total room =>
             total + roomDaylightScore bounds room * (area room / 1000))
          rs 0 in
      let averageScore := totalDaylightScore / of_nat (List.length rs) in
      let daylightHours := Math_max 3 (Math_min 12 (averageScore * 8 + 4)) in
      Math_round (daylightHours * 10) / 10
  end.

Definition calculateEnergyEfficiency (layoutData : LayoutData) : Q :=
  match rooms layoutData with
  | None | Some [] => 0
  | Some rs =>
      let bounds := calculateBuildingBounds (Some rs) in
      let buildingArea :=
        (maxX bounds - minX bounds) * (maxY bounds - minY bounds) in
      let totalRoomArea := totalArea rs in
      let compactness := totalRoomArea / buildingArea in
      let perimeter :=
        2 * ((maxX bounds - minX bounds) + (maxY bounds - minY bounds)) in
      let perimeterToAreaRatio := perimeter / Math_sqrt buildingArea in
      let adjacencyScore := calculateAdjacencyScore rs in
      let compactnessScore := Math_min 100 (compactness * 100) in
      let perimeterScore := Math_max 0 (100 - perimeterToAreaRatio * 10) in
      let adjacencyEfficiency := adjacencyScore * 20 in
      let totalEfficiency :=
        compactnessScore * 0.4 + perimeterScore * 0.3
        + adjacencyEfficiency * 0.3 in
      Math_round totalEfficiency
  end.

Definition calculateSpaceUtilization (layoutData : LayoutData) : Q :=
  match rooms layoutData with
  | None | Some [] => 0
  | Some rs =>
      let bounds := calculateBuildingBounds (Some rs) in
      let totalBuildingArea :=
        (maxX bounds - minX bounds) * (maxY bounds - minY bounds) in
      let totalRoomArea := totalArea rs in
      let utilization := totalRoomArea / totalBuildingArea * 100 in
      Math_round (Math_min 100 utilization)
  end.

(** The counters of the two [forEach] loops: (accessibilityIssues, totalChecks). *)
Definition corridorCheck (minCorridorWidth : Q) (acc : Z * Z)
    (path : CirculationPath) : Z * Z :=
  let '(accessibilityIssues, totalChecks) := acc in
  (if ltb (pwidth path) minCorridorWidth
   then (accessibilityIssues + 1)%Z else accessibilityIssues,
   (totalChecks + 1)%Z).

Definition roomAccessCheck (minCorridorWidth : Q)
    (circulation : list CirculationPath) (acc : Z * Z) (room : Room) : Z * Z :=
  let '(accessibilityIssues, totalChecks) := acc in
  let hasAdequateAccess :=
    existsb
      (fun path =>
         (String.eqb (from path) (id room) || String.eqb (to path) (id room))
         && geb (pwidth path) minCorridorWidth)
      circulation in
  (if negb hasAdequateAccess
   then (accessibilityIssues + 1)%Z else accessibilityIssues,
   (totalChecks + 1)%Z).

Definition calculateAccessibilityScore (layoutData : LayoutData)
    (accessibilitySettings : option AccessibilitySettings) : Q :=
  let minCorridorWidth :=
    or_default
      (match accessibilitySettings with
       | Some s => minCorridorWidth s
       | None => None
       end) 4 in
  match rooms layoutData, circulation layoutData with
  | Some rooms, Some circulation =>
      let afterPaths :=
        fold_left (corridorCheck minCorridorWidth) circulation (0, 0)%Z in
      let '(accessibilityIssues, totalChecks) :=
        fold_left (roomAccessCheck minCorridorWidth circulation) rooms
          afterPaths in
      let score :=
        if (0 <? totalChecks)%Z
        then inject_Z (totalChecks - accessibilityIssues)
             / inject_Z totalChecks * 100
        else 100 in
      Math_round score
  | _, _ => 0
  end.

Definition circulationNote : Recommendation :=
  {| rec_type := "circulation"; rec_priority := "high";
     rec_message := "Consider reducing circulation paths or optimizing room adjacencies to improve efficiency.";
     rec_impact := "Reduces wasted space and improves flow" |}.

Definition daylightNote : Recommendation :=
  {| rec_type := "daylight"; rec_priority := "medium";
     rec_message := "Position more rooms near exterior walls to increase natural light exposure.";
     rec_impact := "Improves occupant wellbeing and reduces lighting costs" |}.

Definition energyNote : Recommendation :=
  {| rec_type := "energy"; rec_priority := "high";
     rec_message := "Optimize building shape for better energy performance. Consider more compact design.";
     rec_impact := "Reduces heating and cooling costs" |}.

Definition accessibilityNote : Recommendation :=
  {| rec_type := "accessibility"; rec_priority := "critical";
     rec_message := "Ensure all circulation paths meet minimum width requirements for accessibility.";
     rec_impact := "Required for code compliance and universal access" |}.

Definition pushIf {A : Type} (b : bool) (a : A) (l : list A) : list A :=
  if b then l ++ [a] else l.

(** The recommendations [generateRecommendations] collects from the metrics
    it has computed. *)
Definition recommendationsOf (metrics : PerformanceMetrics)
  : list Recommendation :=
  let recommendations := [] in
  let recommendations :=
    pushIf (ltb (circulationEfficiency metrics) 70) circulationNote
      recommendations in
  let recommendations :=
    pushIf (ltb (daylightHours metrics) 6) daylightNote recommendations in
  let recommendations :=
    pushIf (ltb (energyEfficiency metrics) 60) energyNote recommendations in
  pushIf (ltb (accessibilityScore metrics) 90) accessibilityNote
    recommendations.

(** [calculateAllMetrics] and [generateRecommendations] call each other.
    [stack] is the number of call frames the engine still has room for: a
    call made with none left throws RangeError, as the engine does when the
    call stack is exhausted.  The properties of the object literal are
    evaluated in source order, [recommendations] last. *)
Fixpoint calculateAllMetrics (stack : nat) (layoutData : LayoutData)
    (options : option MetricsOptions) : completion PerformanceMetrics :=
  match stack with
  | O => Throw RangeError
  | S stack' =>
      let opt_orientation :=
        match options with Some o => buildingOrientation o | None => None end in
      let opt_accessibility :=
        match options with Some o => accessibility o | None => None end in
      let circulationEfficiency := calculateCirculationEfficiency layoutData in
      let daylightHours := calculateDaylightHours layoutData opt_orientation in
      let energyEfficiency := calculateEnergyEfficiency layoutData in
      let spaceUtilization := calculateSpaceUtilization layoutData in
      let accessibilityScore :=
        calculateAccessibilityScore layoutData opt_accessibility in
      recommendations <- generateRecommendations stack' layoutData ;;
      Return {| circulationEfficiency := circulationEfficiency;
                daylightHours := daylightHours;
                energyEfficiency := energyEfficiency;
                spaceUtilization := spaceUtilization;
                accessibilityScore := accessibilityScore;
                overallScore := 0;
                recommendations := recommendations |}
  end
with generateRecommendations (stack : nat) (layoutData : LayoutData)
  : completion (list Recommendation) :=
  match stack with
  | O => Throw RangeError
  | S stack' =>
      metrics <- calculateAllMetrics stack' layoutData None ;;
      Return (recommendationsOf metrics)
  end.

(** The same two methods as a relation between a call and the value it
    returns, with no bound on the stack: a call returns only when the call
    it makes has returned. *)
Inductive returnsMetrics
  : LayoutData -> option MetricsOptions -> PerformanceMetrics -> Prop :=
| returns_metrics layoutData options recommendations :
    returnsRecommendations layoutData recommendations ->
    returnsMetrics layoutData options
      {| circulationEfficiency := calculateCirculationEfficiency layoutData;
         daylightHours :=
           calculateDaylightHours layoutData
             match options with
             | Some o => buildingOrientation o
             | None => None
             end;
         energyEfficiency := calculateEnergyEfficiency layoutData;
         spaceUtilization := calculateSpaceUtilization layoutData;
         accessibilityScore :=
           calculateAccessibilityScore layoutData
             match options with
             | Some o => accessibility o
             | None => None
             end;
         overallScore := 0;
         recommendations := recommendations |}
with returnsRecommendations
  : LayoutData -> list Recommendation -> Prop :=
| returns_recommendations layoutData metrics :
    returnsMetrics layoutData None metrics ->
    returnsRecommendations layoutData (recommendationsOf metrics).

Scheme returnsMetrics_mutual := Induction for returnsMetrics Sort Prop
  with returnsRecommendations_mutual
    := Induction for returnsRecommendations Sort Prop.

(** *** Properties *)

(** No call of either method has a value to return. *)
Lemma no_metrics_returned layoutData options metrics :
  ~ returnsMetrics layoutData options metrics.
Proof.
  intro H.
  induction H using returnsMetrics_mutual
    with (P0 := fun _ _ _ => False); assumption.
Qed.

(** A call that returns within the stack returns in the relation. *)
Lemma returns_within_stack (stack : nat) :
  (forall layoutData options metrics,
      calculateAllMetrics stack layoutData options = Return metrics ->
      returnsMetrics layoutData options metrics)
  /\ (forall layoutData recommendations,
         generateRecommendations stack layoutData = Return recommendations ->
         returnsRecommendations layoutData recommendations).
Proof.
  induction stack as [|stack [IHm IHr]]; [split; discriminate|].
  split.
  - intros layoutData options metrics. simpl.
    destruct (generateRecommendations stack layoutData) as [recs|e] eqn:Hr;
      [|discriminate].
    intros [= <-]. constructor. now apply IHr.
  - intros layoutData recommendations. simpl.
    destruct (calculateAllMetrics stack layoutData None) as [m|e] eqn:Hm;
      [|discriminate].
    intros [= <-]. constructor. now apply IHm.
Qed.

(** Neither method ever returns: whatever room the call stack has, the
    mutual recursion uses it up. *)
Lemma mutual_recursion_overflows (stack : nat) :
  (forall layoutData options,
      calculateAllMetrics stack layoutData options = Throw RangeError)
  /\ (forall layoutData,
         generateRecommendations stack layoutData = Throw RangeError).
Proof.
  induction stack as [stack IH] using lt_wf_ind.
  destruct stack as [|stack']; [now split|].
  assert (Hrec : forall l, generateRecommendations stack' l = Throw RangeError)
    by (intro l; apply (IH stack'); lia).
  assert (Hall : forall l o, calculateAllMetrics stack' l o = Throw RangeError)
    by (intros l o; apply (IH stack'); lia).
  split; intros; simpl.
  - now rewrite Hrec.
  - now rewrite Hall.
Qed.

(** C1 (evaluation of the code): for every layout, every options value and
    every call-stack capacity, [calculateAllMetrics] ends by throwing
    RangeError and returns no PerformanceMetrics record. *)
Theorem calculateAllMetrics_never_returns :
  forall (stack : nat) (layoutData : LayoutData)
         (options : option MetricsOptions),
    calculateAllMetrics stack layoutData options = Throw RangeError.
Proof.
  intros stack layoutData options.
  apply (proj1 (mutual_recursion_overflows stack)).
Qed.

(** **** Ranges of the scores *)

Lemma Math_round_range (lo hi : Z) (v : Q) :
  inject_Z lo <= v -> v <= inject_Z hi ->
  inject_Z lo <= Math_round v /\ Math_round v <= inject_Z hi.
Proof.
  intros Hlo Hhi. unfold Math_round. split.
  - rewrite <- Zle_Qle. rewrite <- (Qfloor_Z lo).
    apply Qfloor_resp_le. lra.
  - rewrite <- Zle_Qle. apply Z.lt_succ_r. rewrite Zlt_Qlt.
    apply Qle_lt_trans with (v + (1 # 2)); [apply Qfloor_le|].
    unfold Z.succ. rewrite inject_Z_plus. change (inject_Z 1) with 1. lra.
Qed.

Lemma Math_round_score (v : Q) :
  0 <= v -> v <= 100 -> 0 <= Math_round v /\ Math_round v <= 100.
Proof. exact (Math_round_range 0 100 v). Qed.

Lemma clamp_range (lo hi v : Q) :
  lo <= hi -> lo <= Math_max lo (Math_min hi v) /\ Math_max lo (Math_min hi v) <= hi.
Proof.
  intro H. unfold Math_max, Math_min. split.
  - apply Q.le_max_l.
  - apply Q.max_lub; [exact H | apply Q.le_min_l].
Qed.

Lemma round_clamp_range (lo hi : Z) (v : Q) :
  (lo <= hi)%Z ->
  inject_Z lo <= Math_round (Math_max (inject_Z lo) (Math_min (inject_Z hi) v))
  /\ Math_round (Math_max (inject_Z lo) (Math_min (inject_Z hi) v))
     <= inject_Z hi.
Proof.
  intro H. rewrite Zle_Qle in H.
  apply Math_round_range; now apply clamp_range.
Qed.

Lemma circulationEfficiency_range (layoutData : LayoutData) :
  0 <= calculateCirculationEfficiency layoutData
  /\ calculateCirculationEfficiency layoutData <= 100.
Proof.
  unfold calculateCirculationEfficiency.
  destruct (rooms layoutData) as [rs|]; [|lra].
  destruct (circulation layoutData) as [cs|]; [|lra].
  destruct (List.length rs =? 0)%nat; [lra|].
  apply round_clamp_range; lia.
Qed.

(** The bounding box only grows along the fold. *)
Lemma bounds_grow (rs : list Room) (b : Bounds) :
  minX (fold_left boundsStep rs b) <= minX b
  /\ maxX b <= maxX (fold_left boundsStep rs b)
  /\ minY (fold_left boundsStep rs b) <= minY b
  /\ maxY b <= maxY (fold_left boundsStep rs b).
Proof.
  revert b. induction rs as [|r rs IH]; intro b; simpl.
  - repeat split; lra.
  - destruct (IH (boundsStep b r)) as (H1 & H2 & H3 & H4).
    unfold boundsStep, Math_min, Math_max in *; simpl in *.
    pose proof (Q.le_min_l (minX b) (x r)).
    pose proof (Q.le_max_l (maxX b) (x r + width r)).
    pose proof (Q.le_min_l (minY b) (y r)).
    pose proof (Q.le_max_l (maxY b) (y r + height r)).
    repeat split; lra.
Qed.

Lemma building_extent_pos (r0 : Room) (rs : list Room) :
  Room_ok r0 ->
  let bounds := calculateBuildingBounds (Some (r0 :: rs)) in
  0 < maxX bounds - minX bounds /\ 0 < maxY bounds - minY bounds.
Proof.
  intros (_ & Hw & Hh). unfold calculateBuildingBounds.
  match goal with |- context [fold_left boundsStep ?l ?b] =>
    destruct (bounds_grow l b) as (H1 & H2 & H3 & H4) end.
  simpl in *. split; lra.
Qed.

Lemma fold_area_ge (rs : list Room) (acc : Q) :
  Forall Room_ok rs ->
  acc <= fold_left (fun total room => total + area room) rs acc.
Proof.
  intro H. revert acc. induction H as [|r rs (Ha & _) _ IH]; intro acc; simpl.
  - lra.
  - apply Qle_trans with (acc + area r); [lra | apply IH].
Qed.

Lemma totalArea_pos (r0 : Room) (rs : list Room) :
  Forall Room_ok (r0 :: rs) -> 0 < totalArea (r0 :: rs).
Proof.
  intro H. inversion H as [|? ? (Ha & _) Hrs]; subst.
  unfold totalArea; simpl.
  apply Qlt_le_trans with (0 + area r0); [lra | now apply fold_area_ge].
Qed.

Lemma pairStep_counts (room1 : Room) (rest : list Room) (acc : Z * Z) :
  (0 <= fst acc <= snd acc)%Z ->
  (0 <= fst (fold_left (pairStep room1) rest acc)
   <= snd (fold_left (pairStep room1) rest acc))%Z.
Proof.
  revert acc. induction rest as [|room2 rest IH]; intros [a t] H; simpl in *.
  - exact H.
  - apply IH. simpl.
    destruct (horizontallyAdjacent room1 room2 || verticallyAdjacent room1 room2);
      simpl; lia.
Qed.

Lemma pairLoop_counts (rooms : list Room) (acc : Z * Z) :
  (0 <= fst acc <= snd acc)%Z ->
  (0 <= fst (pairLoop rooms acc) <= snd (pairLoop rooms acc))%Z.
Proof.
  revert acc. induction rooms as [|room1 rest IH]; intros acc H; simpl.
  - exact H.
  - apply IH. now apply pairStep_counts.
Qed.

Lemma ratio_range (a t : Z) :
  (0 <= a <= t)%Z -> (0 < t)%Z ->
  0 <= inject_Z a / inject_Z t /\ inject_Z a / inject_Z t <= 1.
Proof.
  intros [H0 H1] Ht.
  assert (Hq : 0 < inject_Z t) by (change 0 with (inject_Z 0); now rewrite <- Zlt_Qlt).
  assert (Ha : 0 <= inject_Z a) by (change 0 with (inject_Z 0); now rewrite <- Zle_Qle).
  assert (Hat : inject_Z a <= inject_Z t) by now rewrite <- Zle_Qle.
  split.
  - apply Qle_shift_div_l; [exact Hq | lra].
  - apply Qle_shift_div_r; [exact Hq | lra].
Qed.

Lemma adjacencyScore_range (rooms : list Room) :
  0 <= calculateAdjacencyScore rooms /\ calculateAdjacencyScore rooms <= 1.
Proof.
  unfold calculateAdjacencyScore.
  pose proof (pairLoop_counts rooms (0, 0)%Z ltac:(simpl; lia)) as H.
  destruct (pairLoop rooms (0, 0)%Z) as [a t]; simpl in H.
  destruct (Z.ltb_spec 0 t) as [Ht|Ht]; [now apply ratio_range | lra].
Qed.

Lemma spaceUtilization_range (layoutData : LayoutData) :
  Layout_ok layoutData ->
  0 <= calculateSpaceUtilization layoutData
  /\ calculateSpaceUtilization layoutData <= 100.
Proof.
  intro Hok. unfold calculateSpaceUtilization.
  destruct (rooms layoutData) as [[|r0 rs]|] eqn:Hrooms; try lra.
  pose proof (Hok _ Hrooms) as Hrs.
  pose proof (totalArea_pos _ _ Hrs) as Harea.
  destruct (building_extent_pos r0 rs (Forall_inv Hrs)) as [Hw Hh].
  cbv zeta in Hw, Hh.
  set (bounds := calculateBuildingBounds (Some (r0 :: rs))) in *.
  assert (Hb : 0 < (maxX bounds - minX bounds) * (maxY bounds - minY bounds))
    by now apply Qmult_lt_0_compat.
  apply Math_round_score.
  - apply Q.min_glb; [lra|].
    apply Qmult_le_0_compat; [|lra].
    apply Qle_shift_div_l; [exact Hb | lra].
  - apply Q.le_min_l.
Qed.

(** All that the ranges need of [Math.sqrt]. *)
Hypothesis Math_sqrt_pos : forall v : Q, 0 < v -> 0 < Math_sqrt v.

Lemma energyEfficiency_range (layoutData : LayoutData) :
  Layout_ok layoutData ->
  0 <= calculateEnergyEfficiency layoutData
  /\ calculateEnergyEfficiency layoutData <= 100.
Proof.
  intro Hok. unfold calculateEnergyEfficiency.
  destruct (rooms layoutData) as [[|r0 rs]|] eqn:Hrooms; try lra.
  pose proof (Hok _ Hrooms) as Hrs.
  pose proof (totalArea_pos _ _ Hrs) as Harea.
  destruct (building_extent_pos r0 rs (Forall_inv Hrs)) as [Hw Hh].
  cbv zeta in Hw, Hh.
  destruct (adjacencyScore_range (r0 :: rs)) as [Hadj0 Hadj1].
  set (bounds := calculateBuildingBounds (Some (r0 :: rs))) in *.
  assert (Hb : 0 < (maxX bounds - minX bounds) * (maxY bounds - minY bounds))
    by now apply Qmult_lt_0_compat.
  set (buildingArea := (maxX bounds - minX bounds) * (maxY bounds - minY bounds)) in *.
  assert (Hcompact : 0 <= totalArea (r0 :: rs) / buildingArea)
    by (apply Qle_shift_div_l; [exact Hb | lra]).
  set (compactnessScore := Math_min 100 (totalArea (r0 :: rs) / buildingArea * 100)).
  assert (Hc : 0 <= compactnessScore /\ compactnessScore <= 100).
  { unfold compactnessScore, Math_min. split.
    - apply Q.min_glb; [lra|]. apply Qmult_le_0_compat; lra.
    - apply Q.le_min_l. }
  set (ratio := 2 * (maxX bounds - minX bounds + (maxY bounds - minY bounds))
                / Math_sqrt buildingArea).
  assert (Hratio : 0 <= ratio).
  { unfold ratio. apply Qle_shift_div_l; [now apply Math_sqrt_pos | lra]. }
  set (perimeterScore := Math_max 0 (100 - ratio * 10)).
  assert (Hp : 0 <= perimeterScore /\ perimeterScore <= 100).
  { unfold perimeterScore, Math_max. split.
    - apply Q.le_max_l.
    - apply Q.max_lub; lra. }
  apply Math_round_score; lra.
Qed.

Lemma daylightHours_range (r0 : Room) (rs : list Room)
    (layoutData : LayoutData) (orientation : option Orientation) :
  rooms layoutData = Some (r0 :: rs) ->
  3 <= calculateDaylightHours layoutData orientation
  /\ calculateDaylightHours layoutData orientation <= 12.
Proof.
  intro Hrooms. unfold calculateDaylightHours. rewrite Hrooms.
  match goal with |- context [Math_round (?d * 10)] =>
    assert (Hd : 3 <= d /\ d <= 12) by (apply clamp_range; lra);
    destruct (Math_round_range 30 120 (d * 10)) as [Hlo Hhi];
    [change (inject_Z 30) with 30; lra
    |change (inject_Z 120) with 120; lra
    |set (hours := Math_round (d * 10)) in *]
  end.
  change (inject_Z 30) with 30 in Hlo. change (inject_Z 120) with 120 in Hhi.
  split.
  - apply Qle_shift_div_l; lra.
  - apply Qle_shift_div_r; lra.
Qed.

Lemma corridorCheck_counts (w : Q) (paths : list CirculationPath) (acc : Z * Z) :
  (0 <= fst acc <= snd acc)%Z ->
  (0 <= fst (fold_left (corridorCheck w) paths acc)
   <= snd (fold_left (corridorCheck w) paths acc))%Z.
Proof.
  revert acc. induction paths as [|p paths IH]; intros [i t] H; simpl in *.
  - exact H.
  - apply IH. simpl. destruct (ltb (pwidth p) w); simpl; lia.
Qed.

Lemma roomAccessCheck_counts (w : Q) (paths : list CirculationPath)
    (rooms : list Room) (acc : Z * Z) :
  (0 <= fst acc <= snd acc)%Z ->
  (0 <= fst (fold_left (roomAccessCheck w paths) rooms acc)
   <= snd (fold_left (roomAccessCheck w paths) rooms acc))%Z.
Proof.
  revert acc. induction rooms as [|r rooms IH]; intros [i t] H; simpl in *.
  - exact H.
  - apply IH. simpl.
    match goal with |- context [if ?b then _ else _] => destruct b end;
      simpl; lia.
Qed.

Lemma accessibilityScore_range (layoutData : LayoutData)
    (settings : option AccessibilitySettings) :
  0 <= calculateAccessibilityScore layoutData settings
  /\ calculateAccessibilityScore layoutData settings <= 100.
Proof.
  unfold calculateAccessibilityScore.
  destruct (rooms layoutData) as [rs|]; [|lra].
  destruct (circulation layoutData) as [cs|]; [|lra].
  match goal with |- context [fold_left (roomAccessCheck ?w cs) rs ?acc] =>
    pose proof (roomAccessCheck_counts w cs rs acc
                  (corridorCheck_counts w cs (0, 0)%Z ltac:(simpl; lia))) as H;
    destruct (fold_left (roomAccessCheck w cs) rs acc) as [i t]
  end.
  simpl in H.
  apply Math_round_score;
    destruct (Z.ltb_spec 0 t) as [Ht|Ht]; try lra;
    destruct (ratio_range (t - i) t ltac:(lia) Ht) as [H0 H1]; lra.
Qed.

(** C4 (as amended): for a layout of moderate magnitudes (sizes between
    10^-6 and 10^9, positions and path widths within 10^9 of zero, so that
    the rooms satisfy the invariants of the data model and the binary64
    quotients of the metrics are not 0/0), circulationEfficiency,
    energyEfficiency, spaceUtilization and accessibilityScore lie in
    [0, 100]; daylightHours lies in [3, 12] when there is at least one
    room, and is 0 when [rooms] is empty or absent. *)
Theorem metrics_ranges :
  forall (layoutData : LayoutData) (orientation : option Orientation)
         (settings : option AccessibilitySettings),
    Layout_moderate layoutData ->
    (0 <= calculateCirculationEfficiency layoutData
     /\ calculateCirculationEfficiency layoutData <= 100)
    /\ (0 <= calculateEnergyEfficiency layoutData
        /\ calculateEnergyEfficiency layoutData <= 100)
    /\ (0 <= calculateSpaceUtilization layoutData
        /\ calculateSpaceUtilization layoutData <= 100)
    /\ (0 <= calculateAccessibilityScore layoutData settings
        /\ calculateAccessibilityScore layoutData settings <= 100)
    /\ match rooms layoutData with
       | Some (_ :: _) =>
           3 <= calculateDaylightHours layoutData orientation
           /\ calculateDaylightHours layoutData orientation <= 12
       | _ => calculateDaylightHours layoutData orientation = 0
       end.
Proof.
  intros layoutData orientation settings Hmoderate.
  pose proof (Layout_moderate_ok _ Hmoderate) as Hok.
  split; [apply circulationEfficiency_range|].
  split; [now apply energyEfficiency_range|].
  split; [now apply spaceUtilization_range|].
  split; [apply accessibilityScore_range|].
  destruct (rooms layoutData) as [[|r0 rs]|] eqn:Hrooms.
  - unfold calculateDaylightHours. now rewrite Hrooms.
  - now apply (daylightHours_range r0 rs).
  - unfold calculateDaylightHours. now rewrite Hrooms.
Qed.

(** *** Further properties of the metrics *)

(** **** The bounding box *)

Lemma fold_bounds_enclose (rs : list Room) (b : Bounds) (room : Room) :
  In room rs ->
  minX (fold_left boundsStep rs b) <= x room
  /\ x room + width room <= maxX (fold_left boundsStep rs b)
  /\ minY (fold_left boundsStep rs b) <= y room
  /\ y room + height room <= maxY (fold_left boundsStep rs b).
Proof.
  revert b. induction rs as [|r rs IH]; intros b Hin; [contradiction|].
  destruct Hin as [->|Hin]; [|now apply IH].
  simpl. destruct (bounds_grow rs (boundsStep b room)) as (H1 & H2 & H3 & H4).
  unfold boundsStep, Math_min, Math_max in *; simpl in *.
  pose proof (Q.le_min_r (minX b) (x room)).
  pose proof (Q.le_max_r (maxX b) (x room + width room)).
  pose proof (Q.le_min_r (minY b) (y room)).
  pose proof (Q.le_max_r (maxY b) (y room + height room)).
  repeat split; lra.
Qed.

Lemma fold_bounds_within (rs : list Room) (b box : Bounds) :
  (minX box <= minX b /\ maxX b <= maxX box
   /\ minY box <= minY b /\ maxY b <= maxY box) ->
  (forall room, In room rs ->
     minX box <= x room /\ x room + width room <= maxX box
     /\ minY box <= y room /\ y room + height room <= maxY box) ->
  minX box <= minX (fold_left boundsStep rs b)
  /\ maxX (fold_left boundsStep rs b) <= maxX box
  /\ minY box <= minY (fold_left boundsStep rs b)
  /\ maxY (fold_left boundsStep rs b) <= maxY box.
Proof.
  revert b. induction rs as [|r rs IH]; intros b Hb Hrs; [exact Hb|].
  simpl. apply IH; [|intros room Hin; apply Hrs; now right].
  destruct Hb as (B1 & B2 & B3 & B4).
  destruct (Hrs r (or_introl eq_refl)) as (R1 & R2 & R3 & R4).
  unfold boundsStep, Math_min, Math_max; simpl.
  repeat split;
    first [now apply Q.min_glb | now apply Q.max_lub].
Qed.

(** X1: the box that [calculateBuildingBounds] returns for a layout with
    at least one room encloses every room, and it is the smallest such
    box: any box that encloses every room encloses it. *)
Theorem calculateBuildingBounds_smallest_enclosing :
  forall rs : list Room,
    rs <> [] ->
    let bounds := calculateBuildingBounds (Some rs) in
    (forall room, In room rs ->
       minX bounds <= x room /\ x room + width room <= maxX bounds
       /\ minY bounds <= y room /\ y room + height room <= maxY bounds)
    /\ (forall box : Bounds,
          (forall room, In room rs ->
             minX box <= x room /\ x room + width room <= maxX box
             /\ minY box <= y room /\ y room + height room <= maxY box) ->
          minX box <= minX bounds /\ maxX bounds <= maxX box
          /\ minY box <= minY bounds /\ maxY bounds <= maxY box).
Proof.
  intros [|r0 rs] Hne; [contradiction|]. cbv zeta.
  unfold calculateBuildingBounds. split.
  - intros room Hin. now apply fold_bounds_enclose.
  - intros box Hbox. apply fold_bounds_within; [|exact Hbox].
    simpl. destruct (Hbox r0 (or_introl eq_refl)) as (R1 & R2 & R3 & R4).
    repeat split; assumption.
Qed.

(** **** The adjacency score *)

Definition adjacent (room1 room2 : Room) : bool :=
  horizontallyAdjacent room1 room2 || verticallyAdjacent room1 room2.

Lemma adjacent_sym (a b : Room) : adjacent a b = adjacent b a.
Proof.
  unfold adjacent, horizontallyAdjacent, verticallyAdjacent.
  f_equal; f_equal; try apply orb_comm; f_equal; apply orb_comm.
Qed.

(** The rooms of [rest] adjacent to [room1], counted. *)
Fixpoint adjacentIn (room1 : Room) (rest : list Room) : Z :=
  match rest with
  | [] => 0
  | room2 :: rest' =>
      ((if adjacent room1 room2 then 1 else 0) + adjacentIn room1 rest')%Z
  end.

Fixpoint adjacentPairsOf (rooms : list Room) : Z :=
  match rooms with
  | [] => 0
  | room1 :: rest => (adjacentIn room1 rest + adjacentPairsOf rest)%Z
  end.

Fixpoint pairsOf (rooms : list Room) : Z :=
  match rooms with
  | [] => 0
  | _ :: rest => (Z.of_nat (List.length rest) + pairsOf rest)%Z
  end.

Lemma pairStep_fold (room1 : Room) (rest : list Room) (a t : Z) :
  fold_left (pairStep room1) rest (a, t)
  = ((a + adjacentIn room1 rest)%Z, (t + Z.of_nat (List.length rest))%Z).
Proof.
  revert a t. induction rest as [|room2 rest IH]; intros a t.
  - simpl. f_equal; lia.
  - cbn [fold_left pairStep adjacentIn List.length]. fold (adjacent room1 room2).
    rewrite IH. destruct (adjacent room1 room2); f_equal; lia.
Qed.

Lemma pairLoop_counts_pairs (rooms : list Room) (a t : Z) :
  pairLoop rooms (a, t)
  = ((a + adjacentPairsOf rooms)%Z, (t + pairsOf rooms)%Z).
Proof.
  revert a t. induction rooms as [|room1 rest IH]; intros a t.
  - simpl. f_equal; lia.
  - cbn [pairLoop adjacentPairsOf pairsOf]. rewrite pairStep_fold, IH.
    f_equal; lia.
Qed.

Lemma adjacentIn_permutation (room1 : Room) (l l' : list Room) :
  Permutation l l' -> adjacentIn room1 l = adjacentIn room1 l'.
Proof.
  induction 1; simpl; lia.
Qed.

Lemma adjacentPairsOf_permutation (l l' : list Room) :
  Permutation l l' -> adjacentPairsOf l = adjacentPairsOf l'.
Proof.
  induction 1 as [|r l l' Hp IH|a b l|l l' l'' _ IH1 _ IH2]; simpl.
  - reflexivity.
  - rewrite IH, (adjacentIn_permutation r l l' Hp). reflexivity.
  - rewrite (adjacent_sym b a). lia.
  - lia.
Qed.

Lemma pairsOf_permutation (l l' : list Room) :
  Permutation l l' -> pairsOf l = pairsOf l'.
Proof.
  induction 1 as [|r l l' Hp IH|a b l|l l' l'' _ IH1 _ IH2]; simpl.
  - reflexivity.
  - rewrite IH, (Permutation_length Hp). reflexivity.
  - lia.
  - lia.
Qed.

(** X2: the adjacency score does not depend on the order in which the
    rooms are listed. *)
Theorem calculateAdjacencyScore_order :
  forall rooms rooms' : list Room,
    Permutation rooms rooms' ->
    calculateAdjacencyScore rooms = calculateAdjacencyScore rooms'.
Proof.
  intros rooms rooms' Hp. unfold calculateAdjacencyScore.
  rewrite !pairLoop_counts_pairs.
  now rewrite (adjacentPairsOf_permutation _ _ Hp), (pairsOf_permutation _ _ Hp).
Qed.

(** **** Circulation efficiency and the paths *)

Lemma Math_round_le (a b : Q) : a <= b -> Math_round a <= Math_round b.
Proof.
  intro H. unfold Math_round. rewrite <- Zle_Qle.
  apply Qfloor_resp_le. lra.
Qed.

Lemma Math_round_eq (a : Q) (z : Z) : a == inject_Z z -> Math_round a = inject_Z z.
Proof.
  intro H. unfold Math_round. f_equal.
  rewrite (Qfloor_comp _ (inject_Z (z + 0) + (1 # 2))).
  - rewrite (Qfloor_comp _ (inject_Z z + (1#2))) by (rewrite Z.add_0_r; reflexivity).
    apply Z.le_antisymm.
    + apply Z.lt_succ_r. rewrite Zlt_Qlt.
      apply Qle_lt_trans with (inject_Z z + (1 # 2)); [apply Qfloor_le|].
      unfold Z.succ. rewrite inject_Z_plus. change (inject_Z 1) with 1. lra.
    + rewrite <- (Qfloor_Z z) at 1. apply Qfloor_resp_le. lra.
  - rewrite H, Z.add_0_r. reflexivity.
Qed.

Lemma square_nonneg (q : Q) : 0 <= q * q.
Proof.
  destruct (Qlt_le_dec q 0) as [H|H].
  - setoid_replace (q * q) with ((- q) * (- q)) by ring.
    apply Qmult_le_0_compat; lra.
  - now apply Qmult_le_0_compat.
Qed.

(** The area one path adds to the circulation. *)
Definition pathArea (rs : list Room) (path : CirculationPath) : Q :=
  match findRoom rs (from path), findRoom rs (to path) with
  | Some fromRoom, Some toRoom =>
      Math_sqrt (Math_pow2 (x toRoom - x fromRoom)
                 + Math_pow2 (y toRoom - y fromRoom))
      * pwidth path
  | _, _ => 0
  end.

Definition circulationArea (rs : list Room) (paths : list CirculationPath)
    (total : Q) : Q :=
  fold_left
    (fun total path =>
       match findRoom rs (from path), findRoom rs (to path) with
       | Some fromRoom, Some toRoom =>
           let distance :=
             Math_sqrt (Math_pow2 (x toRoom - x fromRoom)
                        + Math_pow2 (y toRoom - y fromRoom)) in
           total + distance * pwidth path
       | _, _ => total
       end)
    paths total.

Lemma circulationArea_step rs path paths total :
  circulationArea rs (path :: paths) total
  = circulationArea rs paths
      (match findRoom rs (from path), findRoom rs (to path) with
       | Some fromRoom, Some toRoom =>
           total
           + Math_sqrt (Math_pow2 (x toRoom - x fromRoom)
                        + Math_pow2 (y toRoom - y fromRoom))
             * pwidth path
       | _, _ => total
       end).
Proof. reflexivity. Qed.

Lemma circulationArea_le rs paths (total total' : Q) :
  total <= total' ->
  circulationArea rs paths total <= circulationArea rs paths total'.
Proof.
  revert total total'. induction paths as [|p paths IH]; intros t t' H.
  - exact H.
  - rewrite !circulationArea_step. apply IH.
    destruct (findRoom rs (from p)), (findRoom rs (to p)); lra.
Qed.

Hypothesis Math_sqrt_nonneg : forall v : Q, 0 <= v -> 0 <= Math_sqrt v.

Lemma efficiency_le (c c' area : Q) :
  0 < area -> c' <= c ->
  Math_round (Math_max 0 (Math_min 100 (100 - c / area * 50)))
  <= Math_round (Math_max 0 (Math_min 100 (100 - c' / area * 50))).
Proof.
  intros Ha Hc. apply Math_round_le.
  unfold Math_max, Math_min.
  apply Q.max_le_compat_l, Q.min_le_compat_l.
  assert (c' / area <= c / area).
  { unfold Qdiv. apply Qmult_le_compat_r; [exact Hc|].
    apply Qlt_le_weak, Qinv_lt_0_compat, Ha. }
  lra.
Qed.

(** X3: on a layout whose rooms satisfy the invariants of the data model,
    a circulation path of non-negative width never raises the circulation
    efficiency, wherever it stands in the list; and with no path at all
    the efficiency is 100. *)
Theorem circulation_lowers_efficiency :
  forall (rs : list Room) (before after : list CirculationPath)
         (path : CirculationPath),
    Forall Room_ok rs ->
    0 <= pwidth path ->
    calculateCirculationEfficiency
      {| rooms := Some rs; circulation := Some (before ++ path :: after) |}
    <= calculateCirculationEfficiency
         {| rooms := Some rs; circulation := Some (before ++ after) |}
    /\ (rs <> [] ->
        calculateCirculationEfficiency
          {| rooms := Some rs; circulation := Some [] |} = 100).
Proof.
  intros rs before after path Hok Hw.
  unfold calculateCirculationEfficiency.
  cbn [rooms circulation].
  destruct rs as [|r0 rs];
    [split; [apply Qle_refl | intro H; now elim H]|].
  cbn [List.length Nat.eqb].
  pose proof (totalArea_pos _ _ Hok) as Harea.
  split.
  - apply efficiency_le; [exact Harea|].
    fold (circulationArea (r0 :: rs) (before ++ path :: after) 0).
    fold (circulationArea (r0 :: rs) (before ++ after) 0).
    unfold circulationArea. rewrite !fold_left_app.
    fold (circulationArea (r0 :: rs) before 0).
    set (t := circulationArea (r0 :: rs) before 0).
    change (circulationArea (r0 :: rs) after t
            <= circulationArea (r0 :: rs) (path :: after) t).
    rewrite circulationArea_step. apply circulationArea_le.
    destruct (findRoom (r0 :: rs) (from path)) as [fromRoom|]; [|lra].
    destruct (findRoom (r0 :: rs) (to path)) as [toRoom|]; [|lra].
    assert (0 <= Math_sqrt (Math_pow2 (x toRoom - x fromRoom)
                            + Math_pow2 (y toRoom - y fromRoom))).
    { apply Math_sqrt_nonneg. unfold Math_pow2.
      pose proof (square_nonneg (x toRoom - x fromRoom)).
      pose proof (square_nonneg (y toRoom - y fromRoom)). lra. }
    assert (0 <= Math_sqrt (Math_pow2 (x toRoom - x fromRoom)
                            + Math_pow2 (y toRoom - y fromRoom))
                 * pwidth path) by now apply Qmult_le_0_compat.
    lra.
  - intros _. cbn [fold_left].
    apply (Math_round_eq _ 100).
    unfold Math_max, Math_min.
    assert (H : 100 - 0 / totalArea (r0 :: rs) * 50 == 100).
    { unfold Qdiv. rewrite Qmult_0_l. ring. }
    rewrite H. reflexivity.
Qed.

(** **** The extremes of the accessibility score *)

Lemma corridorCheck_pass (w : Q) (paths : list CirculationPath) (i t : Z) :
  Forall (fun path => w <= pwidth path) paths ->
  fold_left (corridorCheck w) paths (i, t)
  = (i, (t + Z.of_nat (List.length paths))%Z).
Proof.
  intro H. revert t. induction H as [|p paths Hp _ IH]; intro t.
  - simpl. f_equal. lia.
  - cbn [fold_left corridorCheck List.length].
    assert (Hlt : ltb (pwidth p) w = false).
    { unfold ltb. apply negb_false_iff, Qle_bool_iff, Hp. }
    rewrite Hlt, IH. f_equal. lia.
Qed.

(** A room is served when a path of the required width starts or ends at
    it. *)
Definition served (w : Q) (paths : list CirculationPath) (room : Room) : Prop :=
  Exists
    (fun path =>
       (from path = id room \/ to path = id room) /\ w <= pwidth path)
    paths.

Lemma served_access (w : Q) (paths : list CirculationPath) (room : Room) :
  served w paths room ->
  existsb
    (fun path =>
       (String.eqb (from path) (id room) || String.eqb (to path) (id room))
       && geb (pwidth path) w)
    paths = true.
Proof.
  intro H. apply existsb_exists. apply Exists_exists in H.
  destruct H as (p & Hin & Hend & Hw). exists p. split; [exact Hin|].
  apply andb_true_iff. split.
  - apply orb_true_iff.
    destruct Hend as [H|H]; [left | right]; now apply String.eqb_eq.
  - now apply Qle_bool_iff.
Qed.

Lemma roomAccessCheck_pass (w : Q) (paths : list CirculationPath)
    (rs : list Room) (i t : Z) :
  Forall (served w paths) rs ->
  fold_left (roomAccessCheck w paths) rs (i, t)
  = (i, (t + Z.of_nat (List.length rs))%Z).
Proof.
  intro H. revert t. induction H as [|r rs Hr _ IH]; intro t.
  - simpl. f_equal. lia.
  - cbn [fold_left roomAccessCheck List.length].
    rewrite (served_access _ _ _ Hr). cbn [negb]. rewrite IH. f_equal. lia.
Qed.

Lemma roomAccessCheck_fail (w : Q) (rs : list Room) (i t : Z) :
  fold_left (roomAccessCheck w []) rs (i, t)
  = ((i + Z.of_nat (List.length rs))%Z, (t + Z.of_nat (List.length rs))%Z).
Proof.
  revert i t. induction rs as [|r rs IH]; intros i t.
  - simpl. f_equal; lia.
  - cbn [fold_left roomAccessCheck List.length existsb negb].
    rewrite IH. f_equal; lia.
Qed.

(** X4: the accessibility score is 100 when every path has the required
    width (the [minCorridorWidth] of the settings, 4 when it is missing or
    0) and every room is served by such a path; it is 0 for a layout that
    has rooms and no path. *)
Theorem accessibilityScore_extremes :
  forall (rs : list Room) (paths : list CirculationPath)
         (settings : option AccessibilitySettings),
    let required :=
      or_default
        (match settings with Some s => minCorridorWidth s | None => None end)
        4 in
    (Forall (fun path => required <= pwidth path) paths ->
     Forall (served required paths) rs ->
     calculateAccessibilityScore
       {| rooms := Some rs; circulation := Some paths |} settings = 100)
    /\ (rs <> [] ->
        calculateAccessibilityScore
          {| rooms := Some rs; circulation := Some [] |} settings = 0).
Proof.
  intros rs paths settings required. unfold calculateAccessibilityScore.
  fold required. cbn [rooms circulation]. split.
  - intros Hpaths Hrooms.
    rewrite (corridorCheck_pass _ _ _ _ Hpaths).
    rewrite (roomAccessCheck_pass _ _ _ _ _ Hrooms).
    set (t := (0 + Z.of_nat (List.length paths) + Z.of_nat (List.length rs))%Z).
    destruct (Z.ltb_spec 0 t) as [Ht|Ht].
    + apply (Math_round_eq _ 100). rewrite Z.sub_0_r.
      assert (Hq : ~ inject_Z t == 0).
      { intro H. unfold Qeq in H. simpl in H. lia. }
      field. exact Hq.
    + now apply (Math_round_eq _ 100).
  - intro Hne. cbn [fold_left]. rewrite roomAccessCheck_fail.
    destruct rs as [|r rs]; [now elim Hne|].
    set (n := Z.of_nat (List.length (r :: rs))).
    assert (Hn : (0 < n)%Z) by (unfold n; simpl; lia).
    replace (0 <? 0 + n)%Z with true by (symmetry; apply Z.ltb_lt; lia).
    apply (Math_round_eq _ 0).
    replace (0 + n - (0 + n))%Z with 0%Z by lia.
    unfold Qdiv. change (inject_Z 0) with 0. ring.
Qed.

(** **** Daylight hours *)

Lemma roomDaylightScore_nonneg (bounds : Bounds) (room : Room) :
  0 <= roomDaylightScore bounds room.
Proof.
  unfold roomDaylightScore, Math_max. cbv zeta.
  repeat match goal with
         | |- context [Qmax 0 ?v] =>
             let H := fresh "H" in
             pose proof (Q.le_max_l 0 v) as H;
             let m := fresh "m" in set (m := Qmax 0 v) in *
         end.
  lra.
Qed.

Lemma daylight_total_nonneg (bounds : Bounds) (rs : list Room) (total : Q) :
  Forall Room_ok rs ->
  0 <= total ->
  0 <= fold_left
         (fun total room =>
            total + roomDaylightScore bounds room * (area room / 1000))
         rs total.
Proof.
  intro H. revert total. induction H as [|r rs (Ha & _) _ IH]; intros total Ht.
  - exact Ht.
  - simpl. apply IH.
    pose proof (roomDaylightScore_nonneg bounds r) as Hs.
    assert (0 <= roomDaylightScore bounds r * (area r / 1000)).
    { apply Qmult_le_0_compat; [exact Hs|].
      apply Qle_shift_div_l; lra. }
    lra.
Qed.

(** X5: on a layout of moderate magnitudes with at least one room, the
    daylight hours are never below 4: every proximity score is at least 0
    and 4 is added to their weighted average, so the floor of 3 in the code
    is not reached. *)
Theorem daylightHours_at_least_four :
  forall (layoutData : LayoutData) (orientation : option Orientation)
         (r0 : Room) (rs : list Room),
    Layout_moderate layoutData ->
    rooms layoutData = Some (r0 :: rs) ->
    4 <= calculateDaylightHours layoutData orientation
    /\ calculateDaylightHours layoutData orientation <= 12.
Proof.
  intros layoutData orientation r0 rs Hmoderate Hrooms.
  pose proof (Layout_moderate_ok _ Hmoderate) as Hok.
  split; [|now apply (daylightHours_range r0 rs)].
  unfold calculateDaylightHours. rewrite Hrooms.
  pose proof (daylight_total_nonneg
                (calculateBuildingBounds (Some (r0 :: rs))) (r0 :: rs) 0
                (Hok _ Hrooms) (Qle_refl 0)) as Htotal.
  set (total := fold_left _ (r0 :: rs) 0) in *.
  assert (Hn : 0 < of_nat (List.length (r0 :: rs))).
  { unfold of_nat. change 0 with (inject_Z 0). rewrite <- Zlt_Qlt.
    simpl. lia. }
  assert (Havg : 0 <= total / of_nat (List.length (r0 :: rs)))
    by (apply Qle_shift_div_l; [exact Hn | lra]).
  set (average := total / of_nat (List.length (r0 :: rs))) in *.
  assert (Hd : 4 <= Math_max 3 (Math_min 12 (average * 8 + 4))).
  { unfold Math_max, Math_min.
    apply Qle_trans with (Qmin 12 (average * 8 + 4)); [|apply Q.le_max_r].
    apply Q.min_glb; lra. }
  set (hours := Math_max 3 (Math_min 12 (average * 8 + 4))) in *.
  assert (Hr : 40 <= Math_round (hours * 10)).
  { change 40 with (inject_Z 40). rewrite <- (Qfloor_Z 40).
    unfold Math_round. rewrite <- Zle_Qle. apply Qfloor_resp_le.
    change (inject_Z 40) with 40. lra. }
  apply Qle_shift_div_l; lra.
Qed.

(** **** Energy efficiency *)

(** A square root whose square exceeds the argument by one percent at
    most: the exact root, a root cut after some digits and the root
    rounded to the nearest floating-point number are such. *)
Hypothesis Math_sqrt_close :
  forall v : Q, 0 <= v -> Math_sqrt v * Math_sqrt v <= v * (101 # 100).

Lemma root_le_half_sum (W H s : Q) :
  0 < W -> 0 < H -> 0 < s -> s * s <= W * H * (101 # 100) ->
  (398 # 100) * s <= 2 * (W + H).
Proof.
  intros HW HH Hs Hss.
  destruct (Qlt_le_dec (2 * (W + H)) ((398 # 100) * s)) as [Hlt|];
    [|assumption].
  exfalso.
  pose proof (square_nonneg (W - H)) as Hsq.
  assert (H1 : (2 * (W + H)) * (2 * (W + H))
               < ((398 # 100) * s) * ((398 # 100) * s)).
  { apply Qle_lt_trans with ((2 * (W + H)) * ((398 # 100) * s)).
    - apply Qmult_le_l; lra.
    - apply Qmult_lt_r; lra. }
  assert (H2 : (2 * (W + H)) * (2 * (W + H))
               == 4 * ((W - H) * (W - H)) + 16 * (W * H)) by ring.
  assert (H3 : ((398 # 100) * s) * ((398 # 100) * s)
               == (158404 # 10000) * (s * s)) by ring.
  rewrite H2, H3 in H1.
  assert (H4 : W * H * (101 # 100) == (101 # 100) * (W * H)) by ring.
  rewrite H4 in Hss.
  pose proof (Qmult_lt_0_compat _ _ HW HH).
  lra.
Qed.

Lemma Math_round_below (z : Z) (v : Q) :
  v < inject_Z z + (1 # 2) -> Math_round v <= inject_Z z.
Proof.
  intro H. unfold Math_round. rewrite <- Zle_Qle.
  apply Z.lt_succ_r. rewrite Zlt_Qlt.
  apply Qle_lt_trans with (v + (1 # 2)); [apply Qfloor_le|].
  unfold Z.succ. rewrite inject_Z_plus. change (inject_Z 1) with 1. lra.
Qed.

(** X6: on a layout of moderate magnitudes the energy efficiency never
    exceeds 64.  The perimeter of the bounding box is at least four times
    the root of its area, which caps the perimeter term at 60 of 100 (60.2
    with the tolerance on the root); with the weights 0.4, 0.3 and 0.3 of
    the three terms the sum is at most 64.06, half a point short of what
    [Math.round] takes to 65. *)
Theorem energyEfficiency_at_most_64 :
  forall layoutData : LayoutData,
    Layout_moderate layoutData ->
    0 <= calculateEnergyEfficiency layoutData
    /\ calculateEnergyEfficiency layoutData <= 64.
Proof.
  intros layoutData Hmoderate.
  pose proof (Layout_moderate_ok _ Hmoderate) as Hok.
  split; [now apply energyEfficiency_range|].
  unfold calculateEnergyEfficiency.
  destruct (rooms layoutData) as [[|r0 rs]|] eqn:Hrooms; try lra.
  pose proof (Hok _ Hrooms) as Hrs.
  destruct (building_extent_pos r0 rs (Forall_inv Hrs)) as [Hw Hh].
  cbv zeta in Hw, Hh.
  destruct (adjacencyScore_range (r0 :: rs)) as [_ Hadj].
  set (bounds := calculateBuildingBounds (Some (r0 :: rs))) in *.
  set (W := maxX bounds - minX bounds) in *.
  set (H := maxY bounds - minY bounds) in *.
  assert (Hb : 0 < W * H) by now apply Qmult_lt_0_compat.
  pose proof (Math_sqrt_pos _ Hb) as Hs.
  pose proof (Math_sqrt_close (W * H) (Qlt_le_weak _ _ Hb)) as Hss.
  pose proof (root_le_half_sum W H _ Hw Hh Hs Hss) as Hroot.
  set (s := Math_sqrt (W * H)) in *.
  assert (Hratio : (398 # 100) <= 2 * (W + H) / s)
    by (apply Qle_shift_div_l; [exact Hs | lra]).
  set (ratio := 2 * (W + H) / s) in *.
  assert (Hp : Math_max 0 (100 - ratio * 10) <= (602 # 10))
    by (unfold Math_max; apply Q.max_lub; lra).
  set (perimeterScore := Math_max 0 (100 - ratio * 10)) in *.
  assert (Hc : Math_min 100 (totalArea (r0 :: rs) / (W * H) * 100) <= 100)
    by apply Q.le_min_l.
  set (compactnessScore :=
         Math_min 100 (totalArea (r0 :: rs) / (W * H) * 100)) in *.
  change 64 with (inject_Z 64).
  apply Math_round_below. change (inject_Z 64) with 64. lra.
Qed.

(** X7: [generateRecommendations] (exported as
    [generateLayoutRecommendations]) never returns a list of
    recommendations: for every layout and every call-stack capacity the
    call ends by throwing RangeError. *)
Theorem generateRecommendations_never_returns :
  forall (stack : nat) (layoutData : LayoutData),
    generateRecommendations stack layoutData = Throw RangeError.
Proof.
  intros stack layoutData.
  apply (proj2 (mutual_recursion_overflows stack)).
Qed.

End Metrics.

(** *** The claims at sample inputs *)

(** The amended C4 at the two-room layout of the specification's scenario. *)
Lemma metrics_ranges_witness :
  Layout_moderate twoRooms
  /\ (0 <= calculateCirculationEfficiency decimalSqrt twoRooms
      /\ calculateCirculationEfficiency decimalSqrt twoRooms <= 100)
  /\ (0 <= calculateEnergyEfficiency decimalSqrt twoRooms
      /\ calculateEnergyEfficiency decimalSqrt twoRooms <= 100)
  /\ (0 <= calculateSpaceUtilization twoRooms
      /\ calculateSpaceUtilization twoRooms <= 100)
  /\ (0 <= calculateAccessibilityScore twoRooms None
      /\ calculateAccessibilityScore twoRooms None <= 100)
  /\ (3 <= calculateDaylightHours twoRooms None
      /\ calculateDaylightHours twoRooms None <= 12).
Proof.
  split; [exact twoRooms_moderate|].
  exact (metrics_ranges decimalSqrt decimalSqrt_pos twoRooms None None
           twoRooms_moderate).
Defined.

(** The adjacency example of the specification: two rooms of 100 by 100,
    at (0, 0) and at (100, 0), are horizontally adjacent. *)
Example adjacent_rooms :
  horizontallyAdjacent officeRoom meetingRoom = true
  /\ calculateAdjacencyScore [officeRoom; meetingRoom] = 1.
Proof. split; reflexivity. Qed.

(** The floors of the metrics on a layout without rooms. *)
Example empty_layout_metrics :
  calculateCirculationEfficiency decimalSqrt emptyLayout = 0
  /\ calculateDaylightHours emptyLayout None = 0
  /\ calculateEnergyEfficiency decimalSqrt emptyLayout = 0
  /\ calculateSpaceUtilization emptyLayout = 0
  /\ calculateAccessibilityScore emptyLayout None = 100.
Proof. repeat split; reflexivity. Qed.

(** C4 as stated fails on the empty-rooms case it includes: the guard of
    [calculateDaylightHours] returns 0 there, below the floor of 3. *)
Lemma daylightHours_empty_rooms :
  Layout_ok emptyLayout
  /\ calculateDaylightHours emptyLayout None = 0
  /\ ~ (3 <= calculateDaylightHours emptyLayout None
        /\ calculateDaylightHours emptyLayout None <= 12).
Proof.
  split; [intros rs H; injection H as <-; constructor|].
  split; [reflexivity|].
  intros [H _]. vm_compute in H. now apply H.
Qed.

(** *** The further properties at sample inputs *)

Lemma calculateBuildingBounds_smallest_enclosing_witness :
  [officeRoom; meetingRoom] <> []
  /\ (forall room, In room [officeRoom; meetingRoom] ->
        minX (calculateBuildingBounds (Some [officeRoom; meetingRoom]))
        <= x room
        /\ x room + width room
           <= maxX (calculateBuildingBounds (Some [officeRoom; meetingRoom]))
        /\ minY (calculateBuildingBounds (Some [officeRoom; meetingRoom]))
           <= y room
        /\ y room + height room
           <= maxY (calculateBuildingBounds (Some [officeRoom; meetingRoom]))).
Proof.
  assert (H : [officeRoom; meetingRoom] <> []) by discriminate.
  split; [exact H|].
  exact (proj1 (calculateBuildingBounds_smallest_enclosing _ H)).
Defined.

Lemma calculateAdjacencyScore_order_witness :
  Permutation [officeRoom; meetingRoom] [meetingRoom; officeRoom]
  /\ calculateAdjacencyScore [officeRoom; meetingRoom]
     = calculateAdjacencyScore [meetingRoom; officeRoom].
Proof.
  assert (H : Permutation [officeRoom; meetingRoom] [meetingRoom; officeRoom])
    by apply perm_swap.
  split; [exact H|].
  exact (calculateAdjacencyScore_order _ _ H).
Defined.

Lemma circulation_lowers_efficiency_witness :
  Forall Room_ok [officeRoom; meetingRoom]
  /\ 0 <= pwidth {| from := "r1"; to := "r2"; pwidth := 2 |}
  /\ calculateCirculationEfficiency decimalSqrt twoRooms
     <= calculateCirculationEfficiency decimalSqrt
          {| rooms := Some [officeRoom; meetingRoom]; circulation := Some [] |}.
Proof.
  assert (Hok : Forall Room_ok [officeRoom; meetingRoom])
    by (repeat constructor; reflexivity).
  assert (Hw : 0 <= pwidth {| from := "r1"; to := "r2"; pwidth := 2 |})
    by (simpl; lra).
  split; [exact Hok|]. split; [exact Hw|].
  exact (proj1 (circulation_lowers_efficiency decimalSqrt decimalSqrt_nonneg
                  [officeRoom; meetingRoom] [] []
                  {| from := "r1"; to := "r2"; pwidth := 2 |} Hok Hw)).
Defined.

(** A corridor of 5 ft between the two rooms serves both. *)
Lemma accessibilityScore_extremes_witness :
  calculateAccessibilityScore
    {| rooms := Some [officeRoom; meetingRoom];
       circulation := Some [{| from := "r1"; to := "r2"; pwidth := 5 |}] |}
    None = 100
  /\ calculateAccessibilityScore
       {| rooms := Some [officeRoom; meetingRoom]; circulation := Some [] |}
       None = 0.
Proof.
  pose proof (accessibilityScore_extremes [officeRoom; meetingRoom]
                [{| from := "r1"; to := "r2"; pwidth := 5 |}] None) as [H1 _].
  pose proof (accessibilityScore_extremes [officeRoom; meetingRoom] [] None)
    as [_ H2].
  split.
  - apply H1.
    + repeat constructor; simpl; vm_compute; discriminate.
    + repeat constructor; simpl; try tauto; vm_compute; discriminate.
  - apply H2. discriminate.
Defined.

Lemma daylightHours_at_least_four_witness :
  Layout_moderate twoRooms
  /\ rooms twoRooms = Some [officeRoom; meetingRoom]
  /\ 4 <= calculateDaylightHours twoRooms None
  /\ calculateDaylightHours twoRooms None <= 12.
Proof.
  split; [exact twoRooms_moderate|]. split; [reflexivity|].
  exact (daylightHours_at_least_four twoRooms None officeRoom [meetingRoom]
           twoRooms_moderate eq_refl).
Defined.

Lemma energyEfficiency_at_most_64_witness :
  Layout_moderate twoRooms
  /\ 0 <= calculateEnergyEfficiency decimalSqrt twoRooms
  /\ calculateEnergyEfficiency decimalSqrt twoRooms <= 64.
Proof.
  split; [exact twoRooms_moderate|].
  exact (energyEfficiency_at_most_64 decimalSqrt decimalSqrt_pos
           decimalSqrt_close twoRooms twoRooms_moderate).
Defined.

End PerformanceMetricsCalculator.

(** ** The building codes service: class BuildingCodesService *)

Module BuildingCodesService.

Import JS Samples.
Local Open Scope Q_scope.
Local Open Scope string_scope.

(** *** The building code database *)

Record Minimum : Type := {
  minimum : Q;
  description : option string
}.

Record AccessibilityRules : Type := {
  acc_doorWidth : Q;
  acc_corridorWidth : Q;
  acc_turningSpace : Q
}.

Record ReachRanges : Type := {
  high : Q;
  low : Q;
  reach_description : string
}.

(** The [rules] object of a code; a property a code does not have is [None]. *)
Record Rules : Type := {
  corridorWidth : option Minimum;
  exitWidth : option Minimum;
  doorWidth : option Minimum;
  roomArea : option (list (string * Minimum));
  accessibility : option AccessibilityRules;
  turningSpace : option Minimum;
  reachRanges : option ReachRanges;
  bedroomArea : option Minimum;
  ceilingHeight : option Minimum;
  windowArea : option Minimum;
  hallwayWidth : option Minimum
}.

Record Code : Type := {
  code_name : string;
  code_version : string;
  code_rules : Rules
}.

Definition noRules : Rules :=
  {| corridorWidth := None; exitWidth := None; doorWidth := None;
     roomArea := None; accessibility := None; turningSpace := None;
     reachRanges := None; bedroomArea := None; ceilingHeight := None;
     windowArea := None; hallwayWidth := None |}.

Definition atLeast (m : Q) : Minimum :=
  {| minimum := m; description := None |}.

Definition described (m : Q) (d : string) : Minimum :=
  {| minimum := m; description := Some d |}.

Definition IBC : Code :=
  {| code_name := "International Building Code";
     code_version := "2021";
     code_rules :=
       {| corridorWidth := Some (described 44 "Minimum corridor width for egress");
          exitWidth := Some (described 32 "Minimum exit door width");
          doorWidth := None;
          roomArea := Some [("office", atLeast 80);
                            ("meeting", atLeast 120);
                            ("restroom", atLeast 30)];
          accessibility := Some {| acc_doorWidth := 32;
                                   acc_corridorWidth := 36;
                                   acc_turningSpace := 60 |};
          turningSpace := None; reachRanges := None; bedroomArea := None;
          ceilingHeight := None; windowArea := None; hallwayWidth := None |} |}.

Definition ADA : Code :=
  {| code_name := "Americans with Disabilities Act";
     code_version := "2010";
     code_rules :=
       {| corridorWidth := Some (described 36 "Minimum accessible route width");
          exitWidth := None;
          doorWidth := Some (described 32 "Minimum clear width for doorways");
          roomArea := None;
          accessibility := None;
          turningSpace := Some (described 60 "Wheelchair turning space");
          reachRanges := Some {| high := 48; low := 15;
                                 reach_description := "Accessible reach ranges" |};
          bedroomArea := None; ceilingHeight := None; windowArea := None;
          hallwayWidth := None |} |}.

Definition IRC : Code :=
  {| code_name := "International Residential Code";
     code_version := "2021";
     code_rules :=
       {| corridorWidth := None; exitWidth := None; doorWidth := None;
          roomArea := None; accessibility := None; turningSpace := None;
          reachRanges := None;
          bedroomArea := Some (atLeast 70);
          ceilingHeight := Some (atLeast 90);
          windowArea := Some (atLeast 0.08);
          hallwayWidth := Some (atLeast 36) |} |}.

Definition NBC : Code :=
  {| code_name := "National Building Code of Canada";
     code_version := "2020";
     code_rules :=
       {| corridorWidth := Some (described 1100 "Minimum corridor width");
          exitWidth := Some (described 850 "Minimum exit width");
          doorWidth := None; roomArea := None; accessibility := None;
          turningSpace := None; reachRanges := None; bedroomArea := None;
          ceilingHeight := None; windowArea := None; hallwayWidth := None |} |}.

(** An object literal as the list of its own properties, in source order. *)
Definition BUILDING_CODES : list (string * list (string * Code)) :=
  [ ("US", [("IBC", IBC); ("ADA", ADA); ("IRC", IRC)]);
    ("CA", [("NBC", NBC)]) ].

(** [obj[key]] on such a literal: the own property, or [undefined].  Keys
    that would resolve along the prototype chain of a JavaScript object
    ([constructor], [toString], ...) are taken to be absent. *)
Fixpoint property {A : Type} (obj : list (string * A)) (key : string)
  : option A :=
  match obj with
  | [] => None
  | (k, v) :: obj' => if String.eqb k key then Some v else property obj' key
  end.

(** *** Settings and results *)

(** [accessibilityFlag] is the property [accessibility] of the settings
    (the name is the rules' here); [checkCompliance] reads it and does not
    use it. *)
Record NormSettings : Type := {
  country : option string;
  codes : option (list string);
  accessibilityFlag : option bool
}.

(** An element of [applicableCodes]: [{ key: codeKey, ...countryData[codeKey] }]. *)
Record CodeData : Type := {
  key : string;
  data_name : string;
  data_version : string;
  rules : Rules
}.

Inductive Severity : Type := SevCritical | SevWarning | SevError.

Inductive Status : Type := Compliant | Warning | NonCompliant | StatusError.

Inductive IssueType : Type :=
| configuration | corridor_width | room_area | accessibility_route
| turning_space | door_width.

(** An entry of [results.issues] or [results.warnings]; the properties an
    entry does not carry are [None]. *)
Record Issue : Type := {
  type : IssueType;
  severity : Severity;
  message : string;
  code : string;
  location : option string;
  required : option Q;
  actual : option Q;
  unit : option string;
  recommendation : option string
}.

Record Summary : Type := {
  totalChecks : nat;
  passed : nat;
  failed : nat;
  warningCount : nat     (* summary.warnings *)
}.

Record ComplianceResult : Type := {
  status : Status;
  issues : list Issue;
  warnings : list Issue;
  summary : Summary
}.

(** The in-place updates of the [results] object, as functions on it. *)
Definition pushIssue (i : Issue) (r : ComplianceResult) : ComplianceResult :=
  {| status := status r; issues := issues r ++ [i];
     warnings := warnings r; summary := summary r |}.

Definition pushWarning (w : Issue) (r : ComplianceResult) : ComplianceResult :=
  {| status := status r; issues := issues r;
     warnings := warnings r ++ [w]; summary := summary r |}.

Definition withSummary (f : Summary -> Summary) (r : ComplianceResult)
  : ComplianceResult :=
  {| status := status r; issues := issues r;
     warnings := warnings r; summary := f (summary r) |}.

Definition withStatus (s : Status) (r : ComplianceResult) : ComplianceResult :=
  {| status := s; issues := issues r;
     warnings := warnings r; summary := summary r |}.

Definition totalChecks_incr : ComplianceResult -> ComplianceResult :=
  withSummary (fun s =>
    {| totalChecks := S (totalChecks s); passed := passed s;
       failed := failed s; warningCount := warningCount s |}).

Definition passed_incr : ComplianceResult -> ComplianceResult :=
  withSummary (fun s =>
    {| totalChecks := totalChecks s; passed := S (passed s);
       failed := failed s; warningCount := warningCount s |}).

Definition failed_incr : ComplianceResult -> ComplianceResult :=
  withSummary (fun s =>
    {| totalChecks := totalChecks s; passed := passed s;
       failed := S (failed s); warningCount := warningCount s |}).

Definition warnings_incr : ComplianceResult -> ComplianceResult :=
  withSummary (fun s =>
    {| totalChecks := totalChecks s; passed := passed s;
       failed := failed s; warningCount := S (warningCount s) |}).

(** [array.forEach((item, index) => ...)] threading the state. *)
Fixpoint forEachFrom {A S : Type} (f : S -> A -> nat -> S) (index : nat)
    (items : list A) (s : S) : S :=
  match items with
  | [] => s
  | item :: items' => forEachFrom f (index + 1) items' (f s item index)
  end.

Definition forEach {A S : Type} (f : S -> A -> nat -> S) (items : list A)
    (s : S) : S :=
  forEachFrom f 0 items s.

(** The arrow of the location strings (U+2192), the one character of the
    templates that is no single 8-bit unit, as its three UTF-8 bytes. *)
Definition arrow : string :=
  String (ascii_of_nat 226)
    (String (ascii_of_nat 134) (String (ascii_of_nat 146) EmptyString)).

(** *** Room names *)

Definition inferRoomType (roomName : string) : string :=
  let name := toLowerCase roomName in
  if includes name "office" then "office"
  else if includes name "meeting" || includes name "conference" then "meeting"
  else if includes name "restroom" || includes name "bathroom" then "restroom"
  else if includes name "bedroom" then "bedroom"
  else if includes name "kitchen" then "kitchen"
  else if includes name "living" then "living"
  else "general".

Definition requiresTurningSpace (roomName : string) : bool :=
  let name := toLowerCase roomName in
  includes name "restroom"
  || includes name "bathroom"
  || includes name "office"
  || includes name "meeting"
  || includes name "conference".

Definition getApplicableCodes (country : string) (codes : list string)
  : list CodeData :=
  match property BUILDING_CODES country with
  | None => []
  | Some countryData =>
      (* codes.filter(k => countryData[k]).map(k => ({key: k, ...countryData[k]})) *)
      flat_map
        (fun codeKey =>
           match property countryData codeKey with
           | Some c => [ {| key := codeKey; data_name := code_name c;
                            data_version := code_version c;
                            rules := code_rules c |} ]
           | None => []
           end)
        codes
  end.

(** *** The directory of codes and countries *)

(** An element of what [getAvailableCodes] returns. *)
Record AvailableCode : Type := {
  available_key : string;
  available_name : string;
  available_version : string
}.

(** [Object.keys(countryData).map(codeKey => ...)]: the keys of an object
    literal are distinct, so [countryData[codeKey]] is the value written
    beside the key. *)
Definition getAvailableCodes (country : string) : list AvailableCode :=
  match property BUILDING_CODES country with
  | None => []
  | Some countryData =>
      map
        (fun entry =>
           {| available_key := fst entry;
              available_name := code_name (snd entry);
              available_version := code_version (snd entry) |})
        countryData
  end.

Definition countryNames : list (string * string) :=
  [ ("US", "United States"); ("CA", "Canada");
    ("UK", "United Kingdom"); ("AU", "Australia") ].

Definition getCountryName (countryCode : string) : string :=
  or_string (property countryNames countryCode) countryCode.

Record SupportedCountry : Type := {
  country_code : string;
  country_name : string;
  country_codes : list AvailableCode
}.

Definition getSupportedCountries : list SupportedCountry :=
  map
    (fun entry =>
       {| country_code := fst entry;
          country_name := getCountryName (fst entry);
          country_codes := getAvailableCodes (fst entry) |})
    BUILDING_CODES.

Section Checks.

(** The conversion of a number to a string in a template literal. *)
Variable numToString : Q -> string.

Definition pathLocation (label : string) (index : nat) (path : CirculationPath)
  : string :=
  label ++ " " ++ numToString (of_nat (index + 1)) ++ ": "
  ++ from path ++ " " ++ arrow ++ " " ++ to path.

Definition corridorWidthCheck (codeKey : string) (corridor : Minimum)
    (results : ComplianceResult) (path : CirculationPath) (index : nat)
  : ComplianceResult :=
  let results := totalChecks_incr results in
  let pathWidthInches := pwidth path * 12 in
  if ltb pathWidthInches (minimum corridor) then
    failed_incr
      (pushIssue
         {| type := corridor_width;
            severity := SevCritical;
            message :=
              "Corridor width " ++ numToString (pwidth path) ++ "' ("
              ++ numToString pathWidthInches ++ dquote ++ ") is below minimum "
              ++ numToString (minimum corridor) ++ dquote ++ " required by "
              ++ codeKey;
            code := codeKey ++ "_CORRIDOR_WIDTH";
            location := Some (pathLocation "Path" index path);
            required := Some (minimum corridor);
            actual := Some pathWidthInches;
            unit := Some "inches";
            recommendation := None |}
         results)
  else passed_incr results.

Definition roomAreaCheck (codeKey : string)
    (roomAreaRules : list (string * Minimum))
    (results : ComplianceResult) (room : Room) (index : nat)
  : ComplianceResult :=
  let roomType := inferRoomType (name room) in
  match property roomAreaRules roomType with
  | Some areaRequirement =>
      let results := totalChecks_incr results in
      if ltb (area room) (minimum areaRequirement) then
        failed_incr
          (pushIssue
             {| type := room_area;
                severity := SevCritical;
                message :=
                  name room ++ " area " ++ numToString (area room)
                  ++ " sq ft is below minimum "
                  ++ numToString (minimum areaRequirement)
                  ++ " sq ft required by " ++ codeKey;
                code := codeKey ++ "_ROOM_AREA";
                location := Some (name room);
                required := Some (minimum areaRequirement);
                actual := Some (area room);
                unit := Some "sq ft";
                recommendation := None |}
             results)
      else passed_incr results
  | None => results
  end.

Definition accessibleRouteCheck (codeKey : string)
    (accessibilityRules : AccessibilityRules)
    (results : ComplianceResult) (path : CirculationPath) (index : nat)
  : ComplianceResult :=
  let results := totalChecks_incr results in
  let pathWidthInches := pwidth path * 12 in
  if ltb pathWidthInches (acc_corridorWidth accessibilityRules) then
    failed_incr
      (pushIssue
         {| type := accessibility_route;
            severity := SevCritical;
            message :=
              "Accessible route width " ++ numToString (pwidth path) ++ "' ("
              ++ numToString pathWidthInches ++ dquote ++ ") is below minimum "
              ++ numToString (acc_corridorWidth accessibilityRules) ++ dquote
              ++ " required by " ++ codeKey;
            code := codeKey ++ "_ACCESSIBLE_ROUTE";
            location := Some (pathLocation "Path" index path);
            required := Some (acc_corridorWidth accessibilityRules);
            actual := Some pathWidthInches;
            unit := Some "inches";
            recommendation := None |}
         results)
  else passed_incr results.

Definition turningSpaceCheck (codeKey : string)
    (accessibilityRules : AccessibilityRules)
    (results : ComplianceResult) (room : Room) (index : nat)
  : ComplianceResult :=
  let results := totalChecks_incr results in
  let minTurningArea := Math_pow2 (acc_turningSpace accessibilityRules / 12) in
  if ltb (area room) minTurningArea && requiresTurningSpace (name room) then
    warnings_incr
      (pushWarning
         {| type := turning_space;
            severity := SevWarning;
            message :=
              name room
              ++ " may not have adequate turning space for wheelchairs";
            code := codeKey ++ "_TURNING_SPACE";
            location := Some (name room);
            required := None; actual := None; unit := None;
            recommendation :=
              Some ("Ensure "
                    ++ numToString (acc_turningSpace accessibilityRules)
                    ++ dquote ++ " diameter turning space is available") |}
         results)
  else passed_incr results.

Definition checkAccessibilityCompliance (layoutData : LayoutData)
    (accessibilityRules : AccessibilityRules) (codeKey : string)
    (results : ComplianceResult) : ComplianceResult :=
  let results :=
    match circulation layoutData with
    | Some circulation =>
        if truthy (acc_corridorWidth accessibilityRules)
        then forEach (accessibleRouteCheck codeKey accessibilityRules)
               circulation results
        else results
    | None => results
    end in
  match rooms layoutData with
  | Some rooms =>
      if truthy (acc_turningSpace accessibilityRules)
      then forEach (turningSpaceCheck codeKey accessibilityRules) rooms results
      else results
  | None => results
  end.

Definition doorWidthCheck (codeKey : string) (rules : Rules)
    (results : ComplianceResult) (path : CirculationPath) (index : nat)
  : ComplianceResult :=
  let results := totalChecks_incr results in
  let doorWidthInches := Math_min (pwidth path * 12) 36 in
  let requiredWidth :=
    or_default (option_map minimum (doorWidth rules))
      (or_default (option_map minimum (exitWidth rules)) 32) in
  if ltb doorWidthInches requiredWidth then
    failed_incr
      (pushIssue
         {| type := door_width;
            severity := SevCritical;
            message :=
              "Door width " ++ numToString doorWidthInches ++ dquote
              ++ " is below minimum " ++ numToString requiredWidth ++ dquote
              ++ " required by " ++ codeKey;
            code := codeKey ++ "_DOOR_WIDTH";
            location := Some (pathLocation "Door" index path);
            required := Some requiredWidth;
            actual := Some doorWidthInches;
            unit := Some "inches";
            recommendation := None |}
         results)
  else passed_incr results.

(** [circulation.forEach] is called without a test of [circulation]: on a
    layout without that property the call throws TypeError. *)
Definition checkDoorWidths (layoutData : LayoutData) (rules : Rules)
    (codeKey : string) (results : ComplianceResult)
  : completion ComplianceResult :=
  match circulation layoutData with
  | Some circulation =>
      Return (forEach (doorWidthCheck codeKey rules) circulation results)
  | None => Throw TypeError
  end.

Definition isSome {A : Type} (o : option A) : bool :=
  match o with Some _ => true | None => false end.

Definition runCodeChecks (layoutData : LayoutData) (codeData : CodeData)
    (results : ComplianceResult) : completion ComplianceResult :=
  let codeKey := key codeData in
  let rules := rules codeData in
  (* Check corridor widths *)
  let results :=
    match corridorWidth rules, circulation layoutData with
    | Some corridor, Some circulation =>
        forEach (corridorWidthCheck codeKey corridor) circulation results
    | _, _ => results
    end in
  (* Check room areas *)
  let results :=
    match roomArea rules, rooms layoutData with
    | Some roomAreaRules, Some rooms =>
        forEach (roomAreaCheck codeKey roomAreaRules) rooms results
    | _, _ => results
    end in
  (* Check accessibility requirements *)
  let results :=
    match accessibility rules, rooms layoutData with
    | Some accessibilityRules, Some _ =>
        checkAccessibilityCompliance layoutData accessibilityRules codeKey
          results
    | _, _ => results
    end in
  (* Check door widths *)
  if isSome (doorWidth rules) || isSome (exitWidth rules)
  then checkDoorWidths layoutData rules codeKey results
  else Return results.

(** [for (const codeData of applicableCodes) await this.runCodeChecks(...)] *)
Fixpoint runAllCodeChecks (layoutData : LayoutData)
    (applicableCodes : list CodeData) (results : ComplianceResult)
  : completion ComplianceResult :=
  match applicableCodes with
  | [] => Return results
  | codeData :: rest =>
      results' <- runCodeChecks layoutData codeData results ;;
      runAllCodeChecks layoutData rest results'
  end.

Definition isCritical (issue : Issue) : bool :=
  match severity issue with SevCritical => true | _ => false end.

Definition initialResults : ComplianceResult :=
  {| status := Compliant; issues := []; warnings := [];
     summary := {| totalChecks := 0; passed := 0; failed := 0;
                   warningCount := 0 |} |}.

Definition configIssue (country : string) : Issue :=
  {| type := configuration;
     severity := SevError;
     message := "No building codes found for country: " ++ country;
     code := "CONFIG_ERROR";
     location := None; required := None; actual := None; unit := None;
     recommendation := None |}.

(** The body of [checkCompliance] from the test of [applicableCodes] on,
    as a function of the rule tables that were resolved. *)
Definition checkComplianceWith (layoutData : LayoutData) (country : string)
    (applicableCodes : list CodeData) : completion ComplianceResult :=
  let results := initialResults in
  if (List.length applicableCodes =? 0)%nat then
    Return (withStatus StatusError (pushIssue (configIssue country) results))
  else
    results <- runAllCodeChecks layoutData applicableCodes results ;;
    (* Determine overall status *)
    let results :=
      if (0 <? List.length (issues results))%nat then
        let criticalIssues := filter isCritical (issues results) in
        withStatus
          (if (0 <? List.length criticalIssues)%nat
           then NonCompliant else Warning)
          results
      else results in
    (* Update summary *)
    Return
      (withSummary
         (fun s =>
            {| totalChecks := passed s + failed s + warningCount s;
               passed := passed s; failed := failed s;
               warningCount := warningCount s |})
         results).

Definition countryOf (codeSettings : NormSettings) : string :=
  match country codeSettings with Some c => c | None => "US" end.

Definition codesOf (codeSettings : NormSettings) : list string :=
  match codes codeSettings with Some cs => cs | None => ["IBC"; "ADA"] end.

(** The [async] method; its promise fulfilled is [Return], rejected [Throw]. *)
Definition checkCompliance (layoutData : LayoutData)
    (codeSettings : NormSettings) : completion ComplianceResult :=
  let country := countryOf codeSettings in
  let codes := codesOf codeSettings in
  let applicableCodes := getApplicableCodes country codes in
  checkComplianceWith layoutData country applicableCodes.

(** *** The compliance report *)

Record ComplianceRecommendation : Type := {
  priority : string;
  title : string;
  rec_description : string;
  action : string
}.

Definition IssueType_eqb (a b : IssueType) : bool :=
  match a, b with
  | configuration, configuration
  | corridor_width, corridor_width
  | room_area, room_area
  | accessibility_route, accessibility_route
  | turning_space, turning_space
  | door_width, door_width => true
  | _, _ => false
  end.

(** One step of the [reduce] that groups the issues:
    [acc[issue.type] = acc[issue.type] || []; acc[issue.type].push(issue)].
    The groups stand in the order in which their types first occur, the
    order in which [Object.keys] lists them. *)
Fixpoint groupIssue (acc : list (IssueType * list Issue)) (issue : Issue)
  : list (IssueType * list Issue) :=
  match acc with
  | [] => [(type issue, [issue])]
  | (t, typeIssues) :: acc' =>
      if IssueType_eqb t (type issue)
      then (t, (typeIssues ++ [issue])%list) :: acc'
      else (t, typeIssues) :: groupIssue acc' issue
  end.

(** The [switch] on the type of a group: the recommendation it pushes, if
    any. *)
Definition recommendationFor (t : IssueType) (typeIssues : list Issue)
  : list ComplianceRecommendation :=
  let count := numToString (of_nat (List.length typeIssues)) in
  match t with
  | corridor_width =>
      [ {| priority := "high";
           title := "Increase Corridor Widths";
           rec_description :=
             count
             ++ " corridor(s) need to be widened to meet code requirements";
           action :=
             "Modify layout to increase corridor widths or redesign circulation paths" |} ]
  | room_area =>
      [ {| priority := "high";
           title := "Increase Room Sizes";
           rec_description :=
             count ++ " room(s) are below minimum area requirements";
           action := "Increase room dimensions or combine adjacent spaces" |} ]
  | accessibility_route =>
      [ {| priority := "critical";
           title := "Improve Accessibility";
           rec_description :=
             count ++ " accessible route(s) need to be widened";
           action := "Ensure all routes meet ADA width requirements" |} ]
  | _ => []
  end.

(** The second argument, [warnings], is not read. *)
Definition generateComplianceRecommendations (issues warnings : list Issue)
  : list ComplianceRecommendation :=
  let recommendations := [] in
  let issuesByType := fold_left groupIssue issues [] in
  fold_left
    (fun recommendations group =>
       (recommendations ++ recommendationFor (fst group) (snd group))%list)
    issuesByType recommendations.

Definition generateNextSteps (status : Status) (issues : list Issue)
  : list string :=
  match status with
  | NonCompliant =>
      [ "Address all critical compliance issues before proceeding";
        "Review and modify layout design to meet code requirements";
        "Re-run compliance check after making changes" ]
  | Warning =>
      [ "Review warning items and consider addressing them";
        "Verify compliance with local amendments to building codes";
        "Consider consulting with a local architect or code official" ]
  | _ =>
      [ "Layout appears to meet basic code requirements";
        "Verify with local building department for any additional requirements";
        "Consider professional review before final design" ]
  end.

(** [{ ...summary, complianceRate }] *)
Record ReportSummary : Type := {
  report_totalChecks : nat;
  report_passed : nat;
  report_failed : nat;
  report_warningCount : nat;
  complianceRate : Q
}.

Record ComplianceReport : Type := {
  report_status : Status;
  report_summary : ReportSummary;
  criticalIssues : list Issue;
  report_warnings : list Issue;
  report_recommendations : list ComplianceRecommendation;
  nextSteps : list string
}.

Definition generateComplianceReport (complianceResults : ComplianceResult)
  : ComplianceReport :=
  let status := status complianceResults in
  let issues := issues complianceResults in
  let warnings := warnings complianceResults in
  let summary := summary complianceResults in
  {| report_status := status;
     report_summary :=
       {| report_totalChecks := totalChecks summary;
          report_passed := passed summary;
          report_failed := failed summary;
          report_warningCount := warningCount summary;
          complianceRate :=
            if (0 <? totalChecks summary)%nat
            then Math_round
                   (of_nat (passed summary) / of_nat (totalChecks summary)
                    * 100)
            else 100 |};
     criticalIssues := filter isCritical issues;
     report_warnings := warnings;
     report_recommendations :=
       generateComplianceRecommendations issues warnings;
     nextSteps := generateNextSteps status issues |}.

(** *** Properties *)

(** [countryData[codeKey]] exists for the country and one of the codes. *)
Definition resolves (country : string) (codes : list string) : Prop :=
  exists countryData codeKey c,
    property BUILDING_CODES country = Some countryData
    /\ In codeKey codes
    /\ property countryData codeKey = Some c.

(** The country and the codes are names of their own, none inherited from
    [Object.prototype]: the case in which [BUILDING_CODES[country]] and
    [countryData[codeKey]] are the own properties that [property] reads. *)
Definition ownNames (country : string) (codes : list string) : Prop :=
  ~ In country inheritedNames
  /\ Forall (fun codeKey => ~ In codeKey inheritedNames) codes.

Lemma getApplicableCodes_nil (country : string) (codes : list string) :
  getApplicableCodes country codes = [] <-> ~ resolves country codes.
Proof.
  unfold getApplicableCodes, resolves. split.
  - intros Hnil (countryData & codeKey & c & Hc & Hin & Hk).
    rewrite Hc in Hnil.
    assert (Hall : In {| key := codeKey; data_name := code_name c;
                         data_version := code_version c;
                         rules := code_rules c |}
                      (@nil CodeData)); [|exact Hall].
    rewrite <- Hnil. apply in_flat_map. exists codeKey.
    rewrite Hk. split; [exact Hin | now left].
  - intro Hno. destruct (property BUILDING_CODES country) as [countryData|];
      [|reflexivity].
    induction codes as [|codeKey codes IH]; [reflexivity|].
    simpl. destruct (property countryData codeKey) as [c|] eqn:Hk.
    + exfalso. apply Hno. exists countryData, codeKey, c.
      repeat split; [now left | exact Hk].
    + simpl. apply IH. intros (cd & k & c & Hc & Hin & Hk').
      apply Hno. exists cd, k, c. repeat split; [exact Hc | now right | exact Hk'].
Qed.

Lemma getApplicableCodes_nil_iff (country : string) (codes : list string) :
  resolves country codes <-> getApplicableCodes country codes <> [].
Proof.
  split.
  - intros H Hnil. now apply getApplicableCodes_nil in Hnil.
  - unfold getApplicableCodes, resolves. intro H.
    destruct (property BUILDING_CODES country) as [countryData|];
      [|now elim H].
    match type of H with ?l <> [] =>
      destruct l as [|codeData rest] eqn:E; [now elim H|];
      assert (Hin : In codeData l) by (rewrite E; now left)
    end.
    apply in_flat_map in Hin as (codeKey & Hin & Hc).
    destruct (property countryData codeKey) as [c|] eqn:Hk; [|contradiction].
    exists countryData, codeKey, c. now repeat split.
Qed.

(** What a check may do to [results]: append critical issues, append
    warnings; the status is not touched. *)
Definition grows (r r' : ComplianceResult) : Prop :=
  status r' = status r
  /\ (exists new, issues r' = (issues r ++ new)%list
                  /\ Forall (fun i => severity i = SevCritical) new)
  /\ (exists new, warnings r' = (warnings r ++ new)%list).

Lemma grows_refl (r : ComplianceResult) : grows r r.
Proof.
  repeat split; exists []; rewrite app_nil_r; auto.
Qed.

Lemma grows_trans (r1 r2 r3 : ComplianceResult) :
  grows r1 r2 -> grows r2 r3 -> grows r1 r3.
Proof.
  intros (Hs1 & (i1 & Hi1 & Hc1) & (w1 & Hw1))
         (Hs2 & (i2 & Hi2 & Hc2) & (w2 & Hw2)).
  repeat split.
  - congruence.
  - exists (i1 ++ i2)%list. rewrite Hi2, Hi1, app_assoc.
    split; [reflexivity | now apply Forall_app].
  - exists (w1 ++ w2)%list. now rewrite Hw2, Hw1, app_assoc.
Qed.

Lemma grows_summary (f : Summary -> Summary) (r : ComplianceResult) :
  grows r (withSummary f r).
Proof. exact (grows_refl r). Qed.

Lemma grows_pushIssue (i : Issue) (r : ComplianceResult) :
  severity i = SevCritical -> grows r (pushIssue i r).
Proof.
  intro H. repeat split; simpl.
  - exists [i]. split; [reflexivity | now constructor].
  - exists []. now rewrite app_nil_r.
Qed.

Lemma grows_pushWarning (w : Issue) (r : ComplianceResult) :
  grows r (pushWarning w r).
Proof.
  repeat split; simpl.
  - exists []. rewrite app_nil_r. auto.
  - now exists [w].
Qed.

Lemma forEachFrom_invariant {A S : Type} (R : S -> S -> Prop)
    (f : S -> A -> nat -> S) :
  (forall s, R s s) ->
  (forall s1 s2 s3, R s1 s2 -> R s2 s3 -> R s1 s3) ->
  (forall s a i, R s (f s a i)) ->
  forall items index s, R s (forEachFrom f index items s).
Proof.
  intros Hrefl Htrans Hstep items.
  induction items as [|a items IH]; intros index s; simpl.
  - apply Hrefl.
  - eapply Htrans; [apply Hstep | apply IH].
Qed.

Lemma forEach_grows {A : Type}
    (f : ComplianceResult -> A -> nat -> ComplianceResult)
    (items : list A) (r : ComplianceResult) :
  (forall s a i, grows s (f s a i)) -> grows r (forEach f items r).
Proof.
  intro H. unfold forEach.
  apply (forEachFrom_invariant grows);
    [exact grows_refl | exact grows_trans | exact H].
Qed.

Ltac grows_step :=
  repeat first
    [ apply grows_refl
    | eapply grows_trans; [|apply grows_summary]
    | eapply grows_trans; [|apply grows_pushIssue; reflexivity]
    | eapply grows_trans; [|apply grows_pushWarning] ].

Lemma corridorWidthCheck_grows codeKey corridor r path index :
  grows r (corridorWidthCheck codeKey corridor r path index).
Proof.
  unfold corridorWidthCheck.
  destruct (ltb _ _); unfold failed_incr, passed_incr, totalChecks_incr;
    grows_step.
Qed.

Lemma roomAreaCheck_grows codeKey table r room index :
  grows r (roomAreaCheck codeKey table r room index).
Proof.
  unfold roomAreaCheck.
  destruct (property _ _); [|apply grows_refl].
  destruct (ltb _ _); unfold failed_incr, passed_incr, totalChecks_incr;
    grows_step.
Qed.

Lemma accessibleRouteCheck_grows codeKey acc r path index :
  grows r (accessibleRouteCheck codeKey acc r path index).
Proof.
  unfold accessibleRouteCheck.
  destruct (ltb _ _); unfold failed_incr, passed_incr, totalChecks_incr;
    grows_step.
Qed.

Lemma turningSpaceCheck_grows codeKey acc r room index :
  grows r (turningSpaceCheck codeKey acc r room index).
Proof.
  unfold turningSpaceCheck.
  destruct (_ && _); unfold warnings_incr, passed_incr, totalChecks_incr;
    grows_step.
Qed.

Lemma doorWidthCheck_grows codeKey rules r path index :
  grows r (doorWidthCheck codeKey rules r path index).
Proof.
  unfold doorWidthCheck.
  destruct (ltb _ _); unfold failed_incr, passed_incr, totalChecks_incr;
    grows_step.
Qed.

Lemma checkAccessibilityCompliance_grows layoutData acc codeKey r :
  grows r (checkAccessibilityCompliance layoutData acc codeKey r).
Proof.
  unfold checkAccessibilityCompliance.
  set (routes := match circulation layoutData with
                 | Some c => if truthy (acc_corridorWidth acc)
                             then forEach (accessibleRouteCheck codeKey acc) c r
                             else r
                 | None => r end).
  assert (H1 : grows r routes).
  { unfold routes. destruct (circulation layoutData); [|apply grows_refl].
    destruct (truthy _); [|apply grows_refl].
    apply forEach_grows, accessibleRouteCheck_grows. }
  clearbody routes.
  destruct (rooms layoutData); [|exact H1].
  destruct (truthy _); [|exact H1].
  eapply grows_trans; [exact H1|].
  apply forEach_grows, turningSpaceCheck_grows.
Qed.

(** The three stages of [runCodeChecks] before the door widths. *)
Definition beforeDoors (layoutData : LayoutData) (codeData : CodeData)
    (results : ComplianceResult) : ComplianceResult :=
  let results :=
    match corridorWidth (rules codeData), circulation layoutData with
    | Some corridor, Some circulation =>
        forEach (corridorWidthCheck (key codeData) corridor) circulation results
    | _, _ => results
    end in
  let results :=
    match roomArea (rules codeData), rooms layoutData with
    | Some roomAreaRules, Some rooms =>
        forEach (roomAreaCheck (key codeData) roomAreaRules) rooms results
    | _, _ => results
    end in
  match accessibility (rules codeData), rooms layoutData with
  | Some accessibilityRules, Some _ =>
      checkAccessibilityCompliance layoutData accessibilityRules
        (key codeData) results
  | _, _ => results
  end.

Lemma runCodeChecks_stages layoutData codeData results :
  runCodeChecks layoutData codeData results
  = if isSome (doorWidth (rules codeData)) || isSome (exitWidth (rules codeData))
    then checkDoorWidths layoutData (rules codeData) (key codeData)
           (beforeDoors layoutData codeData results)
    else Return (beforeDoors layoutData codeData results).
Proof. reflexivity. Qed.

Lemma beforeDoors_grows layoutData codeData r :
  grows r (beforeDoors layoutData codeData r).
Proof.
  unfold beforeDoors.
  repeat match goal with
  | |- grows _ (match ?o with Some _ => _ | None => _ end) =>
      destruct o
  | |- grows ?r ?r => apply grows_refl
  | |- grows _ (checkAccessibilityCompliance _ _ _ _) =>
      eapply grows_trans; [|apply checkAccessibilityCompliance_grows]
  | |- grows _ (forEach (roomAreaCheck _ _) _ _) =>
      eapply grows_trans; [|apply forEach_grows, roomAreaCheck_grows]
  | |- grows _ (forEach (corridorWidthCheck _ _) _ _) =>
      eapply grows_trans; [|apply forEach_grows, corridorWidthCheck_grows]
  end.
Qed.

Lemma runCodeChecks_grows layoutData codeData r r' :
  runCodeChecks layoutData codeData r = Return r' -> grows r r'.
Proof.
  rewrite runCodeChecks_stages.
  pose proof (beforeDoors_grows layoutData codeData r) as Hb.
  destruct (_ || _).
  - unfold checkDoorWidths. destruct (circulation layoutData); [|discriminate].
    intro H; injection H as <-.
    eapply grows_trans; [exact Hb|].
    apply forEach_grows, doorWidthCheck_grows.
  - intro H; injection H as <-. exact Hb.
Qed.

Lemma runAllCodeChecks_grows layoutData applicableCodes r r' :
  runAllCodeChecks layoutData applicableCodes r = Return r' -> grows r r'.
Proof.
  revert r. induction applicableCodes as [|c cs IH]; intros r; simpl.
  - intro H; injection H as <-. apply grows_refl.
  - destruct (runCodeChecks layoutData c r) as [r1|e] eqn:H1; simpl;
      [|discriminate].
    intro H. eapply grows_trans; [eapply runCodeChecks_grows; eassumption|].
    now apply IH.
Qed.

Lemma all_critical_filter (l : list Issue) :
  Forall (fun i => severity i = SevCritical) l -> filter isCritical l = l.
Proof.
  induction 1 as [|i l Hi _ IH]; simpl; [reflexivity|].
  unfold isCritical at 1. rewrite Hi. now rewrite IH.
Qed.


(** The checks leave the status alone, and only the final step sets it:
    from the issues, which are all critical. *)
Lemma checkComplianceWith_outcome layoutData country applicableCodes r :
  applicableCodes <> [] ->
  checkComplianceWith layoutData country applicableCodes = Return r ->
  exists r0,
    runAllCodeChecks layoutData applicableCodes initialResults = Return r0
    /\ issues r = issues r0 /\ warnings r = warnings r0
    /\ Forall (fun i => severity i = SevCritical) (issues r)
    /\ status r = match issues r with [] => Compliant | _ => NonCompliant end.
Proof.
  intros Hne. unfold checkComplianceWith.
  destruct applicableCodes as [|c cs]; [contradiction|].
  cbn [List.length Nat.eqb].
  destruct (runAllCodeChecks layoutData (c :: cs) initialResults)
    as [r0|e] eqn:Hrun; [|discriminate].
  apply runAllCodeChecks_grows in Hrun as Hg.
  destruct Hg as (Hst & (new & Hnew & Hcrit) & _).
  simpl in Hnew, Hst. rewrite <- Hnew in Hcrit. cbn [bind].
  intro H; injection H as <-.
  exists r0. split; [reflexivity|].
  destruct (issues r0) as [|i rest] eqn:Hissues.
  - simpl. rewrite Hissues. repeat split; auto.
  - cbn [List.length Nat.ltb Nat.leb].
    rewrite (all_critical_filter _ Hcrit). simpl.
    rewrite Hissues. repeat split; auto.
Qed.

Lemma checkComplianceWith_config layoutData country :
  checkComplianceWith layoutData country []
  = Return {| status := StatusError;
              issues := [configIssue country];
              warnings := [];
              summary := summary initialResults |}.
Proof. reflexivity. Qed.

(** [checkCompliance] returns whenever the layout has its [circulation]. *)
Lemma runAllCodeChecks_returns layoutData applicableCodes :
  circulation layoutData <> None ->
  forall r, exists r',
    runAllCodeChecks layoutData applicableCodes r = Return r'.
Proof.
  intro Hc. induction applicableCodes as [|c cs IH]; intro r; simpl.
  - now exists r.
  - rewrite runCodeChecks_stages. unfold checkDoorWidths.
    destruct (circulation layoutData); [|contradiction].
    destruct (_ || _); simpl; apply IH.
Qed.

Lemma checkCompliance_returns layoutData codeSettings :
  circulation layoutData <> None ->
  exists r, checkCompliance layoutData codeSettings = Return r.
Proof.
  intro Hc. unfold checkCompliance, checkComplianceWith.
  destruct (_ =? _)%nat; [eexists; reflexivity|].
  destruct (runAllCodeChecks_returns layoutData
              (getApplicableCodes (countryOf codeSettings)
                 (codesOf codeSettings)) Hc initialResults) as (r & ->).
  simpl. eexists; reflexivity.
Qed.




(** C10: every issue the rule checks append is critical, so a result that
    [checkCompliance] returns (as it does on every layout that has its
    [circulation], for a country and codes that are names of their own)
    never has status warning; when the settings resolve to a rule table
    all its issues are critical, its status is compliant or non-compliant,
    and it is compliant as soon as there is no issue, whatever the
    warnings. *)
Theorem checkCompliance_never_warning :
  forall (layoutData : LayoutData) (codeSettings : NormSettings),
    (ownNames (countryOf codeSettings) (codesOf codeSettings) ->
     circulation layoutData <> None ->
     exists r, checkCompliance layoutData codeSettings = Return r)
    /\ forall r : ComplianceResult,
         checkCompliance layoutData codeSettings = Return r ->
         status r <> Warning
         /\ (resolves (countryOf codeSettings) (codesOf codeSettings) ->
             Forall (fun i => severity i = SevCritical) (issues r)
             /\ (status r = Compliant \/ status r = NonCompliant)
             /\ (issues r = [] -> status r = Compliant)
             /\ (issues r <> [] -> status r = NonCompliant)).
Proof.
  intros layoutData codeSettings.
  split; [intros _; apply checkCompliance_returns|].
  intros r. unfold checkCompliance.
  destruct (getApplicableCodes _ _) as [|c cs] eqn:Happ.
  - rewrite checkComplianceWith_config. intro H; injection H as <-.
    split; [discriminate|]. intro Hres. exfalso.
    now apply (proj1 (getApplicableCodes_nil _ _) Happ).
  - intro Hr.
    assert (Hne : c :: cs <> []) by discriminate.
    destruct (checkComplianceWith_outcome _ _ _ _ Hne Hr)
      as (_ & _ & _ & _ & Hcrit & Hs).
    split; [rewrite Hs; destruct (issues r); discriminate|].
    intros _. split; [exact Hcrit|].
    rewrite Hs. destruct (issues r); repeat split; auto; try discriminate;
      intro H; now destruct H.
Qed.

(** **** Warnings come with an issue *)

Lemma ltb_lt (a b : Q) : ltb a b = true <-> a < b.
Proof.
  unfold ltb. rewrite negb_true_iff, <- not_true_iff_false, Qle_bool_iff.
  split; [apply Qnot_le_lt | apply Qlt_not_le].
Qed.
















(** **** The shipped tables *)

Lemma property_cons {A : Type} (k : string) (v : A) obj key :
  property ((k, v) :: obj) key
  = if String.eqb k key then Some v else property obj key.
Proof. reflexivity. Qed.








(** **** A path below the corridor minimum *)

Lemma grows_In (r r' : ComplianceResult) (i : Issue) :
  grows r r' -> In i (issues r) -> In i (issues r').
Proof.
  intros (_ & (new & Hnew & _) & _) Hin. rewrite Hnew.
  apply in_or_app. now left.
Qed.

Lemma corridor_issue codeKey corridor (paths : list CirculationPath)
    (path : CirculationPath) :
  In path paths ->
  pwidth path * 12 < minimum corridor ->
  forall index r,
    exists i,
      In i (issues (forEachFrom (corridorWidthCheck codeKey corridor)
                      index paths r))
      /\ severity i = SevCritical
      /\ type i = corridor_width
      /\ code i = codeKey ++ "_CORRIDOR_WIDTH".
Proof.
  intros Hin Hlt.
  induction paths as [|p paths IH]; [contradiction|]; intros index r.
  destruct Hin as [->|Hin]; [|simpl; now apply IH].
  simpl. apply ltb_lt in Hlt.
  eexists. split; [|repeat split].
  - eapply grows_In.
    + apply (forEachFrom_invariant grows);
        [exact grows_refl | exact grows_trans
        | intros; apply corridorWidthCheck_grows].
    + unfold corridorWidthCheck. rewrite Hlt. simpl.
      apply in_or_app. right. now left.
  - reflexivity.
  - reflexivity.
  - reflexivity.
Qed.

Lemma runCodeChecks_corridor_issue layoutData codeData corridor paths path
    r r' :
  corridorWidth (rules codeData) = Some corridor ->
  circulation layoutData = Some paths ->
  In path paths ->
  pwidth path * 12 < minimum corridor ->
  runCodeChecks layoutData codeData r = Return r' ->
  exists i,
    In i (issues r') /\ severity i = SevCritical /\ type i = corridor_width
    /\ code i = key codeData ++ "_CORRIDOR_WIDTH".
Proof.
  intros Hcorridor Hpaths Hin Hlt.
  destruct (corridor_issue (key codeData) corridor paths path Hin Hlt 0%nat r)
    as (i & Hi & Hprops).
  rewrite runCodeChecks_stages. unfold beforeDoors, checkDoorWidths.
  rewrite Hcorridor, Hpaths.
  fold (forEach (corridorWidthCheck (key codeData) corridor) paths r) in Hi.
  set (r1 := forEach (corridorWidthCheck (key codeData) corridor) paths r) in *.
  clearbody r1.
  match goal with
  | |- (if _ then Return (forEach _ _ ?rb) else Return ?rb) = _ -> _ =>
      assert (Hg : grows r1 rb);
      [|set (r3 := rb) in *; clearbody r3]
  end.
  { repeat match goal with
    | |- grows _ (match ?o with Some _ => _ | None => _ end) => destruct o
    | |- grows ?a ?a => apply grows_refl
    | |- grows _ (checkAccessibilityCompliance _ _ _ _) =>
        eapply grows_trans; [|apply checkAccessibilityCompliance_grows]
    | |- grows _ (forEach (roomAreaCheck _ _) _ _) =>
        eapply grows_trans; [|apply forEach_grows, roomAreaCheck_grows]
    end. }
  intro H. exists i. split; [|exact Hprops].
  destruct (_ || _); injection H as <-.
  - eapply grows_In; [apply forEach_grows, doorWidthCheck_grows|].
    now apply (grows_In r1).
  - now apply (grows_In r1).
Qed.

Definition adaSettings (flag : option bool) : NormSettings :=
  {| country := Some "US"; codes := Some ["ADA"]; accessibilityFlag := flag |}.

(** C3 (as amended): for every layout that has a circulation path narrower
    than 3 ft, [checkCompliance] under country US and the code ADA returns a
    result of status non-compliant with a critical issue whose code is
    ADA_CORRIDOR_WIDTH.  (A path of exactly 3 ft is 36 inches wide, which
    meets the minimum of 36.) *)
Theorem narrow_path_fails_ADA :
  forall (layoutData : LayoutData) (paths : list CirculationPath)
         (path : CirculationPath) (flag : option bool),
    circulation layoutData = Some paths ->
    In path paths ->
    pwidth path < 3 ->
    exists r,
      checkCompliance layoutData (adaSettings flag) = Return r
      /\ status r = NonCompliant
      /\ exists i,
           In i (issues r) /\ severity i = SevCritical
           /\ code i = "ADA_CORRIDOR_WIDTH"
           /\ endsWith (code i) "_CORRIDOR_WIDTH" = true.
Proof.
  intros layoutData paths path flag Hpaths Hin Hnarrow.
  destruct (checkCompliance_returns layoutData (adaSettings flag)) as [r Hr];
    [rewrite Hpaths; discriminate|].
  exists r. split; [exact Hr|].
  unfold checkCompliance in Hr.
  change (getApplicableCodes (countryOf (adaSettings flag))
            (codesOf (adaSettings flag)))
    with [ {| key := "ADA"; data_name := code_name ADA;
              data_version := code_version ADA; rules := code_rules ADA |} ]
    in Hr.
  match type of Hr with checkComplianceWith _ _ ?cs = _ =>
    assert (Hne : cs <> []) by discriminate
  end.
  destruct (checkComplianceWith_outcome _ _ _ _ Hne Hr)
    as (r0 & Hrun & Hi & _ & _ & Hs).
  simpl runAllCodeChecks in Hrun.
  destruct (runCodeChecks _ _ _) as [r1|e] eqn:Hrun1; [|discriminate].
  simpl in Hrun. injection Hrun as ->.
  eapply runCodeChecks_corridor_issue in Hrun1 as (i & Hi_in & Hsev & _ & Hcode);
    [|reflexivity | exact Hpaths | exact Hin | simpl; lra].
  rewrite <- Hi in Hi_in.
  split.
  - rewrite Hs. destruct (issues r); [contradiction | reflexivity].
  - exists i. repeat split; try assumption.
    now rewrite Hcode.
Qed.

(** **** What a check does to the results *)

Lemma ltb_ge (a b : Q) : ltb a b = false <-> b <= a.
Proof.
  unfold ltb. rewrite negb_false_iff. apply Qle_bool_iff.
Qed.

(** One check leaves the results alone, or counts a pass, or counts a
    failure and appends an issue, or counts a warning and appends a
    warning. *)
Inductive checked (P : Issue -> Prop) (r : ComplianceResult)
  : ComplianceResult -> Prop :=
| checked_skip : checked P r r
| checked_pass : checked P r (passed_incr (totalChecks_incr r))
| checked_fail issue :
    P issue -> checked P r (failed_incr (pushIssue issue (totalChecks_incr r)))
| checked_warn w :
    checked P r (warnings_incr (pushWarning w (totalChecks_incr r))).

Inductive checkedMany (P : Issue -> Prop) (r : ComplianceResult)
  : ComplianceResult -> Prop :=
| many_none : checkedMany P r r
| many_more r1 r2 :
    checkedMany P r r1 -> checked P r1 r2 -> checkedMany P r r2.

Lemma checkedMany_trans P r1 r2 r3 :
  checkedMany P r1 r2 -> checkedMany P r2 r3 -> checkedMany P r1 r3.
Proof.
  intros H12 H23. induction H23 as [|r r' _ IH Hstep]; [exact H12|].
  eapply many_more; eassumption.
Qed.

Lemma forEach_checked {A : Type} P
    (f : ComplianceResult -> A -> nat -> ComplianceResult)
    (items : list A) (r : ComplianceResult) :
  (forall s a i, checked P s (f s a i)) ->
  checkedMany P r (forEach f items r).
Proof.
  intro H. unfold forEach.
  apply (forEachFrom_invariant (checkedMany P)).
  - intro s. apply many_none.
  - intros s1 s2 s3. apply checkedMany_trans.
  - intros s a i. eapply many_more; [apply many_none | apply H].
Qed.

(** What an issue of the rule checks says: the value found, the value
    required, the found one below the required one, and where. *)
Definition shortfall (issue : Issue) : Prop :=
  severity issue = SevCritical
  /\ location issue <> None
  /\ exists found wanted,
       actual issue = Some found /\ required issue = Some wanted
       /\ found < wanted.

Ltac check_step :=
  match goal with
  | |- checked _ _ (if ?b then _ else _) =>
      let H := fresh "H" in
      destruct b eqn:H;
      [ apply checked_fail; repeat split; try discriminate;
        eexists _, _; repeat split; now apply ltb_lt
      | apply checked_pass ]
  end.

Lemma corridorWidthCheck_checked codeKey corridor r path index :
  checked shortfall r (corridorWidthCheck codeKey corridor r path index).
Proof. unfold corridorWidthCheck. check_step. Qed.

Lemma roomAreaCheck_checked codeKey table r room index :
  checked shortfall r (roomAreaCheck codeKey table r room index).
Proof.
  unfold roomAreaCheck.
  destruct (property _ _); [check_step | apply checked_skip].
Qed.

Lemma accessibleRouteCheck_checked codeKey acc r path index :
  checked shortfall r (accessibleRouteCheck codeKey acc r path index).
Proof. unfold accessibleRouteCheck. check_step. Qed.

Lemma turningSpaceCheck_checked codeKey acc r room index :
  checked shortfall r (turningSpaceCheck codeKey acc r room index).
Proof.
  unfold turningSpaceCheck.
  destruct (_ && _); [apply checked_warn | apply checked_pass].
Qed.

Lemma doorWidthCheck_checked codeKey rules r path index :
  checked shortfall r (doorWidthCheck codeKey rules r path index).
Proof. unfold doorWidthCheck. check_step. Qed.

Lemma checkAccessibilityCompliance_checked layoutData acc codeKey r :
  checkedMany shortfall r
    (checkAccessibilityCompliance layoutData acc codeKey r).
Proof.
  unfold checkAccessibilityCompliance.
  set (routes := match circulation layoutData with
                 | Some c => if truthy (acc_corridorWidth acc)
                             then forEach (accessibleRouteCheck codeKey acc) c r
                             else r
                 | None => r end).
  assert (H1 : checkedMany shortfall r routes).
  { unfold routes. destruct (circulation layoutData); [|apply many_none].
    destruct (truthy _); [|apply many_none].
    apply forEach_checked, accessibleRouteCheck_checked. }
  clearbody routes.
  destruct (rooms layoutData); [|exact H1].
  destruct (truthy _); [|exact H1].
  eapply checkedMany_trans; [exact H1|].
  apply forEach_checked, turningSpaceCheck_checked.
Qed.

Lemma beforeDoors_checked layoutData codeData r :
  checkedMany shortfall r (beforeDoors layoutData codeData r).
Proof.
  unfold beforeDoors.
  repeat match goal with
  | |- checkedMany _ _ (match ?o with Some _ => _ | None => _ end) =>
      destruct o
  | |- checkedMany _ ?r ?r => apply many_none
  | |- checkedMany _ _ (checkAccessibilityCompliance _ _ _ _) =>
      eapply checkedMany_trans;
      [|apply checkAccessibilityCompliance_checked]
  | |- checkedMany _ _ (forEach (roomAreaCheck _ _) _ _) =>
      eapply checkedMany_trans;
      [|apply forEach_checked, roomAreaCheck_checked]
  | |- checkedMany _ _ (forEach (corridorWidthCheck _ _) _ _) =>
      eapply checkedMany_trans;
      [|apply forEach_checked, corridorWidthCheck_checked]
  end.
Qed.

Lemma runCodeChecks_checked layoutData codeData r r' :
  runCodeChecks layoutData codeData r = Return r' ->
  checkedMany shortfall r r'.
Proof.
  rewrite runCodeChecks_stages.
  pose proof (beforeDoors_checked layoutData codeData r) as Hb.
  destruct (_ || _).
  - unfold checkDoorWidths. destruct (circulation layoutData); [|discriminate].
    intro H; injection H as <-.
    eapply checkedMany_trans; [exact Hb|].
    apply forEach_checked, doorWidthCheck_checked.
  - intro H; injection H as <-. exact Hb.
Qed.

Lemma runAllCodeChecks_checked layoutData applicableCodes r r' :
  runAllCodeChecks layoutData applicableCodes r = Return r' ->
  checkedMany shortfall r r'.
Proof.
  revert r. induction applicableCodes as [|c cs IH]; intros r; simpl.
  - intro H; injection H as <-. apply many_none.
  - destruct (runCodeChecks layoutData c r) as [r1|e] eqn:H1; simpl;
      [|discriminate].
    intro H. eapply checkedMany_trans;
      [eapply runCodeChecks_checked; eassumption | now apply IH].
Qed.

(** The counters agree with the lists. *)
Definition tallied (r : ComplianceResult) : Prop :=
  failed (summary r) = List.length (issues r)
  /\ warningCount (summary r) = List.length (warnings r)
  /\ totalChecks (summary r)
     = (passed (summary r) + failed (summary r) + warningCount (summary r))%nat.

Lemma checked_tallied P r r' : checked P r r' -> tallied r -> tallied r'.
Proof.
  intros H (Hf & Hw & Ht).
  destruct H; unfold tallied; simpl; rewrite ?length_app; simpl;
    repeat split; lia.
Qed.

Lemma checkedMany_tallied P r r' :
  checkedMany P r r' -> tallied r -> tallied r'.
Proof.
  induction 1 as [|r1 r2 _ IH Hstep]; [auto|].
  intro H. eapply checked_tallied; eauto.
Qed.

Lemma checked_issues (P : Issue -> Prop) r r' :
  checked P r r' -> Forall P (issues r) -> Forall P (issues r').
Proof.
  intros H Hall. destruct H; simpl; try exact Hall.
  apply Forall_app. split; [exact Hall | now constructor].
Qed.

Lemma checkedMany_issues (P : Issue -> Prop) r r' :
  checkedMany P r r' -> Forall P (issues r) -> Forall P (issues r').
Proof.
  induction 1 as [|r1 r2 _ IH Hstep]; [auto|].
  intro H. eapply checked_issues; eauto.
Qed.

(** The result of [checkCompliance] on resolved settings, from the result
    of the checks. *)
Lemma checkCompliance_resolved layoutData codeSettings r :
  resolves (countryOf codeSettings) (codesOf codeSettings) ->
  checkCompliance layoutData codeSettings = Return r ->
  exists r0,
    runAllCodeChecks layoutData
      (getApplicableCodes (countryOf codeSettings) (codesOf codeSettings))
      initialResults = Return r0
    /\ issues r = issues r0 /\ warnings r = warnings r0
    /\ passed (summary r) = passed (summary r0)
    /\ failed (summary r) = failed (summary r0)
    /\ warningCount (summary r) = warningCount (summary r0)
    /\ totalChecks (summary r)
       = (passed (summary r0) + failed (summary r0)
          + warningCount (summary r0))%nat
    /\ status r = match issues r with [] => Compliant | _ => NonCompliant end.
Proof.
  intros Hres Hr. unfold checkCompliance in Hr.
  assert (Hne : getApplicableCodes (countryOf codeSettings)
                  (codesOf codeSettings) <> [])
    by (intro H; now apply getApplicableCodes_nil in H).
  destruct (checkComplianceWith_outcome _ _ _ _ Hne Hr)
    as (r0 & Hrun & Hi & Hw & _ & Hs).
  exists r0. split; [exact Hrun|].
  unfold checkComplianceWith in Hr.
  destruct (getApplicableCodes _ _) as [|c cs]; [contradiction|].
  cbn [List.length Nat.eqb] in Hr. rewrite Hrun in Hr. cbn [bind] in Hr.
  injection Hr as <-.
  repeat split; try assumption;
    destruct (0 <? List.length (issues r0))%nat; reflexivity.
Qed.

(** X8: in a result that [checkCompliance] returns on resolved settings,
    the summary counts what the lists hold: [failed] is the number of
    issues, [warnings] the number of warnings, and [totalChecks] is
    their sum with [passed]; the final update of [totalChecks] changes
    nothing, the checks having kept it equal to that sum. *)
Theorem checkCompliance_summary :
  forall (layoutData : LayoutData) (codeSettings : NormSettings)
         (r : ComplianceResult),
    resolves (countryOf codeSettings) (codesOf codeSettings) ->
    checkCompliance layoutData codeSettings = Return r ->
    failed (summary r) = List.length (issues r)
    /\ warningCount (summary r) = List.length (warnings r)
    /\ totalChecks (summary r)
       = (passed (summary r) + failed (summary r)
          + warningCount (summary r))%nat
    /\ exists r0,
         runAllCodeChecks layoutData
           (getApplicableCodes (countryOf codeSettings)
              (codesOf codeSettings))
           initialResults = Return r0
         /\ summary r = summary r0.
Proof.
  intros layoutData codeSettings r Hres Hr.
  destruct (checkCompliance_resolved _ _ _ Hres Hr)
    as (r0 & Hrun & Hi & Hw & Hp & Hf & Hwc & Ht & _).
  assert (Htal : tallied r0).
  { apply (checkedMany_tallied shortfall initialResults);
      [now apply (runAllCodeChecks_checked layoutData
                    (getApplicableCodes (countryOf codeSettings)
                       (codesOf codeSettings)))
      | repeat split]. }
  destruct Htal as (T1 & T2 & T3).
  repeat split; try congruence; try lia.
  exists r0. split; [exact Hrun|].
  destruct (summary r), (summary r0); simpl in *. f_equal; lia.
Qed.

(** X9: every issue of a result that [checkCompliance] returns on
    resolved settings is critical, carries a location, and reports a
    value found that is strictly below the value required. *)
Theorem issues_report_shortfall :
  forall (layoutData : LayoutData) (codeSettings : NormSettings)
         (r : ComplianceResult),
    resolves (countryOf codeSettings) (codesOf codeSettings) ->
    checkCompliance layoutData codeSettings = Return r ->
    Forall
      (fun issue =>
         severity issue = SevCritical
         /\ location issue <> None
         /\ exists found wanted,
              actual issue = Some found /\ required issue = Some wanted
              /\ found < wanted)
      (issues r).
Proof.
  intros layoutData codeSettings r Hres Hr.
  destruct (checkCompliance_resolved _ _ _ Hres Hr)
    as (r0 & Hrun & Hi & _).
  rewrite Hi.
  apply (checkedMany_issues shortfall initialResults);
    [|constructor].
  now apply (runAllCodeChecks_checked layoutData
               (getApplicableCodes (countryOf codeSettings)
                  (codesOf codeSettings))).
Qed.

(** **** The checks do not read the results they extend *)

(** [results] extended by what the checks add to [delta]. *)
Definition merge (r delta : ComplianceResult) : ComplianceResult :=
  {| status := status r;
     issues := (issues r ++ issues delta)%list;
     warnings := (warnings r ++ warnings delta)%list;
     summary :=
       {| totalChecks :=
            (totalChecks (summary r) + totalChecks (summary delta))%nat;
          passed := (passed (summary r) + passed (summary delta))%nat;
          failed := (failed (summary r) + failed (summary delta))%nat;
          warningCount :=
            (warningCount (summary r) + warningCount (summary delta))%nat |} |}.

Lemma merge_initialResults (r : ComplianceResult) :
  merge r initialResults = r.
Proof.
  destruct r as [st iss ws [t p f w]]. unfold merge; simpl.
  rewrite !app_nil_r, !Nat.add_0_r. reflexivity.
Qed.

Lemma merge_assoc (r d e : ComplianceResult) :
  merge (merge r d) e = merge r (merge d e).
Proof.
  unfold merge; simpl. rewrite !app_assoc, !Nat.add_assoc. reflexivity.
Qed.

Ltac merge_step :=
  unfold merge, failed_incr, passed_incr, warnings_incr, totalChecks_incr,
    pushIssue, pushWarning, withSummary; simpl;
  rewrite <- ?app_assoc, ?Nat.add_succ_r; reflexivity.

Lemma corridorWidthCheck_merge codeKey corridor r d path index :
  corridorWidthCheck codeKey corridor (merge r d) path index
  = merge r (corridorWidthCheck codeKey corridor d path index).
Proof. unfold corridorWidthCheck. destruct (ltb _ _); merge_step. Qed.

Lemma roomAreaCheck_merge codeKey table r d room index :
  roomAreaCheck codeKey table (merge r d) room index
  = merge r (roomAreaCheck codeKey table d room index).
Proof.
  unfold roomAreaCheck. destruct (property _ _); [|reflexivity].
  destruct (ltb _ _); merge_step.
Qed.

Lemma accessibleRouteCheck_merge codeKey acc r d path index :
  accessibleRouteCheck codeKey acc (merge r d) path index
  = merge r (accessibleRouteCheck codeKey acc d path index).
Proof. unfold accessibleRouteCheck. destruct (ltb _ _); merge_step. Qed.

Lemma turningSpaceCheck_merge codeKey acc r d room index :
  turningSpaceCheck codeKey acc (merge r d) room index
  = merge r (turningSpaceCheck codeKey acc d room index).
Proof. unfold turningSpaceCheck. destruct (_ && _); merge_step. Qed.

Lemma doorWidthCheck_merge codeKey rules r d path index :
  doorWidthCheck codeKey rules (merge r d) path index
  = merge r (doorWidthCheck codeKey rules d path index).
Proof. unfold doorWidthCheck. destruct (ltb _ _); merge_step. Qed.

Lemma forEachFrom_merge {A : Type}
    (f : ComplianceResult -> A -> nat -> ComplianceResult) :
  (forall r d a i, f (merge r d) a i = merge r (f d a i)) ->
  forall items index r d,
    forEachFrom f index items (merge r d)
    = merge r (forEachFrom f index items d).
Proof.
  intros Hf items. induction items as [|a items IH]; intros index r d; simpl.
  - reflexivity.
  - now rewrite Hf, IH.
Qed.

Lemma forEach_merge {A : Type}
    (f : ComplianceResult -> A -> nat -> ComplianceResult)
    (items : list A) (r d : ComplianceResult) :
  (forall r d a i, f (merge r d) a i = merge r (f d a i)) ->
  forEach f items (merge r d) = merge r (forEach f items d).
Proof. intro Hf. unfold forEach. now apply forEachFrom_merge. Qed.

Lemma checkAccessibilityCompliance_merge layoutData acc codeKey r d :
  checkAccessibilityCompliance layoutData acc codeKey (merge r d)
  = merge r (checkAccessibilityCompliance layoutData acc codeKey d).
Proof.
  unfold checkAccessibilityCompliance.
  destruct (circulation layoutData) as [c|], (rooms layoutData) as [rs|];
    repeat match goal with
           | |- context [if ?b then _ else _] => destruct b
           end;
    rewrite ?(forEach_merge (accessibleRouteCheck codeKey acc))
      by apply accessibleRouteCheck_merge;
    rewrite ?(forEach_merge (turningSpaceCheck codeKey acc))
      by apply turningSpaceCheck_merge;
    reflexivity.
Qed.

Lemma beforeDoors_merge layoutData codeData r d :
  beforeDoors layoutData codeData (merge r d)
  = merge r (beforeDoors layoutData codeData d).
Proof.
  unfold beforeDoors.
  destruct (corridorWidth (rules codeData)) as [corridor|],
           (roomArea (rules codeData)) as [table|],
           (accessibility (rules codeData)) as [acc|],
           (circulation layoutData) as [c|] eqn:Hc,
           (rooms layoutData) as [rs|] eqn:Hrs;
    rewrite ?(forEach_merge (corridorWidthCheck (key codeData) corridor))
      by apply corridorWidthCheck_merge;
    rewrite ?(forEach_merge (roomAreaCheck (key codeData) table))
      by apply roomAreaCheck_merge;
    rewrite ?checkAccessibilityCompliance_merge;
    reflexivity.
Qed.

Lemma runCodeChecks_merge layoutData codeData r d :
  runCodeChecks layoutData codeData (merge r d)
  = (d' <- runCodeChecks layoutData codeData d ;; Return (merge r d')).
Proof.
  rewrite !runCodeChecks_stages, beforeDoors_merge.
  destruct (_ || _); [|reflexivity].
  unfold checkDoorWidths. destruct (circulation layoutData); [|reflexivity].
  cbn [bind]. f_equal. apply forEach_merge, doorWidthCheck_merge.
Qed.

Lemma runAllCodeChecks_merge layoutData applicableCodes r d :
  runAllCodeChecks layoutData applicableCodes (merge r d)
  = (d' <- runAllCodeChecks layoutData applicableCodes d ;;
     Return (merge r d')).
Proof.
  revert d. induction applicableCodes as [|c cs IH]; intro d; simpl.
  - reflexivity.
  - rewrite runCodeChecks_merge.
    destruct (runCodeChecks layoutData c d) as [d1|e]; simpl; [|reflexivity].
    apply IH.
Qed.

Lemma runAllCodeChecks_app layoutData codes1 codes2 r :
  runAllCodeChecks layoutData (codes1 ++ codes2) r
  = (r1 <- runAllCodeChecks layoutData codes1 r ;;
     d <- runAllCodeChecks layoutData codes2 initialResults ;;
     Return (merge r1 d)).
Proof.
  revert r. induction codes1 as [|c cs IH]; intro r; simpl.
  - rewrite <- (merge_initialResults r) at 1.
    apply runAllCodeChecks_merge.
  - destruct (runCodeChecks layoutData c r) as [r1|e]; simpl; [|reflexivity].
    apply IH.
Qed.

Lemma getApplicableCodes_app country codes1 codes2 :
  getApplicableCodes country (codes1 ++ codes2)
  = (getApplicableCodes country codes1
     ++ getApplicableCodes country codes2)%list.
Proof.
  unfold getApplicableCodes.
  destruct (property BUILDING_CODES country); [|reflexivity].
  apply flat_map_app.
Qed.

Definition settingsOf (countryCode : string) (codeKeys : list string)
    (flag : option bool) : NormSettings :=
  {| country := Some countryCode; codes := Some codeKeys;
     accessibilityFlag := flag |}.

(** X10: checking two lists of codes in one call gives the two reports
    joined.  When each list (of names of their own) resolves to a rule
    table and is checked without error, the check of the two lists one
    after the other returns
    the issues of the first followed by those of the second, likewise the
    warnings, the sums of the counters, and the status non-compliant as
    soon as one of the two is. *)
Theorem checkCompliance_codes_append :
  forall (layoutData : LayoutData) (countryCode : string)
         (codes1 codes2 : list string) (flag : option bool)
         (r1 r2 : ComplianceResult),
    ownNames countryCode (codes1 ++ codes2) ->
    resolves countryCode codes1 ->
    resolves countryCode codes2 ->
    checkCompliance layoutData (settingsOf countryCode codes1 flag)
    = Return r1 ->
    checkCompliance layoutData (settingsOf countryCode codes2 flag)
    = Return r2 ->
    exists r,
      checkCompliance layoutData
        (settingsOf countryCode (codes1 ++ codes2) flag) = Return r
      /\ issues r = (issues r1 ++ issues r2)%list
      /\ warnings r = (warnings r1 ++ warnings r2)%list
      /\ passed (summary r)
         = (passed (summary r1) + passed (summary r2))%nat
      /\ failed (summary r)
         = (failed (summary r1) + failed (summary r2))%nat
      /\ warningCount (summary r)
         = (warningCount (summary r1) + warningCount (summary r2))%nat
      /\ totalChecks (summary r)
         = (totalChecks (summary r1) + totalChecks (summary r2))%nat
      /\ status r
         = match status r1, status r2 with
           | Compliant, Compliant => Compliant
           | _, _ => NonCompliant
           end.
Proof.
  intros layoutData countryCode codes1 codes2 flag r1 r2 _ Hres1 Hres2 H1 H2.
  destruct (checkCompliance_resolved layoutData
              (settingsOf countryCode codes1 flag) r1 Hres1 H1)
    as (a & Ha & Ai & Aw & Ap & Af & Awc & At & As).
  destruct (checkCompliance_resolved layoutData
              (settingsOf countryCode codes2 flag) r2 Hres2 H2)
    as (b & Hb & Bi & Bw & Bp & Bf & Bwc & Bt & Bs).
  cbn [countryOf codesOf settingsOf country codes] in Ha, Hb.
  assert (Hres : resolves countryCode (codes1 ++ codes2)).
  { destruct Hres1 as (cd & k & c & Hcd & Hin & Hk).
    exists cd, k, c. repeat split; [exact Hcd | | exact Hk].
    apply in_or_app. now left. }
  assert (Hrun : runAllCodeChecks layoutData
                   (getApplicableCodes countryCode (codes1 ++ codes2))
                   initialResults = Return (merge a b)).
  { rewrite getApplicableCodes_app, runAllCodeChecks_app, Ha. cbn [bind].
    rewrite Hb. reflexivity. }
  assert (Hr : exists r,
             checkCompliance layoutData
               (settingsOf countryCode (codes1 ++ codes2) flag) = Return r).
  { unfold checkCompliance, checkComplianceWith.
    cbn [countryOf codesOf settingsOf country codes].
    destruct (_ =? _)%nat; [eexists; reflexivity|].
    rewrite Hrun. cbn [bind]. eexists; reflexivity. }
  destruct Hr as [r Hr]. exists r. split; [exact Hr|].
  destruct (checkCompliance_resolved layoutData
              (settingsOf countryCode (codes1 ++ codes2) flag) r Hres Hr)
    as (ab & Hab & Ri & Rw & Rp & Rf & Rwc & Rt & Rs).
  cbn [countryOf codesOf settingsOf country codes] in Hab.
  rewrite Hrun in Hab. injection Hab as <-.
  rewrite Rs, As, Bs, Ri, Rw, Rp, Rf, Rwc, Rt, Ai, Aw, Ap, Af, Awc, At,
    Bi, Bw, Bp, Bf, Bwc, Bt.
  cbn [merge issues warnings summary passed failed warningCount].
  repeat split; try lia.
  destruct (issues a), (issues b); reflexivity.
Qed.

(** **** When a layout passes *)

Lemma forEachFrom_issues_nil {A : Type}
    (f : ComplianceResult -> A -> nat -> ComplianceResult)
    (pass : A -> Prop) :
  (forall r d a i, f (merge r d) a i = merge r (f d a i)) ->
  (forall a i, issues (f initialResults a i) = [] <-> pass a) ->
  forall items index,
    issues (forEachFrom f index items initialResults) = []
    <-> Forall pass items.
Proof.
  intros Hf Hpass items.
  induction items as [|a items IH]; intro index; simpl.
  - split; [constructor | reflexivity].
  - rewrite <- (merge_initialResults (f initialResults a index)).
    rewrite (forEachFrom_merge f Hf). cbn [merge issues].
    split.
    + intro H. apply app_eq_nil in H as [Ha Hrest].
      constructor; [now apply (Hpass a index) | now apply (IH (index + 1)%nat)].
    + intro H. inversion_clear H as [|? ? Ha Hrest].
      apply (Hpass a index) in Ha. apply (IH (index + 1)%nat) in Hrest.
      now rewrite Ha, Hrest.
Qed.

Lemma forEach_issues_nil {A : Type}
    (f : ComplianceResult -> A -> nat -> ComplianceResult)
    (pass : A -> Prop) (items : list A) (r : ComplianceResult) :
  (forall r d a i, f (merge r d) a i = merge r (f d a i)) ->
  (forall a i, issues (f initialResults a i) = [] <-> pass a) ->
  issues (forEach f items r) = [] <-> issues r = [] /\ Forall pass items.
Proof.
  intros Hf Hpass.
  rewrite <- (merge_initialResults r) at 1.
  rewrite (forEach_merge f items r initialResults Hf). cbn [merge issues].
  unfold forEach.
  rewrite <- (forEachFrom_issues_nil f pass Hf Hpass items 0).
  split.
  - intro H. now apply app_eq_nil in H.
  - intros [H1 H2]. now rewrite H1, H2.
Qed.

Ltac pass_step :=
  match goal with
  | |- issues (if ltb ?a ?b then _ else _) = [] <-> _ =>
      destruct (ltb a b) eqn:Hlt; simpl;
      [ apply ltb_lt in Hlt; split;
        [ discriminate | intro Hle; exfalso; eapply Qlt_not_le; eassumption ]
      | apply ltb_ge in Hlt; split; [intros _; exact Hlt | reflexivity] ]
  end.

Lemma corridorWidthCheck_pass codeKey corridor path index :
  issues (corridorWidthCheck codeKey corridor initialResults path index) = []
  <-> minimum corridor <= pwidth path * 12.
Proof. unfold corridorWidthCheck. pass_step. Qed.

Lemma accessibleRouteCheck_pass codeKey acc path index :
  issues (accessibleRouteCheck codeKey acc initialResults path index) = []
  <-> acc_corridorWidth acc <= pwidth path * 12.
Proof. unfold accessibleRouteCheck. pass_step. Qed.

(** The width [checkDoorWidths] requires under the rules. *)
Definition requiredDoorWidth (rules : Rules) : Q :=
  or_default (option_map minimum (doorWidth rules))
    (or_default (option_map minimum (exitWidth rules)) 32).

Lemma doorWidthCheck_pass codeKey rules path index :
  issues (doorWidthCheck codeKey rules initialResults path index) = []
  <-> requiredDoorWidth rules <= Math_min (pwidth path * 12) 36.
Proof. unfold doorWidthCheck, requiredDoorWidth. pass_step. Qed.

Definition areaOk (table : list (string * Minimum)) (room : Room) : Prop :=
  forall m,
    property table (inferRoomType (name room)) = Some m ->
    minimum m <= area room.

Lemma roomAreaCheck_pass codeKey table room index :
  issues (roomAreaCheck codeKey table initialResults room index) = []
  <-> areaOk table room.
Proof.
  unfold roomAreaCheck, areaOk.
  destruct (property table (inferRoomType (name room))) as [m|].
  - destruct (ltb (area room) (minimum m)) eqn:Hlt; simpl.
    + apply ltb_lt in Hlt. split; [discriminate|].
      intro H. exfalso. apply (Qlt_not_le _ _ Hlt). now apply H.
    + apply ltb_ge in Hlt. split; [|reflexivity].
      intros _ m' [= <-]. exact Hlt.
  - split; [intros _ m H; discriminate H | reflexivity].
Qed.

Lemma turningSpaceCheck_pass codeKey acc room index :
  issues (turningSpaceCheck codeKey acc initialResults room index) = []
  <-> True.
Proof. unfold turningSpaceCheck. destruct (_ && _); simpl; tauto. Qed.

(** The paths and rooms of a layout, none when the property is missing. *)
Definition roomsOf (rs : option (list Room)) : list Room :=
  match rs with Some rooms => rooms | None => [] end.

Lemma status_of_issues layoutData codeSettings r :
  resolves (countryOf codeSettings) (codesOf codeSettings) ->
  checkCompliance layoutData codeSettings = Return r ->
  (status r = Compliant <-> issues r = [])
  /\ (status r = Compliant \/ status r = NonCompliant).
Proof.
  intros Hres Hr.
  destruct (checkCompliance_resolved _ _ _ Hres Hr)
    as (_ & _ & _ & _ & _ & _ & _ & _ & Hs).
  rewrite Hs. destruct (issues r); split; try tauto;
    split; try discriminate; reflexivity.
Qed.

Lemma US_resolves (codeKey : string) (c : Code) :
  property [("IBC", IBC); ("ADA", ADA); ("IRC", IRC)] codeKey = Some c ->
  resolves "US" [codeKey].
Proof.
  intro H. eexists _, codeKey, c.
  split; [reflexivity|]. split; [now left | exact H].
Qed.

(** X11: under the settings US / ADA a layout that has its circulation is
    checked without error, and it is compliant exactly when every
    circulation path is at least 3 ft wide; otherwise it is non-compliant. *)
Theorem ADA_compliant_iff :
  forall (rs : option (list Room)) (paths : list CirculationPath)
         (flag : option bool),
  exists r,
    checkCompliance {| rooms := rs; circulation := Some paths |}
      (settingsOf "US" ["ADA"] flag) = Return r
    /\ (status r = Compliant <-> Forall (fun path => 3 <= pwidth path) paths)
    /\ (status r = Compliant \/ status r = NonCompliant).
Proof.
  intros rs paths flag.
  destruct (checkCompliance_returns {| rooms := rs; circulation := Some paths |}
              (settingsOf "US" ["ADA"] flag)) as [r Hr]; [discriminate|].
  exists r. split; [exact Hr|].
  assert (Hres : resolves "US" ["ADA"]) by now apply (US_resolves "ADA" ADA).
  destruct (status_of_issues _ (settingsOf "US" ["ADA"] flag) r Hres Hr)
    as [Hs Hcases].
  split; [|exact Hcases]. rewrite Hs.
  destruct (checkCompliance_resolved _ (settingsOf "US" ["ADA"] flag) r
              Hres Hr) as (r0 & Hrun & -> & _).
  cbn in Hrun. injection Hrun as <-.
  rewrite (forEach_issues_nil _ _ _ _ (doorWidthCheck_merge "ADA" _)
             (doorWidthCheck_pass "ADA" _)).
  rewrite (forEach_issues_nil _ _ _ _ (corridorWidthCheck_merge "ADA" _)
             (corridorWidthCheck_pass "ADA" _)).
  cbn. rewrite !Forall_forall. split.
  - intros [[_ Hc] _] path Hin. specialize (Hc path Hin). lra.
  - intro H. repeat split; intros path Hin; specialize (H path Hin).
    + lra.
    + apply Q.min_glb; lra.
Qed.

(** The room areas that the IBC asks for, by inferred type. *)
Definition IBC_areas (room : Room) : Prop :=
  (inferRoomType (name room) = "office" -> 80 <= area room)
  /\ (inferRoomType (name room) = "meeting" -> 120 <= area room)
  /\ (inferRoomType (name room) = "restroom" -> 30 <= area room).

(** X12: under the settings US / IBC a layout that has its circulation is
    checked without error.  It is compliant when every circulation path is
    at least 11/3 ft (44 inches) wide and every room typed as an office
    has at least 80 sq ft, as a meeting room at least 120, as a restroom at
    least 30; the accessible route and door widths of the code ask nothing
    more.  Conversely a compliant layout has these room areas and no path
    narrower than 11/3 ft by more than a billionth of a foot: the test is
    made on the product [width * 12], and within that margin the rounding
    of the product decides. *)
Theorem IBC_compliant_when :
  forall (rs : option (list Room)) (paths : list CirculationPath)
         (flag : option bool),
  exists r,
    checkCompliance {| rooms := rs; circulation := Some paths |}
      (settingsOf "US" ["IBC"] flag) = Return r
    /\ (Forall (fun path => 11 # 3 <= pwidth path) paths
        /\ Forall IBC_areas (roomsOf rs) ->
        status r = Compliant)
    /\ (status r = Compliant ->
        Forall (fun path => (11 # 3) - (1 # 1000000000) <= pwidth path) paths
        /\ Forall IBC_areas (roomsOf rs))
    /\ (status r = Compliant \/ status r = NonCompliant).
Proof.
  intros rs paths flag.
  destruct (checkCompliance_returns {| rooms := rs; circulation := Some paths |}
              (settingsOf "US" ["IBC"] flag)) as [r Hr]; [discriminate|].
  exists r. split; [exact Hr|].
  assert (Hres : resolves "US" ["IBC"]) by now apply (US_resolves "IBC" IBC).
  destruct (status_of_issues _ (settingsOf "US" ["IBC"] flag) r Hres Hr)
    as [Hs Hcases].
  assert (Hiff : status r = Compliant <->
                 Forall (fun path => 44 <= pwidth path * 12) paths
                 /\ Forall IBC_areas (roomsOf rs));
    [|split; [|split; [|exact Hcases]]].
  2:{ intros [Hc Ha]. apply Hiff. split; [|exact Ha].
      eapply Forall_impl; [|exact Hc]. cbv beta. intros path H. lra. }
  2:{ intro Hst. apply Hiff in Hst as [Hc Ha]. split; [|exact Ha].
      eapply Forall_impl; [|exact Hc]. cbv beta. intros path H. lra. }
  unfold IBC_areas.
  rewrite Hs.
  destruct (checkCompliance_resolved _ (settingsOf "US" ["IBC"] flag) r
              Hres Hr) as (r0 & Hrun & -> & _).
  assert (Harea : forall room,
             areaOk [("office", atLeast 80); ("meeting", atLeast 120);
                     ("restroom", atLeast 30)] room
             <-> (inferRoomType (name room) = "office" -> 80 <= area room)
                 /\ (inferRoomType (name room) = "meeting" ->
                     120 <= area room)
                 /\ (inferRoomType (name room) = "restroom" ->
                     30 <= area room)).
  { intro room. unfold areaOk.
    rewrite !property_cons. cbn [property].
    destruct (String.eqb_spec "office" (inferRoomType (name room))) as [<-|H1].
    { split.
      - intro H. repeat split; try discriminate. intros _. now apply (H (atLeast 80)).
      - intros (H & _) m [= <-]. now apply H. }
    destruct (String.eqb_spec "meeting" (inferRoomType (name room))) as [<-|H2].
    { split.
      - intro H. repeat split; try discriminate. intros _. now apply (H (atLeast 120)).
      - intros (_ & H & _) m [= <-]. now apply H. }
    destruct (String.eqb_spec "restroom" (inferRoomType (name room))) as [<-|H3].
    { split.
      - intro H. repeat split; try discriminate. intros _. now apply (H (atLeast 30)).
      - intros (_ & _ & H) m [= <-]. now apply H. }
    split; [|intros _ m; discriminate].
    intros _. repeat split; intro H; symmetry in H; contradiction. }
  destruct rs as [rooms|]; cbn in Hrun; injection Hrun as <-.
  - rewrite (forEach_issues_nil _ _ _ _ (doorWidthCheck_merge "IBC" _)
               (doorWidthCheck_pass "IBC" _)).
    rewrite (forEach_issues_nil _ _ _ _ (turningSpaceCheck_merge "IBC" _)
               (turningSpaceCheck_pass "IBC" _)).
    rewrite (forEach_issues_nil _ _ _ _ (accessibleRouteCheck_merge "IBC" _)
               (accessibleRouteCheck_pass "IBC" _)).
    rewrite (forEach_issues_nil _ _ _ _ (roomAreaCheck_merge "IBC" _)
               (roomAreaCheck_pass "IBC" _)).
    rewrite (forEach_issues_nil _ _ _ _ (corridorWidthCheck_merge "IBC" _)
               (corridorWidthCheck_pass "IBC" _)).
    cbn. rewrite !Forall_forall. split.
    + intros [[[[[_ Hc] Ha] _] _] _]. split; [exact Hc|].
      intros room Hin. apply Harea. now apply Ha.
    + intros [Hc Ha]. repeat split; try exact Hc.
      * intros room Hin. apply Harea. now apply Ha.
      * intros path Hin. specialize (Hc path Hin). lra.
      * intros path Hin. specialize (Hc path Hin). apply Q.min_glb; lra.
  - rewrite (forEach_issues_nil _ _ _ _ (doorWidthCheck_merge "IBC" _)
               (doorWidthCheck_pass "IBC" _)).
    rewrite (forEach_issues_nil _ _ _ _ (corridorWidthCheck_merge "IBC" _)
               (corridorWidthCheck_pass "IBC" _)).
    cbn. rewrite !Forall_forall. split.
    + intros [[_ Hc] _]. split; [exact Hc | intros room []].
    + intros [Hc _]. repeat split; try exact Hc.
      intros path Hin. specialize (Hc path Hin). apply Q.min_glb; lra.
Qed.

Lemma forEachFrom_issues_length {A : Type}
    (f : ComplianceResult -> A -> nat -> ComplianceResult) :
  (forall r d a i, f (merge r d) a i = merge r (f d a i)) ->
  (forall a i, issues (f initialResults a i) <> []) ->
  forall items index,
    (List.length items
     <= List.length (issues (forEachFrom f index items initialResults)))%nat.
Proof.
  intros Hf Hfail items.
  induction items as [|a items IH]; intro index; simpl; [lia|].
  rewrite <- (merge_initialResults (f initialResults a index)).
  rewrite (forEachFrom_merge f Hf). cbn [merge issues].
  rewrite length_app. specialize (IH (index + 1)%nat).
  specialize (Hfail a index).
  destruct (issues (f initialResults a index)); [contradiction | simpl; lia].
Qed.

(** X13: under the settings CA / NBC the minima of the table, written in
    millimetres (1100 and 850), are compared with widths in inches, and
    the door width is capped at 36: every circulation path fails the
    door-width check, so a layout is compliant only when it has no
    circulation path, and it has at least one issue per path. *)
Theorem NBC_rejects_every_path :
  forall (rs : option (list Room)) (paths : list CirculationPath)
         (flag : option bool),
  exists r,
    checkCompliance {| rooms := rs; circulation := Some paths |}
      (settingsOf "CA" ["NBC"] flag) = Return r
    /\ (status r = Compliant <-> paths = [])
    /\ (status r = Compliant \/ status r = NonCompliant)
    /\ (List.length paths <= List.length (issues r))%nat.
Proof.
  intros rs paths flag.
  destruct (checkCompliance_returns {| rooms := rs; circulation := Some paths |}
              (settingsOf "CA" ["NBC"] flag)) as [r Hr]; [discriminate|].
  exists r. split; [exact Hr|].
  assert (Hres : resolves "CA" ["NBC"]).
  { eexists _, "NBC", NBC. split; [reflexivity|]. split; [now left | reflexivity]. }
  destruct (status_of_issues _ (settingsOf "CA" ["NBC"] flag) r Hres Hr)
    as [Hs Hcases].
  destruct (checkCompliance_resolved _ (settingsOf "CA" ["NBC"] flag) r
              Hres Hr) as (r0 & Hrun & Hi & _).
  assert (Hdoor : forall path index,
             issues (doorWidthCheck "NBC" (code_rules NBC) initialResults
                       path index) <> []).
  { intros path index H. apply doorWidthCheck_pass in H. cbn in H.
    pose proof (Q.le_min_r (pwidth path * 12) 36) as Hcap.
    unfold Math_min in H. lra. }
  assert (Hlen : (List.length paths <= List.length (issues r))%nat).
  { rewrite Hi. cbn in Hrun. destruct rs; injection Hrun as <-;
      rewrite <- (merge_initialResults (forEach (corridorWidthCheck _ _) _ _));
      rewrite (forEach_merge _ _ _ _ (doorWidthCheck_merge "NBC" _));
      cbn [merge issues]; rewrite length_app;
      pose proof (forEachFrom_issues_length _
                    (doorWidthCheck_merge "NBC" (code_rules NBC)) Hdoor
                    paths 0) as Hn;
      unfold forEach; cbn in Hn |- *; lia. }
  split; [|split; [exact Hcases | exact Hlen]].
  rewrite Hs. split.
  - intro H. rewrite H in Hlen. destruct paths; [reflexivity | simpl in Hlen; lia].
  - intros ->. rewrite Hi. cbn in Hrun. destruct rs; now injection Hrun as <-.
Qed.

Lemma runAllCodeChecks_skip layoutData (codeData : CodeData)
    (before after : list CodeData) :
  (forall r, runCodeChecks layoutData codeData r = Return r) ->
  forall r,
    runAllCodeChecks layoutData (before ++ codeData :: after) r
    = runAllCodeChecks layoutData (before ++ after) r.
Proof.
  intro Hskip. induction before as [|c cs IH]; intro r; simpl.
  - now rewrite Hskip.
  - destruct (runCodeChecks layoutData c r); simpl; [apply IH | reflexivity].
Qed.

(** X14: the table of the IRC has none of the rules that the engine
    checks.  Under the settings US / IRC no check is run, and every
    layout, whatever its rooms and circulation and even without them, is
    returned as compliant with empty lists and all counters at 0; and
    naming the IRC among other codes of the US that resolve changes
    nothing in what [checkCompliance] gives. *)
Theorem IRC_checks_nothing :
  forall (layoutData : LayoutData) (flag : option bool),
    checkCompliance layoutData (settingsOf "US" ["IRC"] flag)
    = Return {| status := Compliant; issues := []; warnings := [];
                summary := {| totalChecks := 0; passed := 0; failed := 0;
                              warningCount := 0 |} |}
    /\ forall before after : list string,
         resolves "US" (before ++ after) ->
         checkCompliance layoutData
           (settingsOf "US" (before ++ "IRC" :: after) flag)
         = checkCompliance layoutData
             (settingsOf "US" (before ++ after) flag).
Proof.
  intros layoutData flag. split; [reflexivity|].
  intros before after Hres.
  apply getApplicableCodes_nil_iff in Hres.
  unfold checkCompliance, checkComplianceWith.
  cbn [countryOf codesOf settingsOf country codes].
  change (before ++ "IRC" :: after)%list
    with (before ++ ["IRC"] ++ after)%list.
  rewrite !getApplicableCodes_app.
  rewrite getApplicableCodes_app in Hres.
  change (getApplicableCodes "US" ["IRC"])
    with [ {| key := "IRC"; data_name := code_name IRC;
              data_version := code_version IRC;
              rules := code_rules IRC |} ].
  cbn [app].
  rewrite runAllCodeChecks_skip by reflexivity.
  destruct (getApplicableCodes "US" before) as [|c cs];
    [|reflexivity].
  cbn [app] in *.
  destruct (getApplicableCodes "US" after) as [|c cs];
    [contradiction | reflexivity].
Qed.

(** **** The compliance report *)














Definition compliantSteps : list string :=
  [ "Layout appears to meet basic code requirements";
    "Verify with local building department for any additional requirements";
    "Consider professional review before final design" ].

(** X16: the report of a configuration error reads as a clean bill.  For
    settings (of names of their own) that resolve to no rule table, the
    report made from what
    [checkCompliance] returns has the status error, a compliance rate of
    100, no critical issue (the CONFIG_ERROR issue has severity error and
    is filtered out), no recommendation, and the next steps of a layout
    that meets the code. *)
Theorem report_of_config_error :
  forall (layoutData : LayoutData) (codeSettings : NormSettings),
    ownNames (countryOf codeSettings) (codesOf codeSettings) ->
    ~ resolves (countryOf codeSettings) (codesOf codeSettings) ->
    exists r,
      checkCompliance layoutData codeSettings = Return r
      /\ generateComplianceReport r
         = {| report_status := StatusError;
              report_summary :=
                {| report_totalChecks := 0; report_passed := 0;
                   report_failed := 0; report_warningCount := 0;
                   complianceRate := 100 |};
              criticalIssues := [];
              report_warnings := [];
              report_recommendations := [];
              nextSteps := compliantSteps |}.
Proof.
  intros layoutData codeSettings _ Hno.
  apply getApplicableCodes_nil in Hno.
  unfold checkCompliance. rewrite Hno, checkComplianceWith_config.
  eexists. split; reflexivity.
Qed.

Definition nonCompliantSteps : list string :=
  [ "Address all critical compliance issues before proceeding";
    "Review and modify layout design to meet code requirements";
    "Re-run compliance check after making changes" ].

(** X17: the report of a result that [checkCompliance] returns on resolved
    settings lists every issue as critical, gives a compliance rate
    between 0 and 100 that is 100 when there is neither issue nor warning,
    and gives the next steps of a compliant layout when there is no issue
    and those of a non-compliant one otherwise, never those of a
    warning. *)
Theorem report_of_checked_layout :
  forall (layoutData : LayoutData) (codeSettings : NormSettings)
         (r : ComplianceResult),
    resolves (countryOf codeSettings) (codesOf codeSettings) ->
    checkCompliance layoutData codeSettings = Return r ->
    criticalIssues (generateComplianceReport r) = issues r
    /\ (0 <= complianceRate (report_summary (generateComplianceReport r))
        /\ complianceRate (report_summary (generateComplianceReport r))
           <= 100)
    /\ (issues r = [] -> warnings r = [] ->
        complianceRate (report_summary (generateComplianceReport r)) = 100)
    /\ nextSteps (generateComplianceReport r)
       = match issues r with
         | [] => compliantSteps
         | _ :: _ => nonCompliantSteps
         end.
Proof.
  intros layoutData codeSettings r Hres Hr.
  destruct (checkCompliance_resolved _ _ _ Hres Hr)
    as (r0 & Hrun & Hi & Hw & Hp & Hf & Hwc & Ht & Hs).
  assert (Htal : tallied r0).
  { apply (checkedMany_tallied shortfall initialResults);
      [now apply (runAllCodeChecks_checked layoutData
                    (getApplicableCodes (countryOf codeSettings)
                       (codesOf codeSettings)))
      | repeat split]. }
  destruct Htal as (T1 & T2 & _).
  assert (Hcrit : Forall (fun i => severity i = SevCritical) (issues r)).
  { rewrite Hi.
    apply (Forall_impl _ (P := shortfall)); [now intros i (H & _)|].
    apply (checkedMany_issues shortfall initialResults); [|constructor].
    now apply (runAllCodeChecks_checked layoutData
                 (getApplicableCodes (countryOf codeSettings)
                    (codesOf codeSettings))). }
  unfold generateComplianceReport.
  cbn [criticalIssues complianceRate report_summary nextSteps].
  split; [now apply all_critical_filter|].
  assert (Hrate : forall p t : nat,
             (p <= t)%nat -> (0 < t)%nat ->
             0 <= of_nat p / of_nat t * 100
             /\ of_nat p / of_nat t * 100 <= 100).
  { intros p t Hpt Hpos. unfold of_nat.
    destruct (PerformanceMetricsCalculator.ratio_range (Z.of_nat p)
                (Z.of_nat t)) as [H0 H1]; [lia | lia | lra]. }
  split; [|split].
  - destruct (Nat.ltb_spec 0 (totalChecks (summary r))) as [Hpos|_];
      [|lra].
    apply PerformanceMetricsCalculator.Math_round_score;
      apply Hrate; lia.
  - intros Hnil Hwnil.
    destruct (Nat.ltb_spec 0 (totalChecks (summary r))) as [Hpos|_];
      [|reflexivity].
    rewrite Hi in Hnil. rewrite Hw in Hwnil.
    rewrite Hnil in T1. rewrite Hwnil in T2. simpl in T1, T2.
    assert (Hpt : passed (summary r) = totalChecks (summary r)) by lia.
    rewrite Hpt.
    apply (PerformanceMetricsCalculator.Math_round_eq _ 100).
    assert (Hq : ~ of_nat (totalChecks (summary r)) == 0).
    { unfold of_nat. intro H. unfold Qeq in H. simpl in H. lia. }
    field. exact Hq.
  - rewrite Hs. now destruct (issues r).
Qed.

(** **** Room names *)

(** X18: a room name requires turning space exactly when the type
    inferred from it is office, meeting or restroom, the three types for
    which the IBC states a minimum area. *)
Theorem requiresTurningSpace_iff_typed :
  forall roomName : string,
    requiresTurningSpace roomName = true
    <-> In (inferRoomType roomName) ["office"; "meeting"; "restroom"].
Proof.
  intro roomName. unfold requiresTurningSpace, inferRoomType. cbv zeta.
  destruct (includes (toLowerCase roomName) "office");
    destruct (includes (toLowerCase roomName) "meeting");
    destruct (includes (toLowerCase roomName) "conference");
    destruct (includes (toLowerCase roomName) "restroom");
    destruct (includes (toLowerCase roomName) "bathroom");
    cbn [orb In]; try (split; [intros _; tauto | reflexivity]);
    destruct (includes (toLowerCase roomName) "bedroom");
    destruct (includes (toLowerCase roomName) "kitchen");
    destruct (includes (toLowerCase roomName) "living");
    (split; [discriminate | intros [H|[H|[H|[]]]]; discriminate H]).
Qed.

(** **** The directory and the resolution of codes *)

Lemma available_property (countryData : list (string * Code))
    (codeKey : string) :
  existsb (fun a => String.eqb (available_key a) codeKey)
    (map
       (fun entry =>
          {| available_key := fst entry;
             available_name := code_name (snd entry);
             available_version := code_version (snd entry) |})
       countryData)
  = isSome (property countryData codeKey).
Proof.
  induction countryData as [|[k c] countryData IH]; simpl; [reflexivity|].
  destruct (String.eqb k codeKey); [reflexivity | exact IH].
Qed.

Lemma property_In {A : Type} (obj : list (string * A)) (k : string) (v : A) :
  property obj k = Some v -> In (k, v) obj.
Proof.
  induction obj as [|[k' v'] obj IH]; simpl; [discriminate|].
  destruct (String.eqb_spec k' k) as [->|_].
  - intros [= ->]. now left.
  - intro H. right. now apply IH.
Qed.

(** X19: for a country and codes that are names of their own, the rule
    tables that [getApplicableCodes] resolves are the requested codes
    that [getAvailableCodes] lists for the country, in the
    order of the request and as often as requested, each with the name and
    version listed; so the settings resolve to no table, and
    [checkCompliance] answers with the configuration error, exactly when
    none of the requested codes is listed for the country. *)
Theorem getApplicableCodes_available :
  forall (countryCode : string) (codeKeys : list string),
    ownNames countryCode codeKeys ->
    map key (getApplicableCodes countryCode codeKeys)
    = filter
        (fun codeKey =>
           existsb (fun a => String.eqb (available_key a) codeKey)
             (getAvailableCodes countryCode))
        codeKeys
    /\ Forall
         (fun codeData =>
            In {| available_key := key codeData;
                  available_name := data_name codeData;
                  available_version := data_version codeData |}
               (getAvailableCodes countryCode))
         (getApplicableCodes countryCode codeKeys)
    /\ (~ resolves countryCode codeKeys
        <-> Forall
              (fun codeKey =>
                 ~ In codeKey
                     (map available_key (getAvailableCodes countryCode)))
              codeKeys).
Proof.
  intros countryCode codeKeys _.
  assert (Hkeys :
            map key (getApplicableCodes countryCode codeKeys)
            = filter
                (fun codeKey =>
                   existsb (fun a => String.eqb (available_key a) codeKey)
                     (getAvailableCodes countryCode))
                codeKeys).
  { unfold getApplicableCodes, getAvailableCodes.
    destruct (property BUILDING_CODES countryCode) as [countryData|].
    - induction codeKeys as [|k ks IH]; [reflexivity|].
      cbn [flat_map filter]. rewrite available_property, map_app, IH.
      now destruct (property countryData k).
    - induction codeKeys as [|k ks IH]; [reflexivity | exact IH]. }
  split; [exact Hkeys|]. split.
  - unfold getApplicableCodes, getAvailableCodes.
    destruct (property BUILDING_CODES countryCode) as [countryData|];
      [|constructor].
    apply Forall_forall. intros codeData Hin.
    apply in_flat_map in Hin as (k & _ & Hin).
    destruct (property countryData k) as [c|] eqn:Hk; [|contradiction].
    destruct Hin as [<-|[]]. cbn [key data_name data_version].
    apply in_map_iff. exists (k, c). split; [reflexivity|].
    now apply property_In.
  - rewrite <- getApplicableCodes_nil.
    split.
    + intro Hnil. rewrite Hnil in Hkeys. simpl in Hkeys.
      apply Forall_forall. intros k Hin Hav.
      assert (Hk : In k (filter
                           (fun codeKey =>
                              existsb
                                (fun a => String.eqb (available_key a) codeKey)
                                (getAvailableCodes countryCode))
                           codeKeys)).
      { apply filter_In. split; [exact Hin|].
        apply existsb_exists. apply in_map_iff in Hav as (a & <- & Ha).
        exists a. split; [exact Ha | apply String.eqb_refl]. }
      now rewrite <- Hkeys in Hk.
    + intro Hall.
      destruct (getApplicableCodes countryCode codeKeys) as [|c cs] eqn:E;
        [reflexivity|].
      exfalso.
      assert (Hk : In (key c)
                     (filter
                        (fun codeKey =>
                           existsb
                             (fun a => String.eqb (available_key a) codeKey)
                             (getAvailableCodes countryCode))
                        codeKeys))
        by (rewrite <- Hkeys; now left).
      apply filter_In in Hk as [Hin Hex].
      rewrite Forall_forall in Hall. apply (Hall _ Hin).
      apply existsb_exists in Hex as (a & Ha & Heq).
      apply String.eqb_eq in Heq. rewrite <- Heq. now apply in_map.
Qed.

(** X30: the directory agrees with the engine.  For a country code that
    is a name of its own, some list of codes resolves to a rule table for
    the country exactly when [getSupportedCountries] lists the country;
    and every country listed comes with the codes that
    [getAvailableCodes] gives for it, at least one, and with a name from
    the table of names. *)
Theorem supported_countries_resolve :
  forall countryCode : string,
    ~ In countryCode inheritedNames ->
    ((exists codeKeys, resolves countryCode codeKeys)
     <-> In countryCode (map country_code getSupportedCountries))
    /\ Forall
         (fun supported =>
            country_codes supported
            = getAvailableCodes (country_code supported)
            /\ country_codes supported <> []
            /\ property countryNames (country_code supported)
               = Some (country_name supported))
         getSupportedCountries.
Proof.
  intros countryCode _. split.
  - split.
    + intros (codeKeys & countryData & codeKey & c & Hcountry & _ & _).
      unfold BUILDING_CODES in Hcountry. rewrite !property_cons in Hcountry.
      simpl.
      destruct (String.eqb_spec "US" countryCode) as [<-|_]; [now left|].
      destruct (String.eqb_spec "CA" countryCode) as [<-|_];
        [right; now left | discriminate].
    + simpl. intros [<-|[<-|[]]].
      * exists ["IBC"]. eexists _, "IBC", IBC.
        split; [reflexivity|]. split; [now left | reflexivity].
      * exists ["NBC"]. eexists _, "NBC", NBC.
        split; [reflexivity|]. split; [now left | reflexivity].
  - repeat constructor; discriminate.
Qed.

End Checks.

(** *** The claims at sample inputs *)

Definition settingsFor (countryCode : string) (codeKeys : list string)
  : NormSettings :=
  {| country := Some countryCode; codes := Some codeKeys;
     accessibilityFlag := Some true |}.

(** Two adjacent rooms joined by one path of exactly 3 ft. *)
Definition threeFootPath : LayoutData :=
  {| rooms := Some [officeRoom; meetingRoom];
     circulation := Some [{| from := "r1"; to := "r2"; pwidth := 3 |}] |}.

(** C3 as stated fails: a path of exactly 3 ft is 36 inches, not below the
    ADA minimum of 36, and the door width of 36 is not below 32; the result
    has no issue and its status is compliant. *)
Lemma three_foot_path_passes_ADA :
  exists r,
    checkCompliance decimalString threeFootPath (settingsFor "US" ["ADA"])
    = Return r
    /\ issues r = [] /\ status r = Compliant.
Proof.
  eexists. split; [vm_compute; reflexivity|]. split; reflexivity.
Qed.

Definition narrowPath : LayoutData :=
  {| rooms := Some [officeRoom; meetingRoom];
     circulation := Some [{| from := "r1"; to := "r2"; pwidth := 2.5 |}] |}.

Lemma narrow_path_fails_ADA_witness :
  exists r,
    checkCompliance decimalString narrowPath (adaSettings (Some true))
    = Return r
    /\ status r = NonCompliant
    /\ exists i,
         In i (issues r) /\ severity i = SevCritical
         /\ code i = "ADA_CORRIDOR_WIDTH"
         /\ endsWith (code i) "_CORRIDOR_WIDTH" = true.
Proof.
  apply (narrow_path_fails_ADA decimalString narrowPath
           [{| from := "r1"; to := "r2"; pwidth := 2.5 |}]
           {| from := "r1"; to := "r2"; pwidth := 2.5 |} (Some true)).
  - reflexivity.
  - now left.
  - reflexivity.
Defined.

Lemma ZZ_does_not_resolve : ~ resolves "ZZ" ["IBC"; "ADA"].
Proof. apply getApplicableCodes_nil. reflexivity. Qed.

Lemma ZZ_ownNames : ownNames "ZZ" ["IBC"; "ADA"].
Proof.
  split; [|repeat constructor]; simpl; intuition discriminate.
Qed.


Lemma US_IBC_resolves : resolves "US" ["IBC"].
Proof.
  exists [("IBC", IBC); ("ADA", ADA); ("IRC", IRC)], "IBC", IBC.
  split; [reflexivity | split; [now left | reflexivity]].
Qed.



(** The scenario of the specification: an office of 50 sq ft, a meeting room
    of 150 sq ft, one path of 2 ft, under US and IBC. *)
Definition scenarioResult : completion ComplianceResult :=
  checkCompliance decimalString twoRooms (settingsFor "US" ["IBC"]).

Lemma scenario_codes :
  exists r,
    scenarioResult = Return r
    /\ map code (issues r)
       = ["IBC_CORRIDOR_WIDTH"; "IBC_ROOM_AREA"; "IBC_ACCESSIBLE_ROUTE";
          "IBC_DOOR_WIDTH"]
    /\ warnings r = []
    /\ status r = NonCompliant.
Proof.
  eexists. split; [vm_compute; reflexivity|]. repeat split.
Qed.

(** C10 at the scenario. *)
Lemma checkCompliance_never_warning_witness :
  exists r,
    checkCompliance decimalString twoRooms (settingsFor "US" ["IBC"])
    = Return r
    /\ status r <> Warning
    /\ (resolves "US" ["IBC"] ->
        Forall (fun i => severity i = SevCritical) (issues r)
        /\ (status r = Compliant \/ status r = NonCompliant)
        /\ (issues r = [] -> status r = Compliant)
        /\ (issues r <> [] -> status r = NonCompliant)).
Proof.
  eexists. split; [vm_compute; reflexivity|].
  apply (proj2 (checkCompliance_never_warning decimalString twoRooms
                  (settingsFor "US" ["IBC"]))).
  vm_compute; reflexivity.
Defined.

(** With a table that has an accessibility block and no room-area rule, a
    warning does come alone, and the status stays compliant: the final step
    looks at the issues only. *)
Definition accessibilityOnly : CodeData :=
  {| key := "X"; data_name := "X"; data_version := "1";
     rules :=
       {| corridorWidth := None; exitWidth := None; doorWidth := None;
          roomArea := None;
          accessibility := Some {| acc_doorWidth := 32;
                                   acc_corridorWidth := 36;
                                   acc_turningSpace := 60 |};
          turningSpace := None; reachRanges := None; bedroomArea := None;
          ceilingHeight := None; windowArea := None; hallwayWidth := None |} |}.

Definition smallRestroom : LayoutData :=
  {| rooms := Some [{| id := "r1"; name := "Restroom"; area := 20;
                       x := 0; y := 0; width := 4; height := 5 |}];
     circulation := Some [] |}.

Lemma warning_alone_is_compliant :
  exists r,
    checkComplianceWith decimalString smallRestroom "US" [accessibilityOnly]
    = Return r
    /\ issues r = []
    /\ map code (warnings r) = ["X_TURNING_SPACE"]
    /\ status r = Compliant.
Proof.
  eexists. split; [vm_compute; reflexivity|]. repeat split.
Qed.



(** *** The further properties at sample inputs *)

Lemma US_ADA_resolves : resolves "US" ["ADA"].
Proof.
  exists [("IBC", IBC); ("ADA", ADA); ("IRC", IRC)], "ADA", ADA.
  split; [reflexivity | split; [now left | reflexivity]].
Qed.

(** The summary at the scenario of the specification. *)
Lemma checkCompliance_summary_witness :
  exists r,
    checkCompliance decimalString twoRooms (settingsFor "US" ["IBC"])
    = Return r
    /\ failed (summary r) = List.length (issues r)
    /\ warningCount (summary r) = List.length (warnings r)
    /\ totalChecks (summary r)
       = (passed (summary r) + failed (summary r)
          + warningCount (summary r))%nat
    /\ exists r0,
         runAllCodeChecks decimalString twoRooms
           (getApplicableCodes "US" ["IBC"]) initialResults = Return r0
         /\ summary r = summary r0.
Proof.
  eexists. split; [vm_compute; reflexivity|].
  apply (checkCompliance_summary decimalString twoRooms
           (settingsFor "US" ["IBC"]) _ US_IBC_resolves).
  vm_compute; reflexivity.
Defined.

Lemma issues_report_shortfall_witness :
  exists r,
    checkCompliance decimalString twoRooms (settingsFor "US" ["IBC"])
    = Return r
    /\ Forall
         (fun issue =>
            severity issue = SevCritical
            /\ location issue <> None
            /\ exists found wanted,
                 actual issue = Some found /\ required issue = Some wanted
                 /\ found < wanted)
         (issues r).
Proof.
  eexists. split; [vm_compute; reflexivity|].
  apply (issues_report_shortfall decimalString twoRooms
           (settingsFor "US" ["IBC"]) _ US_IBC_resolves).
  vm_compute; reflexivity.
Defined.

Lemma US_IBC_ADA_ownNames : ownNames "US" (["IBC"] ++ ["ADA"]).
Proof.
  split; [|repeat constructor]; simpl; intuition discriminate.
Qed.

(** The scenario checked under the IBC, under the ADA, and under both. *)
Lemma checkCompliance_codes_append_witness :
  exists r1 r2,
    checkCompliance decimalString twoRooms
      (settingsOf "US" ["IBC"] (Some true)) = Return r1
    /\ checkCompliance decimalString twoRooms
         (settingsOf "US" ["ADA"] (Some true)) = Return r2
    /\ exists r,
         checkCompliance decimalString twoRooms
           (settingsOf "US" (["IBC"] ++ ["ADA"]) (Some true)) = Return r
         /\ issues r = (issues r1 ++ issues r2)%list
         /\ warnings r = (warnings r1 ++ warnings r2)%list
         /\ passed (summary r)
            = (passed (summary r1) + passed (summary r2))%nat
         /\ failed (summary r)
            = (failed (summary r1) + failed (summary r2))%nat
         /\ warningCount (summary r)
            = (warningCount (summary r1) + warningCount (summary r2))%nat
         /\ totalChecks (summary r)
            = (totalChecks (summary r1) + totalChecks (summary r2))%nat
         /\ status r
            = match status r1, status r2 with
              | Compliant, Compliant => Compliant
              | _, _ => NonCompliant
              end.
Proof.
  eexists _, _.
  split; [vm_compute; reflexivity|]. split; [vm_compute; reflexivity|].
  apply (checkCompliance_codes_append decimalString twoRooms "US"
           ["IBC"] ["ADA"] (Some true) _ _ US_IBC_ADA_ownNames
           US_IBC_resolves US_ADA_resolves);
    vm_compute; reflexivity.
Defined.

(** The report for the country ZZ of the specification. *)
Lemma report_of_config_error_witness :
  exists r,
    checkCompliance decimalString twoRooms (settingsFor "ZZ" ["IBC"; "ADA"])
    = Return r
    /\ generateComplianceReport decimalString r
       = {| report_status := StatusError;
            report_summary :=
              {| report_totalChecks := 0; report_passed := 0;
                 report_failed := 0; report_warningCount := 0;
                 complianceRate := 100 |};
            criticalIssues := [];
            report_warnings := [];
            report_recommendations := [];
            nextSteps := compliantSteps |}.
Proof.
  exact (report_of_config_error decimalString twoRooms
           (settingsFor "ZZ" ["IBC"; "ADA"]) ZZ_ownNames ZZ_does_not_resolve).
Defined.

Lemma report_of_checked_layout_witness :
  exists r,
    checkCompliance decimalString twoRooms (settingsFor "US" ["IBC"])
    = Return r
    /\ criticalIssues (generateComplianceReport decimalString r) = issues r
    /\ (0 <= complianceRate
               (report_summary (generateComplianceReport decimalString r))
        /\ complianceRate
             (report_summary (generateComplianceReport decimalString r))
           <= 100)
    /\ (issues r = [] -> warnings r = [] ->
        complianceRate
          (report_summary (generateComplianceReport decimalString r)) = 100)
    /\ nextSteps (generateComplianceReport decimalString r)
       = match issues r with
         | [] => compliantSteps
         | _ :: _ => nonCompliantSteps
         end.
Proof.
  eexists. split; [vm_compute; reflexivity|].
  apply (report_of_checked_layout decimalString twoRooms
           (settingsFor "US" ["IBC"]) _ US_IBC_resolves).
  vm_compute; reflexivity.
Defined.

Lemma supported_countries_resolve_witness :
  ~ In "CA" inheritedNames
  /\ ((exists codeKeys, resolves "CA" codeKeys)
      <-> In "CA" (map country_code getSupportedCountries)).
Proof.
  assert (H : ~ In "CA" inheritedNames) by (simpl; intuition discriminate).
  split; [exact H|].
  exact (proj1 (supported_countries_resolve "CA" H)).
Defined.

(** A request for the IBC and for a code that the US does not have. *)
Lemma getApplicableCodes_available_witness :
  ownNames "US" ["IBC"; "XYZ"]
  /\ map key (getApplicableCodes "US" ["IBC"; "XYZ"]) = ["IBC"].
Proof.
  assert (H : ownNames "US" ["IBC"; "XYZ"])
    by (split; [|repeat constructor]; simpl; intuition discriminate).
  split; [exact H|].
  exact (proj1 (getApplicableCodes_available "US" ["IBC"; "XYZ"] H)).
Defined.

(** The recommendations for the four issues of the scenario: one for each
    of corridor width, room area and accessible route, none for the door
    width. *)
Example scenario_recommendations :
  exists r,
    scenarioResult = Return r
    /\ map title (generateComplianceRecommendations decimalString
                    (issues r) (warnings r))
       = ["Increase Corridor Widths"; "Increase Room Sizes";
          "Improve Accessibility"].
Proof.
  eexists. split; [vm_compute; reflexivity|]. reflexivity.
Qed.

End BuildingCodesService.

(** ** The built-ins JSON.stringify and JSON.parse

    [exportToJSON] is [JSON.stringify(exportData, null, 2)]; the round trip
    the specification states reads the text back with [JSON.parse].  Both
    are modelled here from ECMA-262 (SerializeJSONProperty with a gap of two
    spaces, QuoteJSONString) and ECMA-404 (the grammar of JSON texts). *)

Module JSON.

Import JS.
Local Open Scope string_scope.

(** A JavaScript value that JSON can represent.  An object is the list of
    its own properties in enumeration order. *)
#[local] Set Warnings "-register-all".

Inductive value : Type :=
| Null
| Bool (b : bool)
| Number (n : Q)
| Str (s : string)
| Array (items : list value)
| Object (members : list (string * value)).

(** [obj[key]] *)
Fixpoint getProperty (members : list (string * value)) (key : string)
  : option value :=
  match members with
  | [] => None
  | (k, v) :: members' =>
      if String.eqb k key then Some v else getProperty members' key
  end.

Definition get (v : value) (key : string) : option value :=
  match v with
  | Object members => getProperty members key
  | _ => None
  end.

(** [obj[key] = v]: an existing property keeps its place. *)
Fixpoint setProperty (members : list (string * value)) (key : string)
    (v : value) : list (string * value) :=
  match members with
  | [] => [(key, v)]
  | (k, v0) :: members' =>
      if String.eqb k key then (k, v) :: members'
      else (k, v0) :: setProperty members' key v
  end.

(** *** JSON.stringify(value, null, 2) *)

Definition backslash : ascii := ascii_of_nat 92.

Definition hexDigit (n : nat) : ascii :=
  if (n <? 10)%nat then ascii_of_nat (48 + n)%nat
  else ascii_of_nat (87 + n)%nat.

Definition escape (c : ascii) : string := String backslash (String c EmptyString).

(** QuoteJSONString, one code unit at a time. *)
Definition quoteChar (c : ascii) : string :=
  let n := nat_of_ascii c in
  if (n =? 8)%nat then escape "b"
  else if (n =? 9)%nat then escape "t"
  else if (n =? 10)%nat then escape "n"
  else if (n =? 12)%nat then escape "f"
  else if (n =? 13)%nat then escape "r"
  else if (n =? 34)%nat then escape c
  else if (n =? 92)%nat then escape c
  else if (n <? 32)%nat
       then escape "u" ++ "00"
            ++ String (hexDigit (n / 16)%nat)
                 (String (hexDigit (n mod 16)%nat) EmptyString)
       else String c EmptyString.

Fixpoint quoteChars (s : string) : string :=
  match s with
  | EmptyString => EmptyString
  | String c s' => quoteChar c ++ quoteChars s'
  end.

Definition quote (s : string) : string :=
  dquote ++ quoteChars s ++ dquote.

Definition gap : string := "  ".

Section Codec.

(** Number::toString, and the reading of a JSON number token. *)
Variable numToString : Q -> string.
Variable parseNumber : string -> option Q.

(** SerializeJSONProperty at the indentation [indent]. *)
Fixpoint serialize (indent : string) (v : value) : string :=
  match v with
  | Null => "null"
  | Bool true => "true"
  | Bool false => "false"
  | Number n => numToString n
  | Str s => quote s
  | Array [] => "[]"
  | Array items =>
      let stepback := indent in
      let indent := indent ++ gap in
      "[" ++ newline ++ indent
      ++ join ("," ++ newline ++ indent) (map (serialize indent) items)
      ++ newline ++ stepback ++ "]"
  | Object [] => "{}"
  | Object members =>
      let stepback := indent in
      let indent := indent ++ gap in
      "{" ++ newline ++ indent
      ++ join ("," ++ newline ++ indent)
           (map (fun member =>
                   quote (fst member) ++ ": " ++ serialize indent (snd member))
              members)
      ++ newline ++ stepback ++ "}"
  end.

Definition stringify (v : value) : string := serialize EmptyString v.

(** *** JSON.parse(text) *)

Definition isWhitespace (c : ascii) : bool :=
  let n := nat_of_ascii c in
  (n =? 32)%nat || (n =? 9)%nat || (n =? 10)%nat || (n =? 13)%nat.

Fixpoint skipWhitespace (s : string) : string :=
  match s with
  | String c s' => if isWhitespace c then skipWhitespace s' else s
  | EmptyString => EmptyString
  end.

Definition isDigit (c : ascii) : bool :=
  let n := nat_of_ascii c in (48 <=? n)%nat && (n <=? 57)%nat.

(** The characters of a number token: digits, sign, point, exponent. *)
Definition isNumberChar (c : ascii) : bool :=
  isDigit c
  || Ascii.eqb c "-" || Ascii.eqb c "+" || Ascii.eqb c "."
  || Ascii.eqb c "e" || Ascii.eqb c "E".

Fixpoint spanNumber (s : string) : string * string :=
  match s with
  | String c s' =>
      if isNumberChar c
      then let '(token, rest) := spanNumber s' in (String c token, rest)
      else (EmptyString, s)
  | EmptyString => (EmptyString, EmptyString)
  end.

Definition hexValue (c : ascii) : option nat :=
  let n := nat_of_ascii c in
  if ((48 <=? n) && (n <=? 57))%nat then Some (n - 48)%nat
  else if ((97 <=? n) && (n <=? 102))%nat then Some (n - 87)%nat
  else if ((65 <=? n) && (n <=? 70))%nat then Some (n - 55)%nat
  else None.

(** The character a two-character escape stands for. *)
Definition unescape (c : ascii) : option ascii :=
  let n := nat_of_ascii c in
  if (n =? 34)%nat || (n =? 92)%nat || (n =? 47)%nat then Some c
  else if Ascii.eqb c "b" then Some (ascii_of_nat 8)
  else if Ascii.eqb c "f" then Some (ascii_of_nat 12)
  else if Ascii.eqb c "n" then Some (ascii_of_nat 10)
  else if Ascii.eqb c "r" then Some (ascii_of_nat 13)
  else if Ascii.eqb c "t" then Some (ascii_of_nat 9)
  else None.

Definition consChar (c : ascii) (r : option (string * string))
  : option (string * string) :=
  match r with
  | Some (s, rest) => Some (String c s, rest)
  | None => None
  end.

(** The characters of a string up to its closing quote, and what follows
    the quote.  A [\uXXXX] escape above 00FF names a code unit that the
    strings of this model do not have; it is rejected. *)
Fixpoint parseStringBody (s : string) : option (string * string) :=
  match s with
  | EmptyString => None
  | String c s' =>
      if (nat_of_ascii c =? 34)%nat then Some (EmptyString, s')
      else if (nat_of_ascii c =? 92)%nat then
        match s' with
        | EmptyString => None
        | String e s'' =>
            match unescape e with
            | Some c' => consChar c' (parseStringBody s'')
            | None =>
                if Ascii.eqb e "u" then
                  match s'' with
                  | String h1 (String h2 (String h3 (String h4 s3))) =>
                      match hexValue h1, hexValue h2, hexValue h3, hexValue h4 with
                      | Some d1, Some d2, Some d3, Some d4 =>
                          let unit := (((d1 * 16 + d2) * 16 + d3) * 16 + d4)%nat in
                          if (unit <? 256)%nat
                          then consChar (ascii_of_nat unit) (parseStringBody s3)
                          else None
                      | _, _, _, _ => None
                      end
                  | _ => None
                  end
                else None
            end
        end
      else if (nat_of_ascii c <? 32)%nat then None
      else consChar c (parseStringBody s')
  end.

(** [s] without the prefix [p], when it starts with it. *)
Fixpoint stripPrefix (p s : string) : option string :=
  match p, s with
  | EmptyString, _ => Some s
  | String a p', String b s' => if Ascii.eqb a b then stripPrefix p' s' else None
  | String _ _, EmptyString => None
  end.

Definition literal (word : string) (v : value) (s : string)
  : option (value * string) :=
  match stripPrefix word s with
  | Some rest => Some (v, rest)
  | None => None
  end.

(** [s] after its first character, when that is [c]. *)
Definition startsWith (c : ascii) (s : string) : option string :=
  match s with
  | String c' s' => if Ascii.eqb c' c then Some s' else None
  | EmptyString => None
  end.

(** The recursive descent; [fuel] bounds the number of nested calls. *)
Fixpoint parseValue (fuel : nat) (s : string) : option (value * string) :=
  match fuel with
  | O => None
  | S fuel' =>
      match skipWhitespace s with
      | EmptyString => None
      | String c s' =>
          if Ascii.eqb c "n" then literal "null" Null (String c s')
          else if Ascii.eqb c "t" then literal "true" (Bool true) (String c s')
          else if Ascii.eqb c "f" then literal "false" (Bool false) (String c s')
          else if (nat_of_ascii c =? 34)%nat then
            match parseStringBody s' with
            | Some (str, rest) => Some (Str str, rest)
            | None => None
            end
          else if Ascii.eqb c "[" then
            match startsWith "]" (skipWhitespace s') with
            | Some rest => Some (Array [], rest)
            | None =>
                match parseElements fuel' s' with
                | Some (items, rest) => Some (Array items, rest)
                | None => None
                end
            end
          else if Ascii.eqb c "{" then
            match startsWith "}" (skipWhitespace s') with
            | Some rest => Some (Object [], rest)
            | None =>
                match parseMembers fuel' s' with
                | Some (members, rest) =>
                    Some (Object
                            (fold_left
                               (fun obj member =>
                                  setProperty obj (fst member) (snd member))
                               members []),
                          rest)
                | None => None
                end
            end
          else if isNumberChar c then
            let '(token, rest) := spanNumber (String c s') in
            match parseNumber token with
            | Some n => Some (Number n, rest)
            | None => None
            end
          else None
      end
  end
with parseElements (fuel : nat) (s : string)
  : option (list value * string) :=
  match fuel with
  | O => None
  | S fuel' =>
      match parseValue fuel' s with
      | Some (v, rest) =>
          match startsWith "," (skipWhitespace rest) with
          | Some rest' =>
              match parseElements fuel' rest' with
              | Some (vs, rest'') => Some (v :: vs, rest'')
              | None => None
              end
          | None =>
              match startsWith "]" (skipWhitespace rest) with
              | Some rest' => Some ([v], rest')
              | None => None
              end
          end
      | None => None
      end
  end
with parseMembers (fuel : nat) (s : string)
  : option (list (string * value) * string) :=
  match fuel with
  | O => None
  | S fuel' =>
      match startsWith "034" (skipWhitespace s) with
      | Some s' =>
          match parseStringBody s' with
          | Some (key, afterKey) =>
              match startsWith ":" (skipWhitespace afterKey) with
              | Some afterColon =>
                  match parseValue fuel' afterColon with
                  | Some (v, rest) =>
                      match startsWith "," (skipWhitespace rest) with
                      | Some rest' =>
                          match parseMembers fuel' rest' with
                          | Some (ms, rest'') => Some ((key, v) :: ms, rest'')
                          | None => None
                          end
                      | None =>
                          match startsWith "}" (skipWhitespace rest) with
                          | Some rest' => Some ([(key, v)], rest')
                          | None => None
                          end
                      end
                  | None => None
                  end
              | None => None
              end
          | None => None
          end
      | None => None
      end
  end.

(** [JSON.parse(text)]; [None] is the SyntaxError. *)
Definition parse (text : string) : option value :=
  match parseValue (S (String.length text)) text with
  | Some (v, rest) =>
      match skipWhitespace rest with
      | EmptyString => Some v
      | String _ _ => None
      end
  | None => None
  end.

(** *** The round trip *)

Lemma append_assoc (a b c : string) : (a ++ b) ++ c = a ++ (b ++ c).
Proof. induction a as [|ch a IH]; simpl; [reflexivity | now rewrite IH]. Qed.

Lemma append_length (a b : string) :
  String.length (a ++ b) = (String.length a + String.length b)%nat.
Proof. induction a as [|ch a IH]; simpl; [reflexivity | now rewrite IH]. Qed.

Fixpoint blank (s : string) : bool :=
  match s with
  | EmptyString => true
  | String c s' => isWhitespace c && blank s'
  end.

Lemma blank_append (a b : string) :
  blank a = true -> blank b = true -> blank (a ++ b) = true.
Proof.
  induction a as [|ch a IH]; simpl; intros Ha Hb; [exact Hb|].
  apply andb_true_iff in Ha as [Hc Ha]. now rewrite Hc, IH.
Qed.

Lemma skipWhitespace_blank (ws s : string) :
  blank ws = true -> skipWhitespace (ws ++ s) = skipWhitespace s.
Proof.
  induction ws as [|ch ws IH]; simpl; intro H; [reflexivity|].
  apply andb_true_iff in H as [Hc H]. now rewrite Hc, IH.
Qed.

Lemma skipWhitespace_head (c : ascii) (s : string) :
  isWhitespace c = false -> skipWhitespace (String c s) = String c s.
Proof. intro H. simpl. now rewrite H. Qed.

Lemma parseValue_blank fuel ws s :
  blank ws = true -> parseValue fuel (ws ++ s) = parseValue fuel s.
Proof.
  intro H. destruct fuel; [reflexivity|]. simpl.
  now rewrite skipWhitespace_blank.
Qed.

Lemma parseElements_blank fuel ws s :
  blank ws = true -> parseElements fuel (ws ++ s) = parseElements fuel s.
Proof.
  intro H. destruct fuel; [reflexivity|]. simpl.
  now rewrite parseValue_blank.
Qed.

Lemma parseMembers_blank fuel ws s :
  blank ws = true -> parseMembers fuel (ws ++ s) = parseMembers fuel s.
Proof.
  intro H. destruct fuel; [reflexivity|]. simpl.
  now rewrite skipWhitespace_blank.
Qed.

(** **** Strings *)

Lemma parseStringBody_quoteChar (c : ascii) (s : string) :
  parseStringBody (quoteChar c ++ s) = consChar c (parseStringBody s).
Proof.
  destruct c as [b0 b1 b2 b3 b4 b5 b6 b7].
  destruct b0, b1, b2, b3, b4, b5, b6, b7; reflexivity.
Qed.

Lemma parseStringBody_quoteChars (str rest : string) :
  parseStringBody (quoteChars str ++ String "034"%char rest)
  = Some (str, rest).
Proof.
  induction str as [|c str IH]; [reflexivity|].
  cbn [quoteChars]. rewrite append_assoc, parseStringBody_quoteChar, IH.
  reflexivity.
Qed.

Lemma quote_append (str rest : string) :
  quote str ++ rest
  = String "034"%char (quoteChars str ++ String "034"%char rest).
Proof.
  unfold quote, dquote. change (ascii_of_nat 34) with "034"%char.
  cbn [append]. now rewrite append_assoc.
Qed.

(** **** Numbers *)

Fixpoint allNumberChars (s : string) : bool :=
  match s with
  | EmptyString => true
  | String c s' => isNumberChar c && allNumberChars s'
  end.

(** What follows a value in a text: no character of a number token. *)
Definition delimited (rest : string) : Prop :=
  match rest with
  | EmptyString => True
  | String c _ => isNumberChar c = false
  end.

Lemma spanNumber_token (token rest : string) :
  allNumberChars token = true -> delimited rest ->
  spanNumber (token ++ rest) = (token, rest).
Proof.
  induction token as [|c token IH]; simpl; intros Ht Hr.
  - destruct rest as [|c rest]; [reflexivity|]. simpl in *. now rewrite Hr.
  - apply andb_true_iff in Ht as [Hc Ht]. now rewrite Hc, IH.
Qed.

Lemma numberChar_dispatch (c : ascii) :
  isNumberChar c = true ->
  isWhitespace c = false
  /\ Ascii.eqb c "n" = false /\ Ascii.eqb c "t" = false
  /\ Ascii.eqb c "f" = false /\ (nat_of_ascii c =? 34)%nat = false
  /\ Ascii.eqb c "[" = false /\ Ascii.eqb c "{" = false
  /\ Ascii.eqb c "]" = false /\ Ascii.eqb c "}" = false.
Proof.
  destruct c as [b0 b1 b2 b3 b4 b5 b6 b7].
  destruct b0, b1, b2, b3, b4, b5, b6, b7; intro H;
    try discriminate H; repeat split.
Qed.

(** **** Values *)

(** A number the codec carries: its text is a number token that reads back
    as the number.  (ECMA-262 states this of every finite number.) *)
Definition numberOk (n : Q) : Prop :=
  numToString n <> EmptyString
  /\ allNumberChars (numToString n) = true
  /\ parseNumber (numToString n) = Some n.

(** The values JSON represents: the numbers are carried by the codec and
    the property names of an object are distinct. *)
Inductive representable : value -> Prop :=
| rep_null : representable Null
| rep_bool b : representable (Bool b)
| rep_number n : numberOk n -> representable (Number n)
| rep_string s : representable (Str s)
| rep_array items :
    Forall representable items -> representable (Array items)
| rep_object members :
    NoDup (map fst members) ->
    Forall (fun member => representable (snd member)) members ->
    representable (Object members).

Fixpoint size (v : value) : nat :=
  match v with
  | Array items => S (list_sum (map (fun item => S (size item)) items))
  | Object members =>
      S (list_sum (map (fun member => S (size (snd member))) members))
  | _ => 1
  end.

Section value_induction.

Variable P : value -> Prop.
Hypothesis P_null : P Null.
Hypothesis P_bool : forall b, P (Bool b).
Hypothesis P_number : forall n, P (Number n).
Hypothesis P_string : forall s, P (Str s).
Hypothesis P_array : forall items, Forall P items -> P (Array items).
Hypothesis P_object :
  forall members, Forall (fun member => P (snd member)) members ->
                  P (Object members).

Fixpoint value_induction (v : value) : P v :=
  match v with
  | Null => P_null
  | Bool b => P_bool b
  | Number n => P_number n
  | Str s => P_string s
  | Array items =>
      P_array items
        ((fix all (l : list value) : Forall P l :=
            match l with
            | [] => Forall_nil P
            | item :: l' => Forall_cons item (value_induction item) (all l')
            end) items)
  | Object members =>
      P_object members
        ((fix all (l : list (string * value))
            : Forall (fun member => P (snd member)) l :=
            match l with
            | [] => Forall_nil _
            | member :: l' =>
                Forall_cons member (value_induction (snd member)) (all l')
            end) members)
  end.

End value_induction.

Lemma setProperty_fresh (members : list (string * value)) key v :
  ~ In key (map fst members) ->
  setProperty members key v = (members ++ [(key, v)])%list.
Proof.
  induction members as [|[k v0] members IH]; simpl; intro H; [reflexivity|].
  destruct (String.eqb_spec k key) as [->|Hne]; [exfalso; auto|].
  rewrite IH; [reflexivity | tauto].
Qed.

Lemma assign_distinct (members acc : list (string * value)) :
  NoDup (map fst (acc ++ members)%list) ->
  fold_left (fun obj member => setProperty obj (fst member) (snd member))
    members acc
  = (acc ++ members)%list.
Proof.
  revert acc. induction members as [|[k v] members IH]; intros acc H; simpl.
  - now rewrite app_nil_r.
  - rewrite setProperty_fresh.
    + rewrite IH; rewrite <- app_assoc; [reflexivity | exact H].
    + rewrite map_app in H. simpl in H.
      apply NoDup_remove_2 in H. rewrite in_app_iff in H. tauto.
Qed.

Lemma serialize_head indent v rest :
  representable v ->
  exists c t,
    serialize indent v ++ rest = String c t
    /\ isWhitespace c = false
    /\ Ascii.eqb c "]" = false.
Proof.
  intro Hv. destruct v as [|[|]|n|s|[|item items]|[|member members]];
    try (eexists; eexists; split; [reflexivity | split; reflexivity]).
  - inversion Hv as [| |? (Hne & Hall & _)| | |]; subst.
    destruct (numToString n) as [|c t] eqn:Hn; [contradiction|].
    simpl in Hall. apply andb_true_iff in Hall as [Hc _].
    exists c, (t ++ rest). cbn [serialize]. rewrite Hn.
    split; [reflexivity|].
    destruct (numberChar_dispatch c Hc) as (H1 & _ & _ & _ & _ & _ & _ & H2 & _).
    now split.
Qed.

Lemma startsWith_head (c : ascii) (s : string) :
  startsWith c (String c s) = Some s.
Proof. simpl. now rewrite Ascii.eqb_refl. Qed.

(** What the induction carries for a value. *)
Definition reads_back (v : value) : Prop :=
  representable v ->
  forall indent rest fuel,
    blank indent = true -> delimited rest -> (size v <= fuel)%nat ->
    parseValue fuel (serialize indent v ++ rest) = Some (v, rest).

Definition separator (indent : string) : string := "," ++ newline ++ indent.

Lemma skipWhitespace_separator (indent s : string) :
  skipWhitespace (separator indent ++ s)
  = String "," (newline ++ indent ++ s).
Proof.
  unfold separator. rewrite !append_assoc. reflexivity.
Qed.

Lemma parseElements_items (items : list value) :
  Forall reads_back items -> Forall representable items ->
  forall item indent stepback rest fuel,
    reads_back item -> representable item ->
    blank indent = true -> blank stepback = true ->
    (list_sum (map (fun x => S (size x)) (item :: items)) <= fuel)%nat ->
    parseElements fuel
      (join (separator indent) (map (serialize indent) (item :: items))
       ++ newline ++ stepback ++ String "]" rest)
    = Some (item :: items, rest).
Proof.
  induction 1 as [|next items Hnext _ IH];
    intros Hrep item indent stepback rest fuel Hitem Hr Hi Hs Hfuel.
  - destruct fuel as [|fuel]; [simpl in Hfuel; lia|].
    cbn [map join]. cbn [parseElements].
    rewrite (Hitem Hr indent _ fuel Hi);
      [|reflexivity | simpl in Hfuel; lia].
    rewrite skipWhitespace_blank by reflexivity.
    rewrite skipWhitespace_blank by exact Hs.
    reflexivity.
  - destruct fuel as [|fuel]; [simpl in Hfuel; lia|].
    inversion Hrep as [|? ? Hrnext Hritems]; subst.
    change (join (separator indent)
              (map (serialize indent) (item :: next :: items)))
      with (serialize indent item ++ separator indent
            ++ join (separator indent)
                 (map (serialize indent) (next :: items))).
    rewrite !append_assoc. cbn [parseElements].
    rewrite (Hitem Hr indent _ fuel Hi);
      [|reflexivity | simpl in Hfuel; lia].
    rewrite skipWhitespace_separator, startsWith_head.
    rewrite parseElements_blank by reflexivity.
    rewrite parseElements_blank by exact Hi.
    rewrite (IH Hritems next indent stepback rest fuel Hnext Hrnext Hi Hs);
      [reflexivity | simpl in Hfuel |- *; lia].
Qed.

Definition memberText (indent : string) (member : string * value) : string :=
  quote (fst member) ++ ": " ++ serialize indent (snd member).

Lemma skipWhitespace_colon (s : string) :
  skipWhitespace (": " ++ s) = String ":" (" " ++ s).
Proof. reflexivity. Qed.

Lemma parseMembers_members (members : list (string * value)) :
  Forall (fun m => reads_back (snd m)) members ->
  Forall (fun m => representable (snd m)) members ->
  forall member indent stepback rest fuel,
    reads_back (snd member) -> representable (snd member) ->
    blank indent = true -> blank stepback = true ->
    (list_sum (map (fun m => S (size (snd m))) (member :: members)) <= fuel)%nat ->
    parseMembers fuel
      (join (separator indent) (map (memberText indent) (member :: members))
       ++ newline ++ stepback ++ String "}" rest)
    = Some (member :: members, rest).
Proof.
  induction 1 as [|next members Hnext _ IH];
    intros Hrep [key v] indent stepback rest fuel Hitem Hr Hi Hs Hfuel;
    simpl in Hitem, Hr.
  - destruct fuel as [|fuel]; [simpl in Hfuel; lia|].
    cbn [map join]. unfold memberText. cbn [fst snd].
    rewrite !append_assoc, quote_append.
    cbn [parseMembers].
    rewrite skipWhitespace_head by reflexivity.
    rewrite startsWith_head, parseStringBody_quoteChars.
    rewrite skipWhitespace_colon, startsWith_head.
    rewrite parseValue_blank by reflexivity.
    rewrite (Hitem Hr indent _ fuel Hi);
      [|reflexivity | simpl in Hfuel; lia].
    rewrite skipWhitespace_blank by reflexivity.
    rewrite skipWhitespace_blank by exact Hs.
    reflexivity.
  - destruct fuel as [|fuel]; [simpl in Hfuel; lia|].
    inversion Hrep as [|? ? Hrnext Hritems]; subst.
    change (join (separator indent)
              (map (memberText indent) ((key, v) :: next :: members)))
      with (memberText indent (key, v) ++ separator indent
            ++ join (separator indent)
                 (map (memberText indent) (next :: members))).
    unfold memberText at 1. cbn [fst snd].
    rewrite !append_assoc, quote_append.
    cbn [parseMembers].
    rewrite skipWhitespace_head by reflexivity.
    rewrite startsWith_head, parseStringBody_quoteChars.
    rewrite skipWhitespace_colon, startsWith_head.
    rewrite parseValue_blank by reflexivity.
    rewrite (Hitem Hr indent _ fuel Hi);
      [|reflexivity | simpl in Hfuel; lia].
    rewrite skipWhitespace_separator, startsWith_head.
    rewrite parseMembers_blank by reflexivity.
    rewrite parseMembers_blank by exact Hi.
    rewrite (IH Hritems next indent stepback rest fuel Hnext Hrnext Hi Hs);
      [reflexivity | simpl in Hfuel |- *; lia].
Qed.

Lemma parseValue_string fuel s :
  parseValue (S fuel) (String "034"%char s)
  = match parseStringBody s with
    | Some (str, rest) => Some (Str str, rest)
    | None => None
    end.
Proof. reflexivity. Qed.

Lemma parseValue_array fuel s :
  parseValue (S fuel) (String "[" s)
  = match startsWith "]" (skipWhitespace s) with
    | Some rest => Some (Array [], rest)
    | None =>
        match parseElements fuel s with
        | Some (items, rest) => Some (Array items, rest)
        | None => None
        end
    end.
Proof. reflexivity. Qed.

Lemma parseValue_object fuel s :
  parseValue (S fuel) (String "{" s)
  = match startsWith "}" (skipWhitespace s) with
    | Some rest => Some (Object [], rest)
    | None =>
        match parseMembers fuel s with
        | Some (members, rest) =>
            Some (Object
                    (fold_left
                       (fun obj member =>
                          setProperty obj (fst member) (snd member))
                       members []),
                  rest)
        | None => None
        end
    end.
Proof. reflexivity. Qed.

Lemma parseValue_number fuel c t rest n :
  isNumberChar c = true -> allNumberChars t = true -> delimited rest ->
  parseNumber (String c t) = Some n ->
  parseValue (S fuel) (String c (t ++ rest)) = Some (Number n, rest).
Proof.
  intros Hc Ht Hrest Hn.
  destruct (numberChar_dispatch c Hc)
    as (Hws & H1 & H2 & H3 & H4 & H5 & H6 & _).
  cbn [parseValue]. rewrite skipWhitespace_head by exact Hws.
  rewrite H1, H2, H3, H4, H5, H6, Hc.
  change (String c (t ++ rest)) with (String c t ++ rest).
  rewrite spanNumber_token; [now rewrite Hn | simpl; now rewrite Hc | exact Hrest].
Qed.

Lemma gap_blank (indent : string) :
  blank indent = true -> blank (indent ++ gap) = true.
Proof. intro H. now apply blank_append. Qed.

Theorem parseValue_serialize (v : value) : reads_back v.
Proof.
  induction v as [|b|n|s|items IH|members IH] using value_induction;
    intros Hv indent rest fuel Hindent Hrest Hfuel;
    (destruct fuel as [|fuel]; [simpl in Hfuel; lia|]).
  - reflexivity.
  - destruct b; reflexivity.
  - inversion Hv as [| |? (Hne & Hall & Hparse)| | |]; subst.
    cbn [serialize]. destruct (numToString n) as [|c t] eqn:Hn;
      [contradiction|].
    simpl in Hall. apply andb_true_iff in Hall as [Hc Ht].
    now apply parseValue_number.
  - cbn [serialize]. rewrite quote_append, parseValue_string.
    now rewrite parseStringBody_quoteChars.
  - destruct items as [|item items]; [reflexivity|].
    inversion Hv as [| | | |? Hitems|]; subst.
    inversion Hitems as [|? ? Hitem Hrest']; subst.
    inversion IH as [|? ? IHitem IHrest]; subst.
    cbn [serialize].
    change (fun v0 => serialize (indent ++ gap) v0)
      with (serialize (indent ++ gap)).
    fold (separator (indent ++ gap)).
    rewrite !append_assoc. cbn [append]. rewrite parseValue_array.
    rewrite skipWhitespace_blank by reflexivity.
    rewrite skipWhitespace_blank by exact Hindent.
    rewrite skipWhitespace_blank by reflexivity.
    rewrite parseElements_blank by reflexivity.
    rewrite parseElements_blank by exact Hindent.
    rewrite parseElements_blank by reflexivity.
    assert (Hhead : exists c t,
               join (separator (indent ++ gap))
                 (map (serialize (indent ++ gap)) (item :: items))
               ++ newline ++ indent ++ String "]" rest = String c t
               /\ isWhitespace c = false /\ Ascii.eqb c "]" = false).
    { destruct items as [|next items].
      - cbn [map join]. now apply serialize_head.
      - change (join ?sep (map ?f (item :: next :: items)))
          with (f item ++ sep ++ join sep (map f (next :: items))).
        rewrite append_assoc. now apply serialize_head. }
    destruct Hhead as (c & t & Heq & Hws & Hclose).
    rewrite (parseElements_items items IHrest Hrest' item (indent ++ gap)
               indent rest fuel IHitem Hitem (gap_blank _ Hindent) Hindent)
      by (simpl in Hfuel |- *; lia).
    rewrite Heq, skipWhitespace_head by exact Hws.
    cbn [startsWith]. now rewrite Hclose.
  - destruct members as [|member members]; [reflexivity|].
    inversion Hv as [| | | | |? Hkeys Hmembers]; subst.
    inversion Hmembers as [|? ? Hmember Hrest']; subst.
    inversion IH as [|? ? IHmember IHrest]; subst.
    cbn [serialize].
    change (fun member0 : string * value =>
              quote (fst member0) ++ ": "
              ++ serialize (indent ++ gap) (snd member0))
      with (memberText (indent ++ gap)).
    fold (separator (indent ++ gap)).
    rewrite !append_assoc. cbn [append]. rewrite parseValue_object.
    rewrite skipWhitespace_blank by reflexivity.
    rewrite skipWhitespace_blank by exact Hindent.
    rewrite skipWhitespace_blank by reflexivity.
    rewrite parseMembers_blank by reflexivity.
    rewrite parseMembers_blank by exact Hindent.
    rewrite parseMembers_blank by reflexivity.
    rewrite (parseMembers_members members IHrest Hrest' member
               (indent ++ gap) indent rest fuel IHmember Hmember
               (gap_blank _ Hindent) Hindent)
      by (simpl in Hfuel |- *; lia).
    rewrite (assign_distinct (member :: members) []) by exact Hkeys.
    destruct member as [key v]. destruct members as [|next members].
    + cbn [map join]. unfold memberText. cbn [fst].
      now rewrite !append_assoc, quote_append.
    + change (join ?sep (map ?f ((key, v) :: next :: members)))
        with (f (key, v) ++ sep ++ join sep (map f (next :: members))).
      unfold memberText at 1. cbn [fst].
      now rewrite !append_assoc, quote_append.
Qed.

(** **** Enough fuel *)

Lemma append_empty (s : string) : s ++ EmptyString = s.
Proof. induction s as [|c s IH]; simpl; [reflexivity | now rewrite IH]. Qed.

Lemma join_length {A : Type} (weight : A -> nat) (text : A -> string)
    (sep : string) (items : list A) :
  (1 <= String.length sep)%nat ->
  Forall (fun item => (weight item <= String.length (text item))%nat) items ->
  (list_sum (map (fun item => S (weight item)) items)
   <= String.length (join sep (map text items)) + 1)%nat.
Proof.
  intros Hsep. induction 1 as [|item items Hitem Hitems IH]; [simpl; lia|].
  destruct items as [|next items]; [simpl in *; lia|].
  change (join sep (map text (item :: next :: items)))
    with (text item ++ sep ++ join sep (map text (next :: items))).
  rewrite !append_length. cbn [map] in *.
  unfold list_sum in *. cbn [fold_right] in *. lia.
Qed.

Lemma separator_length (indent : string) :
  (1 <= String.length (separator indent))%nat.
Proof. unfold separator. simpl. lia. Qed.

Lemma size_le_length (v : value) :
  representable v ->
  forall indent, (size v <= String.length (serialize indent v))%nat.
Proof.
  induction v as [|b|n|s|items IH|members IH] using value_induction;
    intros Hv indent.
  - simpl. lia.
  - destruct b; simpl; lia.
  - inversion Hv as [| |? (Hne & _)| | |]; subst. simpl.
    destruct (numToString n); [contradiction | simpl; lia].
  - simpl. lia.
  - destruct items as [|item items]; [simpl; lia|].
    inversion Hv as [| | | |? Hitems|]; subst.
    cbn [serialize size].
    rewrite !append_length.
    pose proof (join_length size (serialize (indent ++ gap))
                  (separator (indent ++ gap)) (item :: items)
                  (separator_length _)) as Hjoin.
    unfold separator in Hjoin.
    assert (Hall : Forall (fun x => (size x <= String.length
                                       (serialize (indent ++ gap) x))%nat)
                     (item :: items)).
    { apply Forall_forall. intros x Hx.
      rewrite Forall_forall in IH, Hitems. now apply IH; [|apply Hitems]. }
    specialize (Hjoin Hall).
    change (String.length newline) with 1%nat. simpl (String.length "]").
    lia.
  - destruct members as [|member members]; [simpl; lia|].
    inversion Hv as [| | | | |? _ Hmembers]; subst.
    cbn [serialize size].
    rewrite !append_length.
    pose proof (join_length (fun m => size (snd m))
                  (memberText (indent ++ gap))
                  (separator (indent ++ gap)) (member :: members)
                  (separator_length _)) as Hjoin.
    unfold separator, memberText in Hjoin.
    assert (Hall : Forall (fun m => (size (snd m)
                                     <= String.length
                                          (quote (fst m) ++ ": "
                                           ++ serialize (indent ++ gap) (snd m)))%nat)
                     (member :: members)).
    { apply Forall_forall. intros m Hm.
      rewrite Forall_forall in IH, Hmembers.
      specialize (IH m Hm (Hmembers m Hm) (indent ++ gap)).
      rewrite !append_length. lia. }
    specialize (Hjoin Hall).
    change (String.length newline) with 1%nat. simpl (String.length "}").
    lia.
Qed.

(** [JSON.parse(JSON.stringify(v, null, 2))] is [v]. *)
Theorem parse_stringify (v : value) :
  representable v -> parse (stringify v) = Some v.
Proof.
  intro Hv. unfold parse, stringify.
  rewrite <- (append_empty (serialize EmptyString v)) at 2.
  rewrite (parseValue_serialize v Hv EmptyString EmptyString);
    [reflexivity | reflexivity | exact I|].
  pose proof (size_le_length v Hv EmptyString). lia.
Qed.

End Codec.

(** *** A codec that computes *)

Definition digitValue (c : ascii) : Z := Z.of_nat (nat_of_ascii c - 48).

Fixpoint readDigits (s : string) (acc : Z) (places : nat)
  : option (Z * nat) :=
  match s with
  | EmptyString => Some (acc, places)
  | String c s' =>
      if isDigit c then readDigits s' (acc * 10 + digitValue c)%Z (S places)
      else None
  end.

Fixpoint splitAt (sep : ascii) (s : string) : string * option string :=
  match s with
  | EmptyString => (EmptyString, None)
  | String c s' =>
      if Ascii.eqb c sep then (EmptyString, Some s')
      else let '(a, b) := splitAt sep s' in (String c a, b)
  end.

(** The reading of a decimal token (sign, digits, point, digits), the
    inverse of [Samples.decimalString] on the numbers it prints in full. *)
Definition parseDecimal (token : string) : option Q :=
  let '(negative, body) :=
    match token with
    | String "-" body => (true, body)
    | _ => (false, token)
    end in
  let '(whole, fraction) := splitAt "." body in
  match whole, readDigits whole 0 0 with
  | String _ _, Some (w, _) =>
      match fraction with
      | None => Some (inject_Z (if negative then - w else w))
      | Some f =>
          match f, readDigits f 0 0 with
          | String _ _, Some (n, places) =>
              let magnitude :=
                (w * 10 ^ Z.of_nat places + n) # Pos.of_nat (10 ^ places) in
              Some (Qred (if negative then - magnitude else magnitude)%Q)
          | _, _ => None
          end
      end
  | _, _ => None
  end.

End JSON.

(** ** exportService.js: class ExportService (DXF, SVG, PDF surrogate, CSV) *)

Module ExportService.

Import JS Samples.
Local Open Scope Q_scope.
Local Open Scope string_scope.

Record Bounds : Type := {
  minX : Q;
  maxX : Q;
  minY : Q;
  maxY : Q
}.

Record DXFOptions : Type := {
  dxf_units : option string;
  dxf_scale : option Q;
  dxf_includeText : option bool;
  dxf_includeDimensions : option bool
}.

Record SVGOptions : Type := {
  svg_width : option Q;
  svg_height : option Q;
  svg_scale : option Q;
  svg_includeText : option bool;
  svg_backgroundColor : option string;
  svg_roomColor : option string;
  svg_roomStroke : option string;
  svg_circulationColor : option string
}.

Record PDFOptions : Type := {
  includeMetrics : option bool;
  includeCompliance : option bool;
  includeRecommendations : option bool
}.

(** [projectInfo.metrics] and [projectInfo.compliance], as the report reads
    them. *)
Record MetricsInfo : Type := {
  info_circulationEfficiency : Q;
  info_daylightHours : Q;
  info_energyEfficiency : Q
}.

Record ComplianceInfo : Type := {
  info_status : string;
  info_complianceRate : option Q
}.

(** [projectName] is the property [projectInfo.name]. *)
Record ProjectInfo : Type := {
  projectName : option string;
  layoutName : option string;
  metrics : option MetricsInfo;
  compliance : option ComplianceInfo
}.

(** A destructuring default: it applies to [undefined] only. *)
Definition defaultTo {A : Type} (o : option A) (d : A) : A :=
  match o with Some a => a | None => d end.

(** *** Helper methods *)

Definition boundsStep (bounds : Bounds) (room : Room) : Bounds :=
  {| minX := Math_min (minX bounds) (x room);
     maxX := Math_max (maxX bounds) (x room + width room);
     minY := Math_min (minY bounds) (y room);
     maxY := Math_max (maxY bounds) (y room + height room) |}.

Definition calculateBounds (rooms : option (list Room)) : Bounds :=
  match rooms with
  | None | Some [] => {| minX := 0; maxX := 100; minY := 0; maxY := 100 |}
  | Some ((r0 :: _) as rs) =>
      fold_left boundsStep rs
        {| minX := x r0; maxX := x r0 + width r0;
           minY := y r0; maxY := y r0 + height r0 |}
  end.

Definition calculateTotalArea (rooms : option (list Room)) : Q :=
  match rooms with
  | None => 0
  | Some rs => fold_left (fun total room => total + area room) rs 0
  end.

Definition dxfHeader : string :=
  unlines
    [ "0"; "SECTION"; "2"; "HEADER";
      "9"; "$ACADVER"; "1"; "AC1015";
      "9"; "$INSUNITS"; "70"; "1";
      "0"; "ENDSEC";
      "0"; "SECTION"; "2"; "TABLES";
      "0"; "TABLE"; "2"; "LAYER"; "70"; "2";
      "0"; "LAYER"; "2"; "ROOMS"; "70"; "0"; "62"; "1"; "6"; "CONTINUOUS";
      "0"; "LAYER"; "2"; "CIRCULATION"; "70"; "0"; "62"; "2"; "6"; "CONTINUOUS";
      "0"; "LAYER"; "2"; "TEXT"; "70"; "0"; "62"; "7"; "6"; "CONTINUOUS";
      "0"; "ENDTAB";
      "0"; "ENDSEC";
      "0"; "SECTION"; "2"; "ENTITIES" ].

Definition dxfFooter : string :=
  "0" ++ newline
  ++ "ENDSEC" ++ newline
  ++ "0" ++ newline
  ++ "EOF".

(** An element of what [getSupportedFormats] returns. *)
Record SupportedFormat : Type := {
  format_key : string;
  format_name : string;
  format_description : string;
  format_extension : string;
  format_category : string
}.

Definition getSupportedFormats : list SupportedFormat :=
  [ {| format_key := "dxf";
       format_name := "AutoCAD DXF";
       format_description :=
         "CAD format compatible with AutoCAD and other CAD software";
       format_extension := "dxf";
       format_category := "cad" |};
    {| format_key := "svg";
       format_name := "SVG Vector";
       format_description := "Scalable vector graphics format";
       format_extension := "svg";
       format_category := "vector" |};
    {| format_key := "pdf";
       format_name := "PDF Report";
       format_description := "Comprehensive layout report with metrics";
       format_extension := "pdf";
       format_category := "document" |};
    {| format_key := "json";
       format_name := "JSON Data";
       format_description := "Raw layout data in JSON format";
       format_extension := "json";
       format_category := "data" |};
    {| format_key := "csv";
       format_name := "Room Schedule";
       format_description := "Room information in CSV format";
       format_extension := "csv";
       format_category := "data" |} ].

Section Encoders.

(** The conversion of a number to a string in a template literal. *)
Variable numToString : Q -> string.

(** *** DXF *)

Definition dxfRoom (scale : Q) (includeText : bool) (room : Room) : string :=
  let x := x room * scale in
  let y := y room * scale in
  let width := width room * scale in
  let height := height room * scale in
  (* Room rectangle *)
  unlines
    [ "0"; "LWPOLYLINE"; "8"; "ROOMS"; "90"; "5"; "70"; "1";
      "10"; numToString x; "20"; numToString y;
      "10"; numToString (x + width); "20"; numToString y;
      "10"; numToString (x + width); "20"; numToString (y + height);
      "10"; numToString x; "20"; numToString (y + height);
      "10"; numToString x; "20"; numToString y ]
  (* Room label *)
  ++ (if includeText
      then
        unlines
          [ "0"; "TEXT"; "8"; "TEXT";
            "10"; numToString (x + width / 2);
            "20"; numToString (y + height / 2);
            "40"; "12"; "1"; name room; "50"; "0"; "7"; "STANDARD" ]
      else EmptyString).

(** The LINE of a path, or nothing when an endpoint is not a room. *)
Definition dxfPath (scale : Q) (rooms : list Room) (path : CirculationPath)
  : string :=
  match findRoom rooms (from path), findRoom rooms (to path) with
  | Some fromRoom, Some toRoom =>
      let x1 := (x fromRoom + width fromRoom / 2) * scale in
      let y1 := (y fromRoom + height fromRoom / 2) * scale in
      let x2 := (x toRoom + width toRoom / 2) * scale in
      let y2 := (y toRoom + height toRoom / 2) * scale in
      unlines
        [ "0"; "LINE"; "8"; "CIRCULATION";
          "10"; numToString x1; "20"; numToString y1;
          "11"; numToString x2; "21"; numToString y2 ]
  | _, _ => EmptyString
  end.

(** [rooms.forEach] and [circulation.forEach] are called without a test:
    on a layout without one of the two properties the call throws. *)
Definition exportToDXF (layoutData : LayoutData) (options : option DXFOptions)
  : completion string :=
  let scale :=
    defaultTo (match options with Some o => dxf_scale o | None => None end) 1 in
  let includeText :=
    defaultTo (match options with Some o => dxf_includeText o | None => None end)
      true in
  let dxf := dxfHeader in
  match rooms layoutData with
  | None => Throw TypeError
  | Some rooms =>
      let dxf :=
        fold_left (fun dxf room => dxf ++ dxfRoom scale includeText room)
          rooms dxf in
      match circulation layoutData with
      | None => Throw TypeError
      | Some circulation =>
          let dxf :=
            fold_left (fun dxf path => dxf ++ dxfPath scale rooms path)
              circulation dxf in
          Return (dxf ++ dxfFooter)
      end
  end.

(** *** SVG *)

Definition svgHeader (width height : Q) (viewBox : string)
    (backgroundColor roomColor roomStroke circulationColor : string) : string :=
  "<?xml version=" ++ dquote ++ "1.0" ++ dquote ++ " encoding=" ++ dquote
  ++ "UTF-8" ++ dquote ++ "?>" ++ newline
  ++ "<svg width=" ++ dquote ++ numToString width ++ dquote ++ " height="
  ++ dquote ++ numToString height ++ dquote ++ " viewBox=" ++ dquote
  ++ viewBox ++ dquote ++ " xmlns=" ++ dquote ++ "http://www.w3.org/2000/svg"
  ++ dquote ++ ">" ++ newline
  ++ "  <defs>" ++ newline
  ++ "    <style>" ++ newline
  ++ "      .room { fill: " ++ roomColor ++ "; stroke: " ++ roomStroke
  ++ "; stroke-width: 2; }" ++ newline
  ++ "      .room-text { font-family: Arial, sans-serif; font-size: 14px; text-anchor: middle; dominant-baseline: middle; }"
  ++ newline
  ++ "      .circulation { stroke: " ++ circulationColor
  ++ "; stroke-width: 3; }" ++ newline
  ++ "    </style>" ++ newline
  ++ "  </defs>" ++ newline
  ++ "  <rect width=" ++ dquote ++ "100%" ++ dquote ++ " height=" ++ dquote
  ++ "100%" ++ dquote ++ " fill=" ++ dquote ++ backgroundColor ++ dquote
  ++ "/>" ++ newline.

Definition svgRoom (scale : Q) (includeText : bool) (room : Room) : string :=
  let x := x room * scale in
  let y := y room * scale in
  let width := width room * scale in
  let height := height room * scale in
  ("  <rect x=" ++ dquote ++ numToString x ++ dquote
   ++ " y=" ++ dquote ++ numToString y ++ dquote
   ++ " width=" ++ dquote ++ numToString width ++ dquote
   ++ " height=" ++ dquote ++ numToString height ++ dquote
   ++ " class=" ++ dquote ++ "room" ++ dquote ++ "/>" ++ newline)
  ++ (if includeText
      then
        "  <text x=" ++ dquote ++ numToString (x + width / 2) ++ dquote
        ++ " y=" ++ dquote ++ numToString (y + height / 2) ++ dquote
        ++ " class=" ++ dquote ++ "room-text" ++ dquote ++ ">"
        ++ name room ++ "</text>" ++ newline
      else EmptyString).

Definition svgPath (scale : Q) (rooms : list Room) (path : CirculationPath)
  : string :=
  match findRoom rooms (from path), findRoom rooms (to path) with
  | Some fromRoom, Some toRoom =>
      let x1 := (x fromRoom + width fromRoom / 2) * scale in
      let y1 := (y fromRoom + height fromRoom / 2) * scale in
      let x2 := (x toRoom + width toRoom / 2) * scale in
      let y2 := (y toRoom + height toRoom / 2) * scale in
      "  <line x1=" ++ dquote ++ numToString x1 ++ dquote ++ " y1=" ++ dquote
      ++ numToString y1 ++ dquote ++ " x2=" ++ dquote ++ numToString x2 ++ dquote
      ++ " y2=" ++ dquote ++ numToString y2 ++ dquote ++ " class=" ++ dquote
      ++ "circulation" ++ dquote ++ "/>" ++ newline
  | _, _ => EmptyString
  end.

Definition exportToSVG (layoutData : LayoutData) (options : option SVGOptions)
  : completion string :=
  let opt {A : Type} (f : SVGOptions -> option A) : option A :=
    match options with Some o => f o | None => None end in
  let width := defaultTo (opt svg_width) 800 in
  let height := defaultTo (opt svg_height) 600 in
  let scale := defaultTo (opt svg_scale) 1 in
  let includeText := defaultTo (opt svg_includeText) true in
  let backgroundColor := defaultTo (opt svg_backgroundColor) "#ffffff" in
  let roomColor := defaultTo (opt svg_roomColor) "#e5e7eb" in
  let roomStroke := defaultTo (opt svg_roomStroke) "#374151" in
  let circulationColor := defaultTo (opt svg_circulationColor) "#3b82f6" in
  (* Calculate bounds *)
  let bounds := calculateBounds (rooms layoutData) in
  let viewBox :=
    numToString (minX bounds * scale) ++ " "
    ++ numToString (minY bounds * scale) ++ " "
    ++ numToString ((maxX bounds - minX bounds) * scale) ++ " "
    ++ numToString ((maxY bounds - minY bounds) * scale) in
  let svg :=
    svgHeader width height viewBox backgroundColor roomColor roomStroke
      circulationColor in
  match rooms layoutData with
  | None => Throw TypeError
  | Some rooms =>
      let svg :=
        fold_left (fun svg room => svg ++ svgRoom scale includeText room)
          rooms svg in
      match circulation layoutData with
      | None => Throw TypeError
      | Some circulation =>
          let svg :=
            fold_left (fun svg path => svg ++ svgPath scale rooms path)
              circulation svg in
          Return (svg ++ "</svg>")
      end
  end.

(** *** PDF surrogate *)

(** [new Date().toLocaleDateString()], read once per call. *)
Variable generatedOn : string.

Definition pdfHead (layoutData : LayoutData) (projectInfo : ProjectInfo)
    (svg : string) : string :=
  let roomCount :=
    match rooms layoutData with
    | Some rs => or_default (Some (of_nat (List.length rs))) 0
    | None => 0
    end in
  "<!DOCTYPE html>" ++ newline
  ++ "<html>" ++ newline
  ++ "<head>" ++ newline
  ++ "    <meta charset=" ++ dquote ++ "UTF-8" ++ dquote ++ ">" ++ newline
  ++ "    <title>ArchFlow AI - Layout Export</title>" ++ newline
  ++ "    <style>" ++ newline
  ++ "        body { font-family: Arial, sans-serif; margin: 20px; }"
  ++ newline
  ++ "        .header { text-align: center; margin-bottom: 30px; }" ++ newline
  ++ "        .project-info { margin-bottom: 20px; }" ++ newline
  ++ "        .layout-container { text-align: center; margin: 20px 0; }"
  ++ newline
  ++ "        .metrics { display: grid; grid-template-columns: repeat(auto-fit, minmax(200px, 1fr)); gap: 15px; margin: 20px 0; }"
  ++ newline
  ++ "        .metric-card { border: 1px solid #ddd; padding: 15px; border-radius: 8px; }"
  ++ newline
  ++ "        .metric-value { font-size: 24px; font-weight: bold; color: #3b82f6; }"
  ++ newline
  ++ "        .metric-label { font-size: 14px; color: #666; }" ++ newline
  ++ "        .section { margin: 20px 0; }" ++ newline
  ++ "        .section h3 { color: #374151; border-bottom: 2px solid #e5e7eb; padding-bottom: 5px; }"
  ++ newline
  ++ "        @media print { body { margin: 0; } }" ++ newline
  ++ "    </style>" ++ newline
  ++ "</head>" ++ newline
  ++ "<body>" ++ newline
  ++ "    <div class=" ++ dquote ++ "header" ++ dquote ++ ">" ++ newline
  ++ "        <h1>ArchFlow AI Layout Report</h1>" ++ newline
  ++ "        <p>Generated on " ++ generatedOn ++ "</p>" ++ newline
  ++ "    </div>" ++ newline
  ++ newline
  ++ "    <div class=" ++ dquote ++ "project-info" ++ dquote ++ ">" ++ newline
  ++ "        <h2>Project Information</h2>" ++ newline
  ++ "        <p><strong>Project Name:</strong> "
  ++ or_string (projectName projectInfo) "Untitled Project" ++ "</p>"
  ++ newline
  ++ "        <p><strong>Layout Name:</strong> "
  ++ or_string (layoutName projectInfo) "Layout" ++ "</p>" ++ newline
  ++ "        <p><strong>Total Area:</strong> "
  ++ numToString (calculateTotalArea (rooms layoutData)) ++ " sq ft</p>"
  ++ newline
  ++ "        <p><strong>Number of Rooms:</strong> " ++ numToString roomCount
  ++ "</p>" ++ newline
  ++ "    </div>" ++ newline
  ++ newline
  ++ "    <div class=" ++ dquote ++ "layout-container" ++ dquote ++ ">"
  ++ newline
  ++ "        <h3>Floor Plan</h3>" ++ newline
  ++ "        " ++ svg ++ newline
  ++ "    </div>" ++ newline.

Definition pdfMetrics (metrics : MetricsInfo) : string :=
  newline
  ++ "    <div class=" ++ dquote ++ "section" ++ dquote ++ ">" ++ newline
  ++ "        <h3>Performance Metrics</h3>" ++ newline
  ++ "        <div class=" ++ dquote ++ "metrics" ++ dquote ++ ">" ++ newline
  ++ "            <div class=" ++ dquote ++ "metric-card" ++ dquote ++ ">"
  ++ newline
  ++ "                <div class=" ++ dquote ++ "metric-value" ++ dquote
  ++ ">" ++ numToString (info_circulationEfficiency metrics) ++ "%</div>"
  ++ newline
  ++ "                <div class=" ++ dquote ++ "metric-label" ++ dquote
  ++ ">Circulation Efficiency</div>" ++ newline
  ++ "            </div>" ++ newline
  ++ "            <div class=" ++ dquote ++ "metric-card" ++ dquote ++ ">"
  ++ newline
  ++ "                <div class=" ++ dquote ++ "metric-value" ++ dquote
  ++ ">" ++ numToString (info_daylightHours metrics) ++ "h</div>" ++ newline
  ++ "                <div class=" ++ dquote ++ "metric-label" ++ dquote
  ++ ">Daylight Hours</div>" ++ newline
  ++ "            </div>" ++ newline
  ++ "            <div class=" ++ dquote ++ "metric-card" ++ dquote ++ ">"
  ++ newline
  ++ "                <div class=" ++ dquote ++ "metric-value" ++ dquote
  ++ ">" ++ numToString (info_energyEfficiency metrics) ++ "%</div>"
  ++ newline
  ++ "                <div class=" ++ dquote ++ "metric-label" ++ dquote
  ++ ">Energy Efficiency</div>" ++ newline
  ++ "            </div>" ++ newline
  ++ "        </div>" ++ newline
  ++ "    </div>".

Definition pdfCompliance (compliance : ComplianceInfo) : string :=
  let rate :=
    match info_complianceRate compliance with
    | Some v => if truthy v then numToString v else "N/A"
    | None => "N/A"
    end in
  newline
  ++ "    <div class=" ++ dquote ++ "section" ++ dquote ++ ">" ++ newline
  ++ "        <h3>Code Compliance</h3>" ++ newline
  ++ "        <p><strong>Status:</strong> " ++ info_status compliance
  ++ "</p>" ++ newline
  ++ "        <p><strong>Compliance Rate:</strong> " ++ rate ++ "%</p>"
  ++ newline
  ++ "    </div>".

Definition pdfFoot : string :=
  newline
  ++ "</body>" ++ newline
  ++ "</html>".

Definition exportToPDF (layoutData : LayoutData)
    (projectInfo : option ProjectInfo) (options : option PDFOptions)
  : completion string :=
  let projectInfo :=
    defaultTo projectInfo
      {| projectName := None; layoutName := None; metrics := None;
         compliance := None |} in
  let opt (f : PDFOptions -> option bool) : option bool :=
    match options with Some o => f o | None => None end in
  let includeMetrics := defaultTo (opt includeMetrics) true in
  let includeCompliance := defaultTo (opt includeCompliance) true in
  svg <- exportToSVG layoutData
           (Some {| svg_width := Some 600; svg_height := Some 400;
                    svg_scale := None; svg_includeText := None;
                    svg_backgroundColor := Some "#ffffff";
                    svg_roomColor := None; svg_roomStroke := None;
                    svg_circulationColor := None |}) ;;
  let html := pdfHead layoutData projectInfo svg in
  let html :=
    match metrics projectInfo with
    | Some m => if includeMetrics then html ++ pdfMetrics m else html
    | None => html
    end in
  let html :=
    match compliance projectInfo with
    | Some c => if includeCompliance then html ++ pdfCompliance c else html
    | None => html
    end in
  Return (html ++ pdfFoot).

(** *** CSV *)

Definition csvHeaders : list string :=
  ["Room ID"; "Room Name"; "Area (sq ft)"; "Width (ft)"; "Height (ft)";
   "X Position"; "Y Position"].

Definition csvRow (room : Room) : string :=
  join ","
    [ id room; dquote ++ name room ++ dquote; numToString (area room);
      numToString (width room); numToString (height room);
      numToString (x room); numToString (y room) ]
  ++ newline.

Definition exportRoomScheduleToCSV (rooms : option (list Room))
  : completion string :=
  let csv := join "," csvHeaders ++ newline in
  match rooms with
  | None => Throw TypeError
  | Some rooms => Return (fold_left (fun csv room => csv ++ csvRow room) rooms csv)
  end.

(** *** JSON *)

(** [new Date().toISOString()], read once per call. *)
Variable nowISO : string.

Definition roomToJSON (room : Room) : JSON.value :=
  JSON.Object
    [ ("id", JSON.Str (id room)); ("name", JSON.Str (name room));
      ("area", JSON.Number (area room)); ("x", JSON.Number (x room));
      ("y", JSON.Number (y room)); ("width", JSON.Number (width room));
      ("height", JSON.Number (height room)) ].

Definition pathToJSON (path : CirculationPath) : JSON.value :=
  JSON.Object
    [ ("from", JSON.Str (from path)); ("to", JSON.Str (to path));
      ("width", JSON.Number (pwidth path)) ].

(** The properties an object has, among those that may be absent. *)
Definition present (members : list (string * option JSON.value))
  : list (string * JSON.value) :=
  flat_map
    (fun member =>
       match snd member with
       | Some v => [(fst member, v)]
       | None => []
       end)
    members.

(** A LayoutData record as the JavaScript object it stands for. *)
Definition layoutToJSON (layoutData : LayoutData) : JSON.value :=
  JSON.Object
    (present
       [ ("rooms",
          option_map (fun rs => JSON.Array (map roomToJSON rs))
            (rooms layoutData));
         ("circulation",
          option_map (fun ps => JSON.Array (map pathToJSON ps))
            (circulation layoutData)) ]).

Definition projectInfoToJSON (projectInfo : ProjectInfo) : JSON.value :=
  JSON.Object
    (present
       [ ("name", option_map JSON.Str (projectName projectInfo));
         ("layoutName", option_map JSON.Str (layoutName projectInfo));
         ("metrics",
          option_map
            (fun m =>
               JSON.Object
                 [ ("circulationEfficiency",
                    JSON.Number (info_circulationEfficiency m));
                   ("daylightHours", JSON.Number (info_daylightHours m));
                   ("energyEfficiency",
                    JSON.Number (info_energyEfficiency m)) ])
            (metrics projectInfo));
         ("compliance",
          option_map
            (fun c =>
               JSON.Object
                 (present
                    [ ("status", Some (JSON.Str (info_status c)));
                      ("complianceRate",
                       option_map JSON.Number (info_complianceRate c)) ]))
            (compliance projectInfo)) ]).

(** [layoutData] and [metadata] are any values JSON represents; the method
    does not look into them. *)
Definition exportToJSON (layoutData : JSON.value)
    (metadata : option JSON.value) : string :=
  let metadata := defaultTo metadata (JSON.Object []) in
  let exportData :=
    JSON.Object
      [ ("version", JSON.Str "1.0");
        ("exportedAt", JSON.Str nowISO);
        ("metadata", metadata);
        ("layout", layoutData) ] in
  JSON.stringify numToString exportData.

(** *** Batch export *)

Record Blob : Type := {
  blob_content : string;
  blob_type : string
}.

(** [blob.size]: the length of the content in UTF-8, where a code unit
    from 128 on takes two bytes. *)
Fixpoint utf8Length (s : string) : nat :=
  match s with
  | EmptyString => 0
  | String c s' =>
      ((if nat_of_ascii c <? 128 then 1 else 2) + utf8Length s')%nat
  end.

Definition createDownloadBlob (content mimeType : string) : Blob :=
  {| blob_content := content; blob_type := mimeType |}.

(** An entry of the [results] object; the properties it does not have are
    [None]. *)
Record ExportResult : Type := {
  success : bool;
  blob : option Blob;
  filename : option string;
  size : option nat;
  error : option string
}.

(** [error.message]; the text of the TypeError is the engine's (V8 here). *)
Definition messageOf (e : exn) : string :=
  match e with
  | TypeError => "Cannot read properties of undefined (reading 'forEach')"
  | RangeError => "Maximum call stack size exceeded"
  | Error message => message
  end.

Definition isAlphanumeric (c : ascii) : bool :=
  let n := nat_of_ascii c in
  ((97 <=? n) && (n <=? 122) || (65 <=? n) && (n <=? 90)
   || (48 <=? n) && (n <=? 57))%nat.

(** [name.replace(/[^a-zA-Z0-9]/g, '_')] *)
Fixpoint replaceNonAlphanumeric (s : string) : string :=
  match s with
  | EmptyString => EmptyString
  | String c s' =>
      String (if isAlphanumeric c then c else "_"%char)
        (replaceNonAlphanumeric s')
  end.

(** [projectInfo.name?.replace(/[^a-zA-Z0-9]/g, '_') || 'layout'] *)
Definition sanitizedProjectName (projectInfo : ProjectInfo) : string :=
  or_string (option_map replaceNonAlphanumeric (projectName projectInfo))
    "layout".

(** The [switch] of the loop body: content, MIME type and extension. *)
Definition encode (layoutData : LayoutData) (projectInfo : ProjectInfo)
    (format : string) : completion (string * string * string) :=
  let lower := toLowerCase format in
  if String.eqb lower "dxf" then
    content <- exportToDXF layoutData None ;;
    Return (content, "application/dxf", "dxf")
  else if String.eqb lower "svg" then
    content <- exportToSVG layoutData None ;;
    Return (content, "image/svg+xml", "svg")
  else if String.eqb lower "pdf" then
    content <- exportToPDF layoutData (Some projectInfo) None ;;
    Return (content, "text/html", "html")
  else if String.eqb lower "json" then
    Return (exportToJSON (layoutToJSON layoutData)
              (Some (projectInfoToJSON projectInfo)),
            "application/json", "json")
  else if String.eqb lower "csv" then
    content <- exportRoomScheduleToCSV (rooms layoutData) ;;
    Return (content, "text/csv", "csv")
  else Throw (Error ("Unsupported format: " ++ format)).

(** [results[format] = entry]: a format named again overwrites its entry. *)
Fixpoint setResult (results : list (string * ExportResult)) (format : string)
    (entry : ExportResult) : list (string * ExportResult) :=
  match results with
  | [] => [(format, entry)]
  | (f, e) :: results' =>
      if String.eqb f format then (f, entry) :: results'
      else (f, e) :: setResult results' format entry
  end.

Fixpoint getResult (results : list (string * ExportResult)) (format : string)
  : option ExportResult :=
  match results with
  | [] => None
  | (f, e) :: results' =>
      if String.eqb f format then Some e else getResult results' format
  end.

(** The [try] block of the loop body and its [catch]. *)
Definition exportFormat (layoutData : LayoutData) (projectInfo : ProjectInfo)
    (projectName timestamp : string) (format : string) : ExportResult :=
  match encode layoutData projectInfo format with
  | Return (content, mimeType, extension) =>
      let blob := createDownloadBlob content mimeType in
      let filename := projectName ++ "_" ++ timestamp ++ "." ++ extension in
      {| success := true; blob := Some blob; filename := Some filename;
         size := Some (utf8Length (blob_content blob)); error := None |}
  | Throw e =>
      {| success := false; blob := None; filename := None; size := None;
         error := Some (messageOf e) |}
  end.

Definition exportMultipleFormats (layoutData : LayoutData)
    (projectInfo : ProjectInfo) (formats : option (list string))
  : list (string * ExportResult) :=
  let formats := defaultTo formats ["svg"; "dxf"; "json"] in
  let results := [] in
  let timestamp := String.substring 0 10 nowISO in
  let projectName := sanitizedProjectName projectInfo in
  fold_left
    (fun results format =>
       setResult results format
         (exportFormat layoutData projectInfo projectName timestamp format))
    formats results.

(** *** Properties *)

(** **** Paths between rooms that are not there *)

Definition dangling (rs : list Room) (path : CirculationPath) : Prop :=
  findRoom rs (from path) = None \/ findRoom rs (to path) = None.

Lemma dxfPath_dangling scale rs path :
  dangling rs path -> dxfPath scale rs path = EmptyString.
Proof.
  unfold dxfPath. intros [H|H]; rewrite H; [reflexivity|].
  now destruct (findRoom rs (from path)).
Qed.

Lemma svgPath_dangling scale rs path :
  dangling rs path -> svgPath scale rs path = EmptyString.
Proof.
  unfold svgPath. intros [H|H]; rewrite H; [reflexivity|].
  now destruct (findRoom rs (from path)).
Qed.

(** A loop that appends nothing for an item is the loop without the item. *)
Lemma fold_append_skip {A : Type} (text : A -> string) (before after : list A)
    (item : A) (init : string) :
  text item = EmptyString ->
  fold_left (fun acc a => acc ++ text a) (before ++ item :: after)%list init
  = fold_left (fun acc a => acc ++ text a) (before ++ after)%list init.
Proof.
  intro H. rewrite !fold_left_app. cbn [fold_left].
  now rewrite H, JSON.append_empty.
Qed.

Definition withoutPath (rs : list Room)
    (before after : list CirculationPath) : LayoutData :=
  {| rooms := Some rs; circulation := Some (before ++ after)%list |}.

Definition withPath (rs : list Room)
    (before : list CirculationPath) (path : CirculationPath)
    (after : list CirculationPath) : LayoutData :=
  {| rooms := Some rs; circulation := Some (before ++ path :: after)%list |}.

Lemma exportToDXF_dangling rs before path after options :
  dangling rs path ->
  exportToDXF (withPath rs before path after) options
  = exportToDXF (withoutPath rs before after) options.
Proof.
  intro H. unfold exportToDXF, withPath, withoutPath. cbn [rooms circulation].
  now rewrite (fold_append_skip (dxfPath _ rs)) by now apply dxfPath_dangling.
Qed.

Lemma exportToSVG_dangling rs before path after options :
  dangling rs path ->
  exportToSVG (withPath rs before path after) options
  = exportToSVG (withoutPath rs before after) options.
Proof.
  intro H. unfold exportToSVG, withPath, withoutPath. cbn [rooms circulation].
  now rewrite (fold_append_skip (svgPath _ rs)) by now apply svgPath_dangling.
Qed.

Lemma exportToPDF_dangling rs before path after projectInfo options :
  dangling rs path ->
  exportToPDF (withPath rs before path after) projectInfo options
  = exportToPDF (withoutPath rs before after) projectInfo options.
Proof.
  intro H. unfold exportToPDF. now rewrite exportToSVG_dangling.
Qed.

Lemma exportToDXF_returns rs paths options :
  exists dxf,
    exportToDXF {| rooms := Some rs; circulation := Some paths |} options
    = Return dxf.
Proof. unfold exportToDXF. simpl. eexists; reflexivity. Qed.

Lemma exportToSVG_returns rs paths options :
  exists svg,
    exportToSVG {| rooms := Some rs; circulation := Some paths |} options
    = Return svg.
Proof. unfold exportToSVG. simpl. eexists; reflexivity. Qed.

Section CirculationMetric.

(** [Math.sqrt], for the circulation metric. *)
Variable Math_sqrt : Q -> Q.

Lemma circulationEfficiency_dangling rs before path after :
  dangling rs path ->
  PerformanceMetricsCalculator.calculateCirculationEfficiency Math_sqrt
    (withPath rs before path after)
  = PerformanceMetricsCalculator.calculateCirculationEfficiency Math_sqrt
      (withoutPath rs before after).
Proof.
  intro H.
  unfold PerformanceMetricsCalculator.calculateCirculationEfficiency,
    withPath, withoutPath.
  cbn [rooms circulation].
  destruct (List.length rs =? 0)%nat; [reflexivity|].
  rewrite !fold_left_app. cbn [fold_left].
  destruct H as [H|H]; rewrite H; [reflexivity|].
  now destruct (findRoom rs (from path)).
Qed.

(** C6 (as amended): a circulation path whose [from] or [to] names no room
    is skipped by the computations that resolve its rooms: circulation
    efficiency and the DXF, SVG and PDF exports are what they are without
    the path, and the exports return (skipping raises no error). *)
Theorem dangling_path_skipped :
  forall (rs : list Room) (before after : list CirculationPath)
         (path : CirculationPath) (dxfOptions : option DXFOptions)
         (svgOptions : option SVGOptions) (projectInfo : option ProjectInfo)
         (pdfOptions : option PDFOptions),
    dangling rs path ->
    PerformanceMetricsCalculator.calculateCirculationEfficiency Math_sqrt
      (withPath rs before path after)
    = PerformanceMetricsCalculator.calculateCirculationEfficiency Math_sqrt
        (withoutPath rs before after)
    /\ (exists dxf,
           exportToDXF (withPath rs before path after) dxfOptions
           = Return dxf
           /\ exportToDXF (withoutPath rs before after) dxfOptions
              = Return dxf)
    /\ (exists svg,
           exportToSVG (withPath rs before path after) svgOptions
           = Return svg
           /\ exportToSVG (withoutPath rs before after) svgOptions
              = Return svg)
    /\ exportToPDF (withPath rs before path after) projectInfo pdfOptions
       = exportToPDF (withoutPath rs before after) projectInfo pdfOptions.
Proof.
  intros rs before after path dxfOptions svgOptions projectInfo pdfOptions H.
  split; [now apply circulationEfficiency_dangling|].
  split; [|split].
  - destruct (exportToDXF_returns rs (before ++ after)%list dxfOptions)
      as [dxf Hdxf].
    exists dxf. now rewrite exportToDXF_dangling.
  - destruct (exportToSVG_returns rs (before ++ after)%list svgOptions)
      as [svg Hsvg].
    exists svg. now rewrite exportToSVG_dangling.
  - now apply exportToPDF_dangling.
Qed.

End CirculationMetric.

(** **** The JSON round trip *)

Section RoundTrip.

(** The reading of a number token by [JSON.parse]. *)
Variable parseNumber : string -> option Q.

Abbreviation representable := (JSON.representable numToString parseNumber).
Abbreviation numberOk := (JSON.numberOk numToString parseNumber).

Ltac distinct_keys :=
  simpl; repeat (constructor; [simpl; intuition discriminate|]); constructor.

Ltac members_ok :=
  repeat (apply Forall_cons;
          [simpl; first [assumption | constructor; assumption | constructor]|]);
  apply Forall_nil.

Lemma exportToJSON_parses (layoutData : JSON.value)
    (metadata : option JSON.value) :
  representable layoutData ->
  representable (defaultTo metadata (JSON.Object [])) ->
  exists parsed,
    JSON.parse parseNumber (exportToJSON layoutData metadata) = Some parsed
    /\ JSON.get parsed "layout" = Some layoutData.
Proof.
  intros Hlayout Hmetadata.
  eexists. split.
  - unfold exportToJSON. apply JSON.parse_stringify.
    constructor; [distinct_keys | members_ok].
  - reflexivity.
Qed.

(** The numbers of a layout. *)
Definition roomNumbers (room : Room) : list Q :=
  [area room; x room; y room; width room; height room].

Definition layoutNumbers (layoutData : LayoutData) : list Q :=
  flat_map roomNumbers (defaultTo (rooms layoutData) [])
  ++ map pwidth (defaultTo (circulation layoutData) []).

Lemma layoutToJSON_representable (layoutData : LayoutData) :
  Forall numberOk (layoutNumbers layoutData) ->
  representable (layoutToJSON layoutData).
Proof.
  unfold layoutNumbers. intro H. apply Forall_app in H as [Hrooms Hpaths].
  assert (Hrs : forall rs, Forall numberOk (flat_map roomNumbers rs) ->
                           representable (JSON.Array (map roomToJSON rs))).
  { intros rs Hn. constructor. apply Forall_map.
    rewrite Forall_flat_map in Hn. revert Hn. apply Forall_impl.
    intros room Hroom. unfold roomNumbers in Hroom.
    repeat match goal with
           | H : Forall _ (_ :: _) |- _ => inversion_clear H
           end.
    constructor; [distinct_keys | members_ok]. }
  assert (Hps : forall ps, Forall numberOk (map pwidth ps) ->
                           representable (JSON.Array (map pathToJSON ps))).
  { intros ps Hn. constructor. apply Forall_map.
    rewrite Forall_map in Hn. revert Hn. apply Forall_impl.
    intros path Hpath. constructor; [distinct_keys | members_ok]. }
  unfold layoutToJSON.
  destruct (rooms layoutData) as [rs|], (circulation layoutData) as [ps|];
    simpl in *; (constructor; [distinct_keys|]);
    repeat (apply Forall_cons; [simpl; auto|]); apply Forall_nil.
Qed.

Lemma roomToJSON_injective (a b : Room) :
  roomToJSON a = roomToJSON b -> a = b.
Proof.
  destruct a, b. unfold roomToJSON. simpl. intro H.
  injection H as -> -> -> -> -> -> ->. reflexivity.
Qed.

Lemma pathToJSON_injective (a b : CirculationPath) :
  pathToJSON a = pathToJSON b -> a = b.
Proof.
  destruct a, b. unfold pathToJSON. simpl. intro H.
  injection H as -> -> ->. reflexivity.
Qed.

Lemma map_injective {A B : Type} (f : A -> B) :
  (forall a b, f a = f b -> a = b) ->
  forall l l', map f l = map f l' -> l = l'.
Proof.
  intros Hf l. induction l as [|a l IH]; intros [|b l'] H;
    try discriminate; [reflexivity|].
  simpl in H. injection H as Hab Hl. f_equal; auto.
Qed.

(** Equal as JavaScript objects, equal as layouts. *)
Lemma layoutToJSON_injective (a b : LayoutData) :
  layoutToJSON a = layoutToJSON b -> a = b.
Proof.
  destruct a as [[ra|] [ca|]], b as [[rb|] [cb|]]; unfold layoutToJSON;
    simpl; intro H; try discriminate H; try reflexivity;
    injection H; intros; subst;
    repeat match goal with
           | H : map roomToJSON _ = map roomToJSON _ |- _ =>
               apply (map_injective _ roomToJSON_injective) in H; subst
           | H : map pathToJSON _ = map pathToJSON _ |- _ =>
               apply (map_injective _ pathToJSON_injective) in H; subst
           end;
    reflexivity.
Qed.

(** The round trip on LayoutData records: the [layout] property read back
    is the object of a layout that equals the original. *)
Corollary exportToJSON_layout (layoutData : LayoutData)
    (metadata : option JSON.value) :
  Forall numberOk (layoutNumbers layoutData) ->
  representable (defaultTo metadata (JSON.Object [])) ->
  exists parsed,
    JSON.parse parseNumber (exportToJSON (layoutToJSON layoutData) metadata)
    = Some parsed
    /\ forall other,
         JSON.get parsed "layout" = Some (layoutToJSON other) <->
         other = layoutData.
Proof.
  intros Hn Hm.
  destruct (exportToJSON_parses (layoutToJSON layoutData) metadata
              (layoutToJSON_representable _ Hn) Hm) as (parsed & Hp & Hget).
  exists parsed. split; [exact Hp|].
  intro other. rewrite Hget. split.
  - intro H. apply layoutToJSON_injective. congruence.
  - now intros ->.
Qed.

(** C8: for every layout and metadata that JSON represents, the text that
    [exportToJSON] produces parses, and the [layout] property of the parsed
    value is the layout. *)
Theorem exportToJSON_round_trip :
  forall (layoutData : JSON.value) (metadata : option JSON.value),
    representable layoutData ->
    representable (defaultTo metadata (JSON.Object [])) ->
    exists parsed,
      JSON.parse parseNumber (exportToJSON layoutData metadata) = Some parsed
      /\ JSON.get parsed "layout" = Some layoutData.
Proof. exact exportToJSON_parses. Qed.

(** X20: the text that [exportToJSON] produces carries the envelope
    around the layout: read back, its [version] is 1.0, its [exportedAt]
    is the instant of the export, and its [metadata] is the metadata given
    (the empty object when none is). *)
Theorem exportToJSON_envelope :
  forall (layoutData : JSON.value) (metadata : option JSON.value),
    representable layoutData ->
    representable (defaultTo metadata (JSON.Object [])) ->
    exists parsed,
      JSON.parse parseNumber (exportToJSON layoutData metadata) = Some parsed
      /\ JSON.get parsed "version" = Some (JSON.Str "1.0")
      /\ JSON.get parsed "exportedAt" = Some (JSON.Str nowISO)
      /\ JSON.get parsed "metadata"
         = Some (defaultTo metadata (JSON.Object [])).
Proof.
  intros layoutData metadata Hlayout Hmetadata.
  eexists. split.
  - unfold exportToJSON. apply JSON.parse_stringify.
    constructor; [distinct_keys | members_ok].
  - repeat split.
Qed.

End RoundTrip.

(** **** File names of the batch export *)

Lemma getResult_setResult results format entry key :
  getResult (setResult results format entry) key
  = if String.eqb format key then Some entry else getResult results key.
Proof.
  induction results as [|[f e] results IH]; simpl.
  - reflexivity.
  - destruct (String.eqb_spec f format) as [->|Hne]; simpl.
    + now destruct (String.eqb format key).
    + rewrite IH. destruct (String.eqb_spec f key) as [->|Hfk];
        [|reflexivity].
      destruct (String.eqb_spec format key) as [->|]; [contradiction|].
      reflexivity.
Qed.

(** Every entry of the results is the outcome of its own format. *)
Lemma results_entries layoutData projectInfo projectName timestamp
    (formats : list string) :
  forall results,
    (forall key entry,
        getResult results key = Some entry ->
        entry = exportFormat layoutData projectInfo projectName timestamp key) ->
    forall key entry,
      getResult
        (fold_left
           (fun results format =>
              setResult results format
                (exportFormat layoutData projectInfo projectName timestamp
                   format))
           formats results) key = Some entry ->
      entry = exportFormat layoutData projectInfo projectName timestamp key.
Proof.
  induction formats as [|format formats IH]; intros results Hinv; simpl.
  - exact Hinv.
  - apply IH. intros key entry. rewrite getResult_setResult.
    destruct (String.eqb_spec format key) as [->|_].
    + now intros [= <-].
    + apply Hinv.
Qed.

(** The file of a successful entry has the extension that the [switch]
    gives its format. *)
Lemma exportFormat_extension layoutData projectInfo projectName timestamp
    format :
  success (exportFormat layoutData projectInfo projectName timestamp format)
  = true ->
  exists extension,
    In (toLowerCase format, extension)
      [("dxf", "dxf"); ("svg", "svg"); ("pdf", "html"); ("json", "json");
       ("csv", "csv")]
    /\ filename (exportFormat layoutData projectInfo projectName timestamp
                   format)
       = Some (projectName ++ "_" ++ timestamp ++ "." ++ extension).
Proof.
  unfold exportFormat, encode. cbv zeta.
  destruct (String.eqb_spec (toLowerCase format) "dxf") as [->|_].
  { destruct (exportToDXF _ _); cbn [bind success filename]; intro H;
      [|discriminate H].
    exists "dxf". split; [simpl; tauto | reflexivity]. }
  destruct (String.eqb_spec (toLowerCase format) "svg") as [->|_].
  { destruct (exportToSVG _ _); cbn [bind success filename]; intro H;
      [|discriminate H].
    exists "svg". split; [simpl; tauto | reflexivity]. }
  destruct (String.eqb_spec (toLowerCase format) "pdf") as [->|_].
  { destruct (exportToPDF _ _ _); cbn [bind success filename]; intro H;
      [|discriminate H].
    exists "html". split; [simpl; tauto | reflexivity]. }
  destruct (String.eqb_spec (toLowerCase format) "json") as [->|_].
  { intros _. exists "json". split; [simpl; tauto | reflexivity]. }
  destruct (String.eqb_spec (toLowerCase format) "csv") as [->|_].
  { destruct (exportRoomScheduleToCSV _); cbn [bind success filename];
      intro H; [|discriminate H].
    exists "csv". split; [simpl; tauto | reflexivity]. }
  intro H. discriminate H.
Qed.

(** **** The date of the file names *)

Definition isDigit (c : ascii) : bool :=
  let n := nat_of_ascii c in ((48 <=? n) && (n <=? 57))%nat.

(** A text has a shape when it has, place by place, a decimal digit where
    the shape has [None] and the given character elsewhere. *)
Fixpoint hasShape (shape : list (option ascii)) (s : string) : bool :=
  match shape, s with
  | [], EmptyString => true
  | None :: shape', String c s' => isDigit c && hasShape shape' s'
  | Some d :: shape', String c s' => Ascii.eqb c d && hasShape shape' s'
  | _, _ => false
  end.

(** YYYY-MM-DD *)
Definition dateShape : list (option ascii) :=
  [None; None; None; None; Some "-"; None; None; Some "-"; None; None]%char.

(** THH:mm:ss.sssZ *)
Definition timeShape : list (option ascii) :=
  [Some "T"; None; None; Some ":"; None; None; Some ":"; None; None;
   Some "."; None; None; None; Some "Z"]%char.

(** What [toISOString] returns in the years 0 to 9999:
    YYYY-MM-DDTHH:mm:ss.sssZ. *)
Definition isoShape : list (option ascii) := (dateShape ++ timeShape)%list.

Lemma hasShape_slice (shape rest : list (option ascii)) (s : string) :
  hasShape (shape ++ rest)%list s = true ->
  hasShape shape (String.substring 0 (List.length shape) s) = true.
Proof.
  revert s. induction shape as [|[d|] shape IH]; intros s;
    cbn [hasShape List.length String.substring app].
  - intros _. now destruct s.
  - destruct s as [|c s]; [discriminate|].
    intro H. apply andb_true_iff in H as [Hc Hs].
    cbn [hasShape String.substring]. now rewrite Hc, (IH _ Hs).
  - destruct s as [|c s]; [discriminate|].
    intro H. apply andb_true_iff in H as [Hc Hs].
    cbn [hasShape String.substring]. now rewrite Hc, (IH _ Hs).
Qed.

Lemma replaceNonAlphanumeric_length (s : string) :
  String.length (replaceNonAlphanumeric s) = String.length s.
Proof. induction s as [|c s IH]; simpl; [reflexivity | now rewrite IH]. Qed.

Lemma replaceNonAlphanumeric_get (s : string) (n : nat) :
  String.get n (replaceNonAlphanumeric s)
  = option_map (fun c => if isAlphanumeric c then c else "_"%char)
      (String.get n s).
Proof.
  revert n. induction s as [|c s IH]; intros [|n]; simpl; auto.
Qed.

Lemma results_present layoutData projectInfo projectName timestamp
    (formats : list string) :
  forall results key,
    In key formats \/ getResult results key <> None ->
    getResult
      (fold_left
         (fun results format =>
            setResult results format
              (exportFormat layoutData projectInfo projectName timestamp
                 format))
         formats results) key <> None.
Proof.
  induction formats as [|format formats IH]; intros results key H; simpl.
  - destruct H as [[]|H]; exact H.
  - apply IH. rewrite getResult_setResult.
    destruct (String.eqb_spec format key) as [->|Hne].
    + right. discriminate.
    + destruct H as [[H|H]|H]; [contradiction | now left | now right].
Qed.

(** C9 (as amended): when the clock reads a year from 0 to 9999, so that
    the ISO timestamp has the shape YYYY-MM-DDTHH:mm:ss.sssZ, the batch
    export has an entry for every requested format, and the file name of
    every successful entry is the sanitized project name, an underscore,
    the date, a dot and the extension of the entry's own format: dxf for
    dxf, svg for svg, html for pdf, json for json, csv for csv, the format
    taken in lower case.  The date is the first ten characters of the
    timestamp and has the shape YYYY-MM-DD.  The sanitized name is
    [layout] when the project has no name or an empty one, and otherwise
    the name with every character outside [A-Za-z0-9] replaced by an
    underscore, position by position. *)
Theorem batch_file_names :
  forall (layoutData : LayoutData) (projectInfo : ProjectInfo)
         (formats : option (list string)),
    hasShape isoShape nowISO = true ->
    (forall format,
        In format (defaultTo formats ["svg"; "dxf"; "json"]) ->
        exists entry,
          getResult (exportMultipleFormats layoutData projectInfo formats)
            format = Some entry)
    /\ (forall format entry,
           getResult (exportMultipleFormats layoutData projectInfo formats)
             format = Some entry ->
           success entry = true ->
           exists extension,
             In (toLowerCase format, extension)
               [("dxf", "dxf"); ("svg", "svg"); ("pdf", "html");
                ("json", "json"); ("csv", "csv")]
             /\ filename entry
                = Some (sanitizedProjectName projectInfo ++ "_"
                        ++ String.substring 0 10 nowISO ++ "." ++ extension))
    /\ hasShape dateShape (String.substring 0 10 nowISO) = true
    /\ match projectName projectInfo with
       | None | Some EmptyString =>
           sanitizedProjectName projectInfo = "layout"
       | Some projectName =>
           sanitizedProjectName projectInfo
           = replaceNonAlphanumeric projectName
           /\ String.length (sanitizedProjectName projectInfo)
              = String.length projectName
           /\ forall n,
                String.get n (sanitizedProjectName projectInfo)
                = option_map
                    (fun c => if isAlphanumeric c then c else "_"%char)
                    (String.get n projectName)
       end.
Proof.
  intros layoutData projectInfo formats Hclock. split; [|split; [|split]].
  - intros format Hin. unfold exportMultipleFormats.
    match goal with |- exists entry, ?g = Some entry =>
      assert (Hsome : g <> None)
        by (apply results_present; now left);
      destruct g as [entry|]; [now exists entry | contradiction]
    end.
  - intros format entry Hget Hsuccess.
    unfold exportMultipleFormats in Hget.
    apply results_entries in Hget; [|intros key e H; discriminate H].
    subst entry. now apply exportFormat_extension.
  - exact (hasShape_slice dateShape timeShape nowISO Hclock).
  - unfold sanitizedProjectName.
    destruct (projectName projectInfo) as [[|c s]|]; try reflexivity.
    cbn [option_map replaceNonAlphanumeric or_string].
    change (String (if isAlphanumeric c then c else "_"%char)
              (replaceNonAlphanumeric s))
      with (replaceNonAlphanumeric (String c s)).
    split; [reflexivity|].
    split; [apply replaceNonAlphanumeric_length
           | apply replaceNonAlphanumeric_get].
Qed.

(** **** The entries of the batch export *)

Lemma results_absent layoutData projectInfo projectName timestamp
    (formats : list string) :
  forall results key,
    ~ In key formats ->
    getResult
      (fold_left
         (fun results format =>
            setResult results format
              (exportFormat layoutData projectInfo projectName timestamp
                 format))
         formats results) key
    = getResult results key.
Proof.
  induction formats as [|format formats IH]; intros results key Hnot; simpl.
  - reflexivity.
  - rewrite IH by (intro H; apply Hnot; now right).
    rewrite getResult_setResult.
    destruct (String.eqb_spec format key) as [->|_]; [|reflexivity].
    exfalso. apply Hnot. now left.
Qed.

Lemma batch_entry layoutData projectInfo (formats : list string) key :
  In key formats ->
  getResult (exportMultipleFormats layoutData projectInfo (Some formats)) key
  = Some (exportFormat layoutData projectInfo
            (sanitizedProjectName projectInfo)
            (String.substring 0 10 nowISO) key).
Proof.
  intro Hin. unfold exportMultipleFormats. cbn [defaultTo].
  match goal with |- ?g = _ =>
    assert (Hsome : g <> None) by (apply results_present; now left);
    destruct g as [entry|] eqn:Hget; [|contradiction]
  end.
  f_equal. apply results_entries in Hget; [exact Hget|].
  intros k e H. discriminate H.
Qed.

(** X21: the entry that the batch export gives for a requested format is
    the one that the export of that format alone gives: it does not depend
    on the other formats of the request, on their order, or on the format
    being named more than once.  And the object returned has a property
    for nothing but the requested formats: a key that was not requested,
    and is not a name inherited from [Object.prototype], reads as
    undefined (when no requested format is [__proto__], which would make
    an entry the prototype of the object). *)
Theorem exportMultipleFormats_entries :
  forall (layoutData : LayoutData) (projectInfo : ProjectInfo)
         (formats : list string) (format : string),
    (In format formats ->
     getResult (exportMultipleFormats layoutData projectInfo (Some formats))
       format
     = getResult
         (exportMultipleFormats layoutData projectInfo (Some [format]))
         format
     /\ getResult
          (exportMultipleFormats layoutData projectInfo (Some formats))
          format <> None)
    /\ (~ In format formats ->
        ~ In format inheritedNames ->
        ~ In "__proto__" formats ->
        getResult
          (exportMultipleFormats layoutData projectInfo (Some formats))
          format = None).
Proof.
  intros layoutData projectInfo formats format. split.
  - intro Hin. rewrite (batch_entry _ _ formats format Hin).
    rewrite (batch_entry _ _ [format] format) by now left.
    split; [reflexivity | discriminate].
  - intros Hnot _ _. unfold exportMultipleFormats. cbn [defaultTo].
    now rewrite results_absent.
Qed.

(** **** The formats on offer *)

Lemma export_complete (rs : list Room) (paths : list CirculationPath)
    projectInfo projectName timestamp format :
  let entry :=
    exportFormat {| rooms := Some rs; circulation := Some paths |}
      projectInfo projectName timestamp format in
  (forall extension,
      In (toLowerCase format, extension)
         [("dxf", "dxf"); ("svg", "svg"); ("pdf", "html"); ("json", "json");
          ("csv", "csv")] ->
      success entry = true /\ error entry = None
      /\ filename entry
         = Some (projectName ++ "_" ++ timestamp ++ "." ++ extension))
  /\ (~ In (toLowerCase format) ["dxf"; "svg"; "pdf"; "json"; "csv"] ->
      entry
      = {| success := false; blob := None; filename := None; size := None;
           error := Some ("Unsupported format: " ++ format) |}).
Proof.
  cbv zeta. unfold exportFormat, encode, exportToDXF, exportToSVG, exportToPDF,
    exportToSVG, exportRoomScheduleToCSV.
  cbn [rooms circulation bind].
  destruct (String.eqb_spec (toLowerCase format) "dxf") as [->|H1].
  { split; [|intro H; exfalso; apply H; simpl; tauto].
    intros extension [[= <-]|[H|[H|[H|[H|[]]]]]]; try discriminate H.
    repeat split. }
  destruct (String.eqb_spec (toLowerCase format) "svg") as [->|H2].
  { split; [|intro H; exfalso; apply H; simpl; tauto].
    intros extension [H|[[= <-]|[H|[H|[H|[]]]]]]; try discriminate H.
    repeat split. }
  destruct (String.eqb_spec (toLowerCase format) "pdf") as [->|H3].
  { split; [|intro H; exfalso; apply H; simpl; tauto].
    intros extension [H|[H|[[= <-]|[H|[H|[]]]]]]; try discriminate H.
    repeat split. }
  destruct (String.eqb_spec (toLowerCase format) "json") as [->|H4].
  { split; [|intro H; exfalso; apply H; simpl; tauto].
    intros extension [H|[H|[H|[[= <-]|[H|[]]]]]]; try discriminate H.
    repeat split. }
  destruct (String.eqb_spec (toLowerCase format) "csv") as [->|H5].
  { split; [|intro H; exfalso; apply H; simpl; tauto].
    intros extension [H|[H|[H|[H|[[= <-]|[]]]]]]; try discriminate H.
    repeat split. }
  split; [|reflexivity].
  intros extension [H|[H|[H|[H|[H|[]]]]]]; injection H as H _;
    symmetry in H; contradiction.
Qed.

(** X22: on a layout that has its rooms and its circulation, the batch
    export succeeds for a format exactly when the format, in lower case,
    is a key of [getSupportedFormats]; any other format gets the entry of
    a failure with the message Unsupported format and the format as it was
    given.  The file of a supported format has the extension that
    [getSupportedFormats] lists, except the PDF report, written with the
    extension html. *)
Theorem supported_formats_export :
  forall (rs : list Room) (paths : list CirculationPath)
         (projectInfo : ProjectInfo) (format : string),
  exists entry,
    getResult
      (exportMultipleFormats {| rooms := Some rs; circulation := Some paths |}
         projectInfo (Some [format])) format = Some entry
    /\ (forall supported,
          In supported getSupportedFormats ->
          toLowerCase format = format_key supported ->
          success entry = true
          /\ filename entry
             = Some (sanitizedProjectName projectInfo ++ "_"
                     ++ String.substring 0 10 nowISO ++ "."
                     ++ (if String.eqb (format_key supported) "pdf"
                         then "html" else format_extension supported)))
    /\ (~ In (toLowerCase format) (map format_key getSupportedFormats) ->
        entry
        = {| success := false; blob := None; filename := None; size := None;
             error := Some ("Unsupported format: " ++ format) |}).
Proof.
  intros rs paths projectInfo format.
  eexists. split; [apply batch_entry; now left|].
  destruct (export_complete rs paths projectInfo
              (sanitizedProjectName projectInfo)
              (String.substring 0 10 nowISO) format) as [Hyes Hno].
  split; [|exact Hno].
  intros supported Hin Hkey.
  destruct (Hyes (if String.eqb (format_key supported) "pdf"
                  then "html" else format_extension supported))
    as (Hs & _ & Hf); [|now split].
  rewrite Hkey.
  destruct Hin as [<-|[<-|[<-|[<-|[<-|[]]]]]]; simpl; tauto.
Qed.

(** X23: on a layout that lacks its rooms or its circulation the batch
    export still returns an entry for the format; the TypeError of the
    encoder is caught and becomes the entry of a failure.  The entry is a
    success exactly for the JSON format, and for the CSV format when it is
    the circulation that is missing. *)
Theorem incomplete_layout_exports :
  forall (layoutData : LayoutData) (projectInfo : ProjectInfo)
         (format : string),
    rooms layoutData = None \/ circulation layoutData = None ->
    exists entry,
      getResult (exportMultipleFormats layoutData projectInfo (Some [format]))
        format = Some entry
      /\ (success entry = true
          <-> toLowerCase format = "json"
              \/ (toLowerCase format = "csv" /\ rooms layoutData <> None))
      /\ (success entry = false -> error entry <> None).
Proof.
  intros layoutData projectInfo format Hmissing.
  eexists. split; [apply batch_entry; now left|].
  unfold exportFormat, encode, exportToPDF.
  assert (Hdxf : exportToDXF layoutData None = Throw TypeError).
  { unfold exportToDXF. destruct Hmissing as [H|H]; rewrite H;
      [reflexivity | now destruct (rooms layoutData)]. }
  assert (Hsvg : forall options, exportToSVG layoutData options = Throw TypeError).
  { intro options. unfold exportToSVG. destruct Hmissing as [H|H]; rewrite H;
      [reflexivity | now destruct (rooms layoutData)]. }
  rewrite Hdxf, !Hsvg. cbn [bind].
  destruct (String.eqb_spec (toLowerCase format) "dxf") as [E1|H1].
  { rewrite E1. cbn [success error]. split; [|discriminate].
    split; [discriminate | intros [H|[H _]]; discriminate H]. }
  destruct (String.eqb_spec (toLowerCase format) "svg") as [E2|H2].
  { rewrite E2. cbn [success error]. split; [|discriminate].
    split; [discriminate | intros [H|[H _]]; discriminate H]. }
  destruct (String.eqb_spec (toLowerCase format) "pdf") as [E3|H3].
  { rewrite E3. cbn [success error]. split; [|discriminate].
    split; [discriminate | intros [H|[H _]]; discriminate H]. }
  destruct (String.eqb_spec (toLowerCase format) "json") as [E4|H4].
  { cbn [success error]. split; [|discriminate]. split; [now left | reflexivity]. }
  destruct (String.eqb_spec (toLowerCase format) "csv") as [E5|H5].
  { unfold exportRoomScheduleToCSV.
    destruct (rooms layoutData) as [rs|]; cbn [bind success error].
    - split; [|discriminate]. split; [intros _; right; now split | reflexivity].
    - split; [|discriminate]. split; [discriminate|].
      intros [H|[_ H]]; [contradiction | now elim H]. }
  cbn [success error]. split; [|discriminate].
  split; [discriminate | intros [H|[H _]]; contradiction].
Qed.

(** **** The bounds of the drawing *)



(** **** The lines of the room schedule *)

(** The line feeds of a text, counted. *)
Fixpoint lineFeeds (s : string) : nat :=
  match s with
  | EmptyString => 0
  | String c s' =>
      ((if Ascii.eqb c (ascii_of_nat 10) then 1 else 0) + lineFeeds s')%nat
  end.

Lemma lineFeeds_append (a b : string) :
  lineFeeds (a ++ b) = (lineFeeds a + lineFeeds b)%nat.
Proof.
  induction a as [|c a IH]; simpl; [reflexivity|]. rewrite IH. lia.
Qed.

(** The seven fields of the row of a room hold no line feed. *)
Definition singleLine (room : Room) : Prop :=
  Forall (fun field => lineFeeds field = 0%nat)
    [ id room; name room; numToString (area room); numToString (width room);
      numToString (height room); numToString (x room); numToString (y room) ].

Lemma csvRow_lineFeeds (room : Room) :
  singleLine room -> lineFeeds (csvRow room) = 1%nat.
Proof.
  unfold singleLine. intro H.
  repeat match goal with
         | H : Forall _ (_ :: _) |- _ => inversion_clear H
         end.
  unfold csvRow. cbn [join].
  rewrite !lineFeeds_append.
  repeat match goal with
         | H : lineFeeds _ = 0%nat |- _ => rewrite H; clear H
         end.
  reflexivity.
Qed.

Lemma csv_lineFeeds (rs : list Room) (csv : string) :
  Forall singleLine rs ->
  lineFeeds (fold_left (fun csv room => csv ++ csvRow room) rs csv)
  = (lineFeeds csv + List.length rs)%nat.
Proof.
  intros Hrs. revert csv.
  induction Hrs as [|room rs Hroom _ IH]; intro csv; simpl.
  - lia.
  - rewrite IH, lineFeeds_append, (csvRow_lineFeeds room Hroom). lia.
Qed.

(** X25: the room schedule has one line for the headers and one line for
    each room, as long as the id, the name and the text of the numbers of
    no room hold a line feed; a missing list of rooms is a TypeError. *)
Theorem csv_one_line_per_room :
  forall rs : list Room,
    Forall singleLine rs ->
    exists csv,
      exportRoomScheduleToCSV (Some rs) = Return csv
      /\ lineFeeds csv = (1 + List.length rs)%nat
      /\ exportRoomScheduleToCSV None = Throw TypeError.
Proof.
  intros rs Hrs. eexists. split; [reflexivity|]. split.
  - now rewrite csv_lineFeeds.
  - reflexivity.
Qed.

(** **** The JSON file of the batch export *)

Section BatchRoundTrip.

(** The reading of a number token by [JSON.parse]. *)
Variable parseNumber : string -> option Q.

(** X26: the JSON file of a batch export reads back to the layout.  When
    json is among the requested formats, the numbers of the layout are
    such that their text reads back as the number, and the project
    information is a value that JSON represents, the entry of json is a
    success whose blob has the type application/json and whose content
    parses to an object, the [layout] property of which is the object of
    the layout exported and of no other. *)
Theorem batch_json_reads_back :
  forall (layoutData : LayoutData) (projectInfo : ProjectInfo)
         (formats : list string),
    In "json" formats ->
    Forall (JSON.numberOk numToString parseNumber)
      (layoutNumbers layoutData) ->
    JSON.representable numToString parseNumber
      (projectInfoToJSON projectInfo) ->
    exists entry file parsed,
      getResult (exportMultipleFormats layoutData projectInfo (Some formats))
        "json" = Some entry
      /\ success entry = true
      /\ blob entry = Some file
      /\ blob_type file = "application/json"
      /\ JSON.parse parseNumber (blob_content file) = Some parsed
      /\ forall other,
           JSON.get parsed "layout" = Some (layoutToJSON other)
           <-> other = layoutData.
Proof.
  intros layoutData projectInfo formats Hin Hn Hinfo.
  destruct (exportToJSON_layout parseNumber layoutData
              (Some (projectInfoToJSON projectInfo)) Hn Hinfo)
    as (parsed & Hparse & Hlayout).
  eexists _, _, parsed.
  split; [now apply batch_entry|].
  unfold exportFormat, encode. cbn.
  repeat split; try exact Hparse; now apply Hlayout.
Qed.

End BatchRoundTrip.

End Encoders.

(** *** The claims at sample inputs *)

Definition sampleDate : string := "11/3/2026".
Definition sampleInstant : string := "2026-11-03T09:30:00.000Z".

(** A layout under edit that has rooms and no [circulation] property yet,
    and one that has circulation and no [rooms]. *)
Definition roomsOnly : LayoutData :=
  {| rooms := Some [officeRoom; meetingRoom]; circulation := None |}.

Definition circulationOnly : LayoutData :=
  {| rooms := None;
     circulation := Some [{| from := "r1"; to := "r2"; pwidth := 4 |}] |}.

(** C5 (evaluation of the code): on a layout whose [circulation] is
    absent, [checkCompliance] under US and ADA and the DXF, SVG and PDF
    encoders throw TypeError; on a layout whose [rooms] is absent, the DXF,
    SVG, PDF and CSV encoders throw TypeError.  (The JSON encoder, a
    function to [string], returns on every layout.) *)
Theorem missing_property_throws :
  BuildingCodesService.checkCompliance decimalString roomsOnly
    (BuildingCodesService.settingsFor "US" ["ADA"]) = Throw TypeError
  /\ exportToDXF decimalString roomsOnly None = Throw TypeError
  /\ exportToSVG decimalString roomsOnly None = Throw TypeError
  /\ exportToPDF decimalString sampleDate roomsOnly None None
     = Throw TypeError
  /\ exportToDXF decimalString circulationOnly None = Throw TypeError
  /\ exportToSVG decimalString circulationOnly None = Throw TypeError
  /\ exportToPDF decimalString sampleDate circulationOnly None None
     = Throw TypeError
  /\ exportRoomScheduleToCSV decimalString (rooms circulationOnly)
     = Throw TypeError.
Proof.
  repeat split; reflexivity.
Qed.

(** The same for every layout, options and rule table with a door or exit
    width. *)
Lemma checkDoorWidths_needs_circulation layoutData rules codeKey results :
  circulation layoutData = None ->
  BuildingCodesService.checkDoorWidths decimalString layoutData rules codeKey
    results = Throw TypeError.
Proof.
  intro H. unfold BuildingCodesService.checkDoorWidths. now rewrite H.
Qed.

Lemma exportToDXF_needs_both numToString layoutData options :
  rooms layoutData = None \/ circulation layoutData = None ->
  exportToDXF numToString layoutData options = Throw TypeError.
Proof.
  unfold exportToDXF. intros [H|H]; rewrite H; [reflexivity|].
  now destruct (rooms layoutData).
Qed.

Lemma exportToSVG_needs_both numToString layoutData options :
  rooms layoutData = None \/ circulation layoutData = None ->
  exportToSVG numToString layoutData options = Throw TypeError.
Proof.
  unfold exportToSVG. intros [H|H]; rewrite H; [reflexivity|].
  now destruct (rooms layoutData).
Qed.

(** Two rooms, a path of 5 ft between them, and a path of 2 ft from the
    first room to a room that does not exist. *)
Definition goodPath : CirculationPath :=
  {| from := "r1"; to := "r2"; pwidth := 5 |}.

Definition ghostPath : CirculationPath :=
  {| from := "r1"; to := "ghost"; pwidth := 2 |}.

Lemma ghostPath_dangling : dangling [officeRoom; meetingRoom] ghostPath.
Proof. right. reflexivity. Defined.

(** C6 as stated fails outside the computations that resolve rooms: the
    compliance engine checks the dangling path and raises two critical
    issues for it, and the accessibility score counts it. *)
Lemma dangling_path_is_checked :
  dangling [officeRoom; meetingRoom] ghostPath
  /\ (exists r,
         BuildingCodesService.checkCompliance decimalString
           (withPath [officeRoom; meetingRoom] [goodPath] ghostPath [])
           (BuildingCodesService.settingsFor "US" ["ADA"]) = Return r
         /\ map BuildingCodesService.code (BuildingCodesService.issues r)
            = ["ADA_CORRIDOR_WIDTH"; "ADA_DOOR_WIDTH"]
         /\ map BuildingCodesService.location (BuildingCodesService.issues r)
            = [Some ("Path 2: r1 " ++ BuildingCodesService.arrow ++ " ghost");
               Some ("Door 2: r1 " ++ BuildingCodesService.arrow ++ " ghost")]
         /\ BuildingCodesService.status r = BuildingCodesService.NonCompliant)
  /\ (exists r,
         BuildingCodesService.checkCompliance decimalString
           (withoutPath [officeRoom; meetingRoom] [goodPath] [])
           (BuildingCodesService.settingsFor "US" ["ADA"]) = Return r
         /\ BuildingCodesService.issues r = []
         /\ BuildingCodesService.status r = BuildingCodesService.Compliant)
  /\ PerformanceMetricsCalculator.calculateAccessibilityScore
       (withPath [officeRoom; meetingRoom] [goodPath] ghostPath []) None
     = 75%Q
  /\ PerformanceMetricsCalculator.calculateAccessibilityScore
       (withoutPath [officeRoom; meetingRoom] [goodPath] []) None
     = 100%Q.
Proof.
  split; [exact ghostPath_dangling|].
  split; [eexists; split; [vm_compute; reflexivity | repeat split]|].
  split; [eexists; split; [vm_compute; reflexivity | repeat split]|].
  split; reflexivity.
Qed.

Lemma dangling_path_skipped_witness :
  dangling [officeRoom; meetingRoom] ghostPath
  /\ PerformanceMetricsCalculator.calculateCirculationEfficiency decimalSqrt
       (withPath [officeRoom; meetingRoom] [goodPath] ghostPath [])
     = PerformanceMetricsCalculator.calculateCirculationEfficiency decimalSqrt
         (withoutPath [officeRoom; meetingRoom] [goodPath] [])
  /\ (exists dxf,
         exportToDXF decimalString
           (withPath [officeRoom; meetingRoom] [goodPath] ghostPath []) None
         = Return dxf
         /\ exportToDXF decimalString
              (withoutPath [officeRoom; meetingRoom] [goodPath] []) None
            = Return dxf)
  /\ (exists svg,
         exportToSVG decimalString
           (withPath [officeRoom; meetingRoom] [goodPath] ghostPath []) None
         = Return svg
         /\ exportToSVG decimalString
              (withoutPath [officeRoom; meetingRoom] [goodPath] []) None
            = Return svg)
  /\ exportToPDF decimalString sampleDate
       (withPath [officeRoom; meetingRoom] [goodPath] ghostPath []) None None
     = exportToPDF decimalString sampleDate
         (withoutPath [officeRoom; meetingRoom] [goodPath] []) None None.
Proof.
  split; [exact ghostPath_dangling|].
  exact (dangling_path_skipped decimalString sampleDate decimalSqrt
           [officeRoom; meetingRoom] [goodPath] [] ghostPath None None None
           None ghostPath_dangling).
Defined.

Lemma twoRooms_numbers :
  Forall (JSON.numberOk decimalString JSON.parseDecimal)
    (layoutNumbers twoRooms).
Proof.
  repeat (apply Forall_cons;
          [split; [discriminate | split; reflexivity]|]).
  apply Forall_nil.
Qed.

(** C8 at the two-room layout, with the default metadata. *)
Lemma exportToJSON_round_trip_witness :
  exists parsed,
    JSON.parse JSON.parseDecimal
      (exportToJSON decimalString sampleInstant (layoutToJSON twoRooms) None)
    = Some parsed
    /\ JSON.get parsed "layout" = Some (layoutToJSON twoRooms).
Proof.
  apply (exportToJSON_round_trip decimalString sampleInstant
           JSON.parseDecimal (layoutToJSON twoRooms) None).
  - apply layoutToJSON_representable. exact twoRooms_numbers.
  - constructor; constructor.
Defined.

Definition myPlan : ProjectInfo :=
  {| projectName := Some "My Plan"; layoutName := None; metrics := None;
     compliance := None |}.

(** The sanitization in the specification's words, for comparison: it
    strips every character outside [A-Za-z0-9_]. *)
Fixpoint stripNonWord (s : string) : string :=
  match s with
  | EmptyString => EmptyString
  | String c s' =>
      if isAlphanumeric c || Ascii.eqb c "_"
      then String c (stripNonWord s')
      else stripNonWord s'
  end.

(** C9 as stated fails: the space of the project name is not removed, an
    underscore stands in its place. *)
Lemma sanitize_replaces :
  exists entry,
    getResult
      (exportMultipleFormats decimalString sampleDate sampleInstant twoRooms
         myPlan (Some ["svg"])) "svg" = Some entry
    /\ success entry = true
    /\ filename entry = Some "My_Plan_2026-11-03.svg"
    /\ stripNonWord "My Plan" ++ "_" ++ "2026-11-03" ++ "." ++ "svg"
       = "MyPlan_2026-11-03.svg"
    /\ filename entry
       <> Some (stripNonWord "My Plan" ++ "_" ++ "2026-11-03" ++ "." ++ "svg").
Proof.
  eexists. split; [vm_compute; reflexivity|].
  repeat split. discriminate.
Qed.

(** The amended C9 at a request for svg, PDF and xyz: the report asked
    for as PDF is the file My_Plan_2026-11-03.html. *)
Lemma batch_file_names_witness :
  hasShape isoShape sampleInstant = true
  /\ exists entry,
       getResult
         (exportMultipleFormats decimalString sampleDate sampleInstant
            twoRooms myPlan (Some ["svg"; "PDF"; "xyz"])) "PDF" = Some entry
       /\ success entry = true
       /\ filename entry = Some "My_Plan_2026-11-03.html"
       /\ exists extension,
            In (toLowerCase "PDF", extension)
              [("dxf", "dxf"); ("svg", "svg"); ("pdf", "html");
               ("json", "json"); ("csv", "csv")]
            /\ filename entry
               = Some (sanitizedProjectName myPlan ++ "_"
                       ++ String.substring 0 10 sampleInstant ++ "."
                       ++ extension).
Proof.
  assert (Hclock : hasShape isoShape sampleInstant = true) by reflexivity.
  split; [exact Hclock|].
  eexists. split; [vm_compute; reflexivity|].
  split; [reflexivity|]. split; [reflexivity|].
  apply (proj1 (proj2 (batch_file_names decimalString sampleDate
                         sampleInstant twoRooms myPlan
                         (Some ["svg"; "PDF"; "xyz"]) Hclock)) "PDF");
    vm_compute; reflexivity.
Defined.

(** *** The further properties at sample inputs *)

Lemma exportToJSON_envelope_witness :
  exists parsed,
    JSON.parse JSON.parseDecimal
      (exportToJSON decimalString sampleInstant (layoutToJSON twoRooms) None)
    = Some parsed
    /\ JSON.get parsed "version" = Some (JSON.Str "1.0")
    /\ JSON.get parsed "exportedAt" = Some (JSON.Str sampleInstant)
    /\ JSON.get parsed "metadata" = Some (JSON.Object []).
Proof.
  apply (exportToJSON_envelope decimalString sampleInstant
           JSON.parseDecimal (layoutToJSON twoRooms) None).
  - apply layoutToJSON_representable. exact twoRooms_numbers.
  - constructor; constructor.
Defined.

(** The layout under edit that has rooms and no circulation yet: of the
    five formats only JSON and CSV are written. *)
Lemma incomplete_layout_exports_witness :
  (rooms roomsOnly = None \/ circulation roomsOnly = None)
  /\ exists entry,
       getResult
         (exportMultipleFormats decimalString sampleDate sampleInstant
            roomsOnly myPlan (Some ["svg"])) "svg" = Some entry
       /\ (success entry = true
           <-> toLowerCase "svg" = "json"
               \/ (toLowerCase "svg" = "csv" /\ rooms roomsOnly <> None))
       /\ (success entry = false -> error entry <> None).
Proof.
  assert (H : rooms roomsOnly = None \/ circulation roomsOnly = None)
    by (right; reflexivity).
  split; [exact H|].
  exact (incomplete_layout_exports decimalString sampleDate sampleInstant
           roomsOnly myPlan "svg" H).
Defined.

Lemma csv_one_line_per_room_witness :
  Forall (singleLine decimalString) [officeRoom; meetingRoom]
  /\ exists csv,
       exportRoomScheduleToCSV decimalString (Some [officeRoom; meetingRoom])
       = Return csv
       /\ lineFeeds csv = 3%nat
       /\ exportRoomScheduleToCSV decimalString None = Throw TypeError.
Proof.
  assert (H : Forall (singleLine decimalString) [officeRoom; meetingRoom])
    by (repeat constructor).
  split; [exact H|].
  exact (csv_one_line_per_room decimalString [officeRoom; meetingRoom] H).
Defined.

Lemma myPlan_representable :
  JSON.representable decimalString JSON.parseDecimal
    (projectInfoToJSON myPlan).
Proof.
  constructor; [repeat constructor; simpl; tauto|].
  repeat constructor.
Qed.

Lemma batch_json_reads_back_witness :
  In "json" ["svg"; "json"]
  /\ exists entry file parsed,
       getResult
         (exportMultipleFormats decimalString sampleDate sampleInstant
            twoRooms myPlan (Some ["svg"; "json"])) "json" = Some entry
       /\ success entry = true
       /\ blob entry = Some file
       /\ blob_type file = "application/json"
       /\ JSON.parse JSON.parseDecimal (blob_content file) = Some parsed
       /\ forall other,
            JSON.get parsed "layout" = Some (layoutToJSON other)
            <-> other = twoRooms.
Proof.
  assert (H : In "json" ["svg"; "json"]) by (right; now left).
  split; [exact H|].
  exact (batch_json_reads_back decimalString sampleDate sampleInstant
           JSON.parseDecimal twoRooms myPlan ["svg"; "json"] H
           twoRooms_numbers myPlan_representable).
Defined.

End ExportService.

(** ** aiService.js: the fallback layout and the quick compliance check *)

Module AIService.

Import JS Samples.
Local Open Scope Q_scope.
Local Open Scope string_scope.

(** The loop that joins each room to the next:
    [for (let i = 0; i < rooms.length - 1; i++)
       circulation.push({ from: rooms[i].id, to: rooms[i + 1].id, width: 6 })] *)
Fixpoint chain (rooms : list Room) : list CirculationPath :=
  match rooms with
  | room :: ((next :: _) as rest) =>
      {| from := id room; to := id next; pwidth := 6 |} :: chain rest
  | _ => []
  end.

Definition generateFallbackLayout (scheduleData : string) : LayoutData :=
  let rooms := [] in
  let text := toLowerCase scheduleData in
  let currentX := 50 in
  let currentY := 50 in
  let '(rooms, currentX) :=
    if includes text "office"
    then ((rooms
           ++ [ {| id := "office_main"; name := "Main Office Space";
                   area := 600; x := currentX; y := currentY;
                   width := 500; height := 400 |} ])%list,
          currentX + 550)
    else (rooms, currentX) in
  let '(rooms, currentY) :=
    if includes text "meeting"
    then ((rooms
           ++ [ {| id := "meeting_room"; name := "Meeting Room";
                   area := 200; x := currentX; y := currentY;
                   width := 300; height := 250 |} ])%list,
          currentY + 300)
    else (rooms, currentY) in
  let rooms :=
    if includes text "kitchen" || includes text "break"
    then (rooms
          ++ [ {| id := "kitchen"; name := "Kitchen/Break Room";
                  area := 150; x := currentX; y := currentY;
                  width := 250; height := 200 |} ])%list
    else rooms in
  let rooms :=
    if includes text "reception"
    then (rooms
          ++ [ {| id := "reception"; name := "Reception";
                  area := 120; x := 50; y := currentY + 250;
                  width := 300; height := 150 |} ])%list
    else rooms in
  {| rooms := Some rooms; circulation := Some (chain rooms) |}.

(** What [checkComplianceStatus] returns. *)
Record QuickCheck : Type := {
  quick_status : BuildingCodesService.Status;
  quick_issues : list string
}.

Section QuickCheck.

(** The conversion of a number to a string in a template literal. *)
Variable numToString : Q -> string.

Definition narrowPathIssue (path : CirculationPath) : string :=
  "Circulation path from " ++ from path ++ " to " ++ to path
  ++ " is too narrow for accessibility (" ++ numToString (pwidth path)
  ++ "ft < 4ft required)".

Definition smallOfficeIssue (room : Room) : string :=
  name room ++ " is below minimum office size ("
  ++ numToString (area room) ++ " sqft < 80 sqft)".

(** [accessibility] is whether [normSettings.accessibility] is truthy.
    Neither [forEach] is guarded: a layout without [rooms], or without
    [circulation] when accessibility is asked for, is a TypeError. *)
Definition checkComplianceStatus (layoutData : LayoutData)
    (accessibility : bool) : completion QuickCheck :=
  let issues := [] in
  issues <-
    (if accessibility then
       match circulation layoutData with
       | Some circulation =>
           Return
             (fold_left
                (fun issues path =>
                   if ltb (pwidth path) 4
                   then (issues ++ [narrowPathIssue path])%list
                   else issues)
                circulation issues)
       | None => Throw TypeError
       end
     else Return issues) ;;
  match rooms layoutData with
  | Some rooms =>
      let issues :=
        fold_left
          (fun issues room =>
             if ltb (area room) 80
                && includes (toLowerCase (name room)) "office"
             then (issues ++ [smallOfficeIssue room])%list
             else issues)
          rooms issues in
      Return
        {| quick_status :=
             if (List.length issues =? 0)%nat
             then BuildingCodesService.Compliant
             else if (List.length issues <? 3)%nat
                  then BuildingCodesService.Warning
                  else BuildingCodesService.NonCompliant;
           quick_issues := issues |}
  | None => Throw TypeError
  end.

(** *** Properties *)

Ltac schedule_cases scheduleData :=
  destruct (includes (toLowerCase scheduleData) "office");
  destruct (includes (toLowerCase scheduleData) "meeting");
  destruct (includes (toLowerCase scheduleData) "kitchen");
  destruct (includes (toLowerCase scheduleData) "break");
  destruct (includes (toLowerCase scheduleData) "reception").


(** X28: whatever the schedule text, the fallback layout passes the
    compliance engine under its default settings (US with the IBC and the
    ADA): [checkCompliance] returns the status compliant with no issue and
    no warning. *)
Theorem generateFallbackLayout_compliant :
  forall (scheduleData : string) (flag : option bool),
  exists r,
    BuildingCodesService.checkCompliance numToString
      (generateFallbackLayout scheduleData)
      {| BuildingCodesService.country := None;
         BuildingCodesService.codes := None;
         BuildingCodesService.accessibilityFlag := flag |}
    = Return r
    /\ BuildingCodesService.status r = BuildingCodesService.Compliant
    /\ BuildingCodesService.issues r = []
    /\ BuildingCodesService.warnings r = [].
Proof.
  intros scheduleData flag. unfold generateFallbackLayout. cbv zeta.
  schedule_cases scheduleData; cbn [orb app chain id];
    eexists; (split; [vm_compute; reflexivity|]); repeat split.
Qed.

Lemma narrow_fold (paths : list CirculationPath) (issues : list string) :
  List.length
    (fold_left
       (fun issues path =>
          if ltb (pwidth path) 4%Q
          then (issues ++ [narrowPathIssue path])%list
          else issues)
       paths issues)
  = (List.length issues
     + List.length (filter (fun path => ltb (pwidth path) 4%Q) paths))%nat.
Proof.
  revert issues. induction paths as [|p paths IH]; intro issues; simpl.
  - lia.
  - rewrite IH. destruct (ltb (pwidth p) 4); rewrite ?length_app; simpl; lia.
Qed.

Lemma office_fold (rs : list Room) (issues : list string) :
  List.length
    (fold_left
       (fun issues room =>
          if ltb (area room) 80%Q
             && includes (toLowerCase (name room)) "office"
          then (issues ++ [smallOfficeIssue room])%list
          else issues)
       rs issues)
  = (List.length issues
     + List.length
         (filter
            (fun room =>
               ltb (area room) 80%Q
               && includes (toLowerCase (name room)) "office")
            rs))%nat.
Proof.
  revert issues. induction rs as [|r rs IH]; intro issues; simpl.
  - lia.
  - rewrite IH. destruct (_ && _); rewrite ?length_app; simpl; lia.
Qed.

(** X29: the quick check of a layout that has its rooms and its
    circulation reports one issue for each path narrower than 4 ft, when
    accessibility is asked for, and one for each room under 80 sq ft whose
    name holds the word office; its status is compliant with no issue,
    warning with one or two, non-compliant from three on.  Without its
    rooms, or without its circulation when accessibility is asked for, the
    layout is a TypeError. *)
Theorem checkComplianceStatus_counts :
  forall (rs : list Room) (paths : list CirculationPath)
         (accessibility : bool),
  exists result,
    checkComplianceStatus {| rooms := Some rs; circulation := Some paths |}
      accessibility = Return result
    /\ List.length (quick_issues result)
       = ((if accessibility
           then List.length (filter (fun path => ltb (pwidth path) 4%Q) paths)
           else 0)
          + List.length
              (filter
                 (fun room =>
                    ltb (area room) 80%Q
                    && includes (toLowerCase (name room)) "office")
                 rs))%nat
    /\ (quick_status result = BuildingCodesService.Compliant
        <-> quick_issues result = [])
    /\ (quick_status result = BuildingCodesService.Warning
        <-> List.length (quick_issues result) = 1%nat
            \/ List.length (quick_issues result) = 2%nat)
    /\ (quick_status result = BuildingCodesService.NonCompliant
        <-> (3 <= List.length (quick_issues result))%nat)
    /\ (forall circulation,
          checkComplianceStatus {| rooms := None; circulation := circulation |}
            accessibility = Throw TypeError)
    /\ checkComplianceStatus {| rooms := Some rs; circulation := None |} true
       = Throw TypeError.
Proof.
  intros rs paths accessibility.
  destruct accessibility; (eexists; split; [reflexivity|]);
    cbn [quick_issues quick_status];
    (split; [rewrite office_fold, ?narrow_fold; reflexivity|]);
    match goal with |- context [(List.length ?l =? 0)%nat] =>
      generalize l; intro issues
    end;
    (split; [|split; [|split; [|split]]]);
    try (destruct issues as [|i1 [|i2 [|i3 l']]]; simpl; split; intro H;
         try discriminate H; try reflexivity; try tauto; try lia;
         destruct H as [H|H]; discriminate H);
    try reflexivity;
    intros [c|]; reflexivity.
Qed.

End QuickCheck.

End AIService.
